(** * Embedded InnoDB: persistent cursor, hash chains, trx ids, row undo

    A shallow embedding of

    - the transaction ids and the trx list (include/trx0sys.h),
    - the hash table with external chains  (ha/ha0ha.cc),
    - the persistent cursor                (btr/btr0pcur.cc),
    - the row undo                         (row/row0undo.cc),

    followed by the properties proved about them.  The release build is
    modelled: [ut_a] and [ut_error] abort, [ut_ad] and the [UNIV_DEBUG]
    blocks are compiled out.  Whether [UNIV_BTR_DEBUG] is defined is left
    open: the persistent cursor takes it as a parameter. *)

From Stdlib Require Import ZArith List Bool Lia Sorted.
From stdpp Require Import base list.
Import ListNotations.

Local Open Scope Z_scope.

(** ** Part I. Definitions *)

(** *** 1. Transaction ids (include/trx0sys.h) *)

(** Modelled from the spec: the declaration of [trx_id_t] is missing; it is
    an unsigned 64-bit integer, the header field [TRX_SYS_TRX_ID_STORE] that
    holds it being 8 bytes wide. *)
Definition TRX_ID_MODULUS : Z := 2 ^ 64.

Definition TRX_SYS_TRX_ID_WRITE_MARGIN : Z := 256.

(** The in-memory [Trx_sys] (only the field [get_new_trx_id] touches)
    together with the file copy of the header: the current content of
    [TRX_SYS_TRX_ID_STORE] and the values written to it so far, oldest
    first. *)
Record Trx_sys : Type := mkTrx_sys {
  m_max_trx_id : Z;
  hdr_trx_id_store : Z;
  hdr_writes : list Z
}.

(** Modelled from the spec: the body of [Trx_sys::flush_max_trx_id]
    (trx0sys.cc) is missing; its declaration in trx0sys.h reads "Writes the
    value of max_trx_id to the file based trx system header", and the data
    model says [max_trx_id] is what is durably written to the header. *)
Definition flush_max_trx_id (s : Trx_sys) : Trx_sys :=
  {| m_max_trx_id := m_max_trx_id s;
     hdr_trx_id_store := m_max_trx_id s;
     hdr_writes := hdr_writes s ++ [m_max_trx_id s] |}.

(** [Trx_sys::get_new_trx_id]: flush when the counter is a multiple of the
    margin, then return the counter and increment it (a 64-bit [++]). *)
Definition get_new_trx_id (s : Trx_sys) : Z * Trx_sys :=
  let s1 :=
    if m_max_trx_id s mod TRX_SYS_TRX_ID_WRITE_MARGIN =? 0
    then flush_max_trx_id s
    else s in
  let id := m_max_trx_id s1 in
  (id, {| m_max_trx_id := (m_max_trx_id s1 + 1) mod TRX_ID_MODULUS;
          hdr_trx_id_store := hdr_trx_id_store s1;
          hdr_writes := hdr_writes s1 |}).

(** [n] successive calls; the ids are returned in call order. *)
Fixpoint get_new_trx_ids (n : nat) (s : Trx_sys) : list Z * Trx_sys :=
  match n with
  | O => ([], s)
  | S n' =>
      let '(id, s1) := get_new_trx_id s in
      let '(ids, s2) := get_new_trx_ids n' s1 in
      (id :: ids, s2)
  end.

(** A freshly started system whose counter and flushed ceiling are [c]. *)
Definition trx_sys_started_at (c : Z) : Trx_sys :=
  {| m_max_trx_id := c; hdr_trx_id_store := c; hdr_writes := [] |}.

(** The header values written by the call made in state [s]. *)
Definition writes_of_call (s : Trx_sys) : list Z :=
  skipn (length (hdr_writes s)) (hdr_writes (snd (get_new_trx_id s))).

(** For [n] successive calls, the returned id and the header values each
    call wrote. *)
Fixpoint trx_id_trace (n : nat) (s : Trx_sys) : list (Z * list Z) :=
  match n with
  | O => []
  | S n' =>
      (fst (get_new_trx_id s), writes_of_call s)
        :: trx_id_trace n' (snd (get_new_trx_id s))
  end.

Definition wrote_header (e : Z * list Z) : bool :=
  negb (Nat.eqb (length (snd e)) 0).

Definition Z_range (lo : Z) (n : nat) : list Z :=
  map (fun i => lo + Z.of_nat i) (seq 0 n).

(** **** The trx list *)

(** Modelled from the spec: trx0types.h and trx0trx.h are missing; the
    concurrency states of a transaction are taken by name, as the data model
    lists them and [is_active] uses them. *)
Inductive trx_conc_state_t : Type :=
  | TRX_NOT_STARTED | TRX_ACTIVE | TRX_COMMITTED_IN_MEMORY | TRX_PREPARED.

Global Instance trx_conc_state_eq_dec : EqDecision trx_conc_state_t.
Proof. solve_decision. Defined.

(** [trx_t], the two fields the inline functions of trx0sys.h read. *)
Record trx_t : Type := mk_trx {
  m_id : Z;
  m_conc_state : trx_conc_state_t
}.

(** [Trx_sys::get_on_id] (lines 186-197): the walk over [m_trx_list] from
    its first element; [None] is [nullptr]. *)
Fixpoint get_on_id (m_trx_list : list trx_t) (trx_id : Z) : option trx_t :=
  match m_trx_list with
  | [] => None
  | trx :: rest =>
      if trx_id =? m_id trx then Some trx else get_on_id rest trx_id
  end.

(** [Trx_sys::get_min_trx_id] (lines 207-213): the id of the last element
    of [m_trx_list], the counter when the list is empty. *)
Definition get_min_trx_id (s : Trx_sys) (m_trx_list : list trx_t) : Z :=
  match last m_trx_list with
  | None => m_max_trx_id s
  | Some trx => m_id trx
  end.

(** [Trx_sys::is_active] (lines 222-243).  The lookup goes through the
    process-wide [srv_trx_sys], whose list is [srv_trx_list]. *)
Definition is_active (s : Trx_sys) (m_trx_list srv_trx_list : list trx_t)
    (trx_id : Z) : bool :=
  if trx_id <? get_min_trx_id s m_trx_list then false
  else if trx_id >=? m_max_trx_id s then true
  else
    match get_on_id srv_trx_list trx_id with
    | Some trx =>
        bool_decide (m_conc_state trx = TRX_ACTIVE)
        || bool_decide (m_conc_state trx = TRX_PREPARED)
    | None => false
    end.

(** "List of active and committed in memory transactions, sorted on trx id,
    biggest first" (the comment on [m_trx_list]); ids are not shared. *)
Definition trx_list_sorted (l : list trx_t) : Prop :=
  StronglySorted (fun a b => m_id b < m_id a) l.

(** Every transaction of the list has an id the counter has passed. *)
Definition trx_list_below (s : Trx_sys) (l : list trx_t) : Prop :=
  Forall (fun t => m_id t < m_max_trx_id s) l.

(** The header copy of the counter is a multiple of the margin and at most
    one margin behind the counter. *)
Definition trx_id_store_ok (s : Trx_sys) : Prop :=
  hdr_trx_id_store s mod TRX_SYS_TRX_ID_WRITE_MARGIN = 0 /\
  hdr_trx_id_store s <= m_max_trx_id s
    <= hdr_trx_id_store s + TRX_SYS_TRX_ID_WRITE_MARGIN.

Definition is_write_margin (id : Z) : bool :=
  id mod TRX_SYS_TRX_ID_WRITE_MARGIN =? 0.

Definition trx_list_example : list trx_t :=
  [mk_trx 9 TRX_ACTIVE; mk_trx 7 TRX_COMMITTED_IN_MEMORY;
   mk_trx 4 TRX_PREPARED].

(** *** 2. Hash table with external chains (ha/ha0ha.cc) *)

(** A chain node.  The [next] pointer is the order of the list that holds
    the chain; [data] is an address, 0 for NULL. *)
Record ha_node_t : Type := mk_ha_node {
  fold : Z;
  data : Z
}.

Section HashTable.

(** The arena ([mem_heap_t]) and its allocator are not part of ha0ha.cc:
    [mem_heap_alloc heap n] is [None] when it returns NULL and the arena
    after the allocation otherwise. *)
Variable mem_heap_t : Type.
Variable mem_heap_alloc : mem_heap_t -> Z -> option mem_heap_t.
Variable sizeof_ha_node_t : Z.

(** [cells] is the cell array, each cell the head of a chain; [heap] is the
    single arena of a table created with no mutexes, [heaps] the arenas of
    the stripes otherwise. *)
Record hash_table_t : Type := mk_hash_table {
  cells : list (list ha_node_t);
  heap : option mem_heap_t;
  heaps : list mem_heap_t
}.

(** hash0hash.ic is not part of the sources: the cell number of a fold and
    the stripe of a fold are taken as given. *)
Variable hash_calc_hash : Z -> hash_table_t -> nat.
Variable hash_get_mutex_no : hash_table_t -> Z -> nat.

(** Modelled from the spec: [hash_get_heap] (hash0hash.ic, missing) yields
    the arena of the fold's stripe, the single arena when the table has
    one. *)
Definition hash_get_heap (table : hash_table_t) (f : Z) : option mem_heap_t :=
  match heap table with
  | Some h => Some h
  | None => heaps table !! hash_get_mutex_no table f
  end.

(** The effect of an allocation on the arena [hash_get_heap] selected. *)
Definition hash_set_heap (table : hash_table_t) (f : Z) (h : mem_heap_t)
  : hash_table_t :=
  match heap table with
  | Some _ => {| cells := cells table; heap := Some h; heaps := heaps table |}
  | None => {| cells := cells table; heap := None;
               heaps := <[hash_get_mutex_no table f := h]> (heaps table) |}
  end.

Definition hash_set_nth_cell (table : hash_table_t) (i : nat)
    (chain : list ha_node_t) : hash_table_t :=
  {| cells := <[i := chain]> (cells table);
     heap := heap table; heaps := heaps table |}.

(** The first loop of [ha_insert_for_fold_func]: walk the chain and
    overwrite the data of the first node whose fold is [f]; [None] when the
    walk reaches the end of the chain. *)
Fixpoint ha_chain_set_data (chain : list ha_node_t) (f d : Z)
  : option (list ha_node_t) :=
  match chain with
  | [] => None
  | prev_node :: rest =>
      if fold prev_node =? f
      then Some ({| fold := fold prev_node; data := d |} :: rest)
      else match ha_chain_set_data rest f d with
           | Some rest' => Some (prev_node :: rest')
           | None => None
           end
  end.

(** The tail of [ha_insert_for_fold_func]: the new node becomes the cell's
    head when the chain is empty, else the walk goes to the node whose
    [next] is NULL and links the new node there. *)
Fixpoint ha_chain_link_last (chain : list ha_node_t) (node : ha_node_t)
  : list ha_node_t :=
  match chain with
  | [] => [node]
  | prev_node :: rest => prev_node :: ha_chain_link_last rest node
  end.

(** [ha_insert_for_fold_func].  The outer [option] is [None] when the cell
    or the arena lies outside its array (undefined behaviour in C). *)
Definition ha_insert_for_fold_func (table : hash_table_t) (f d : Z)
  : option (bool * hash_table_t) :=
  let hash := hash_calc_hash f table in
  match cells table !! hash with
  | None => None
  | Some chain =>
      match ha_chain_set_data chain f d with
      | Some chain' => Some (true, hash_set_nth_cell table hash chain')
      | None =>
          match hash_get_heap table f with
          | None => None
          | Some h =>
              match mem_heap_alloc h sizeof_ha_node_t with
              | None => Some (false, table)
              | Some h' =>
                  let node := {| fold := f; data := d |} in
                  Some (true,
                        hash_set_nth_cell (hash_set_heap table f h') hash
                          (ha_chain_link_last chain node))
              end
          end
      end
  end.

End HashTable.

Arguments cells {mem_heap_t} _.
Arguments heap {mem_heap_t} _.
Arguments heaps {mem_heap_t} _.
Arguments mk_hash_table {mem_heap_t} _ _ _.
Arguments hash_get_heap {mem_heap_t} _ _ _.
Arguments hash_set_heap {mem_heap_t} _ _ _ _.
Arguments hash_set_nth_cell {mem_heap_t} _ _ _.
Arguments ha_insert_for_fold_func {mem_heap_t} _ _ _ _ _ _ _.

(** A concrete arena for running the code: the number of nodes that still
    fit; an allocation of a node takes one. *)
Definition counting_heap_alloc (h : nat) (n : Z) : option nat :=
  match h with
  | O => None
  | S h' => Some h'
  end.

Definition mod_hash_calc_hash (f : Z) (table : hash_table_t nat) : nat :=
  Z.to_nat (f mod Z.of_nat (length (cells table))).

Definition single_stripe (table : hash_table_t nat) (f : Z) : nat := 0%nat.

Definition ha_insert_counting :=
  ha_insert_for_fold_func counting_heap_alloc 16 mod_hash_calc_hash
    single_stripe.

Definition ha_table_example : hash_table_t nat :=
  {| cells := [[];
               [{| fold := 4; data := 100 |}; {| fold := 7; data := 200 |}];
               []];
     heap := Some 1%nat; heaps := [] |}.

(** **** Maintenance of the table *)

Section HashTableMaintenance.

Variable mem_heap_t : Type.

(** [mem_heap_free] is not part of ha0ha.cc: the arena it leaves behind is
    taken as given. *)
Variable mem_heap_free : mem_heap_t -> mem_heap_t.

Variable hash_calc_hash : Z -> hash_table_t mem_heap_t -> nat.

(** [page_align] (page0page.h) and the deletion of a node from its chain
    ([HASH_DELETE_AND_COMPACT], hash0hash.h) are not part of the sources.
    [ha_delete_hash_node table i pos] is the table after the node at place
    [pos] of the chain of cell [i] has been deleted. *)
Variable page_align : Z -> Z.
Variable ha_delete_hash_node :
  hash_table_t mem_heap_t -> nat -> nat -> hash_table_t mem_heap_t.

Definition hash_get_n_cells (table : hash_table_t mem_heap_t) : nat :=
  length (cells table).

(** [ha_clear] (lines 81-105): the arenas of the stripes are freed, the
    head of every cell is set to NULL.  The single arena [heap] of a table
    without stripes is not touched. *)
Definition ha_clear (table : hash_table_t mem_heap_t)
  : hash_table_t mem_heap_t :=
  {| cells := map (fun _ => []) (cells table);
     heap := heap table;
     heaps := map mem_heap_free (heaps table) |}.

(** The inner loop of [ha_validate] (lines 286-299): [ok] is cleared at
    every node whose fold does not hash to the cell [i]; the walk goes
    on. *)
Fixpoint ha_validate_chain (table : hash_table_t mem_heap_t) (i : nat)
    (chain : list ha_node_t) (ok : bool) : bool :=
  match chain with
  | [] => ok
  | node :: rest =>
      ha_validate_chain table i rest
        (if negb (hash_calc_hash (fold node) table =? i)%nat
         then false else ok)
  end.

(** The outer loop, over the [n] cells from [i] on. *)
Fixpoint ha_validate_cells (table : hash_table_t mem_heap_t) (i n : nat)
    (ok : bool) : option bool :=
  match n with
  | O => Some ok
  | S n' =>
      match cells table !! i with
      | None => None
      | Some chain =>
          ha_validate_cells table (S i) n'
            (ha_validate_chain table i chain ok)
      end
  end.

(** [ha_validate] (lines 265-303); [None] when one of its three [ut_a]
    fails.  The message printed for a misplaced node is not modelled. *)
Definition ha_validate (table : hash_table_t mem_heap_t)
    (start_index end_index : nat) : option bool :=
  if (start_index <=? end_index)%nat
     && (start_index <? hash_get_n_cells table)%nat
     && (end_index <? hash_get_n_cells table)%nat
  then ha_validate_cells table start_index
         (S (end_index - start_index)) true
  else None.

(** The loop of [ha_remove_all_nodes_to_page] (lines 231-248): [pos] is the
    place of [node] in the chain of the fold's cell; after a deletion the
    walk starts again from the first node.  [None] when the fuel runs out
    or the cell lies outside the array.  Modelled from the spec:
    [ha_chain_get_first], [ha_chain_get_next] and [ha_node_get_data]
    (ha0ha.ic, missing) are the head of the fold's cell, the [next] pointer
    and the [data] field. *)
Fixpoint ha_remove_all_nodes_to_page_loop (fuel : nat)
    (table : hash_table_t mem_heap_t) (f page : Z) (pos : nat)
  : option (hash_table_t mem_heap_t) :=
  match fuel with
  | O => None
  | S fuel' =>
      match cells table !! hash_calc_hash f table with
      | None => None
      | Some chain =>
          match chain !! pos with
          | None => Some table
          | Some node =>
              if page_align (data node) =? page then
                ha_remove_all_nodes_to_page_loop fuel'
                  (ha_delete_hash_node table (hash_calc_hash f table) pos)
                  f page 0
              else
                ha_remove_all_nodes_to_page_loop fuel' table f page (S pos)
          end
      end
  end.

(** [ha_remove_all_nodes_to_page] (lines 221-260), the release build. *)
Definition ha_remove_all_nodes_to_page (fuel : nat)
    (table : hash_table_t mem_heap_t) (f page : Z)
  : option (hash_table_t mem_heap_t) :=
  ha_remove_all_nodes_to_page_loop fuel table f page 0.

(** The folds of a chain hash to the cell [i]. *)
Definition chain_in_cell (table : hash_table_t mem_heap_t) (i : nat)
    (chain : list ha_node_t) : Prop :=
  Forall (fun node => hash_calc_hash (fold node) table = i) chain.

(** Every node sits in the cell its fold hashes to: what [ha_validate]
    checks, over the whole array. *)
Definition ha_table_valid (table : hash_table_t mem_heap_t) : Prop :=
  ha_validate table 0 (hash_get_n_cells table - 1) = Some true.

(** No chain holds a fold twice. *)
Definition ha_chains_distinct (table : hash_table_t mem_heap_t) : Prop :=
  Forall (fun chain => NoDup (map fold chain)) (cells table).

(** The cell number of a fold depends on the table through the number of
    its cells only. *)
Definition hash_by_n_cells : Prop :=
  forall (f : Z) (t t' : hash_table_t mem_heap_t),
    length (cells t) = length (cells t') ->
    hash_calc_hash f t = hash_calc_hash f t'.

(** [ha_delete_hash_node] unlinks the node from its chain and leaves the
    other chains as they are. *)
Definition deletes_from_chain : Prop :=
  forall (table : hash_table_t mem_heap_t) (i pos : nat)
         (chain : list ha_node_t),
    cells table !! i = Some chain ->
    (pos < length chain)%nat ->
    cells (ha_delete_hash_node table i pos)
      = <[i := delete pos chain]> (cells table).

Definition not_on_page (page : Z) (node : ha_node_t) : bool :=
  negb (page_align (data node) =? page).

End HashTableMaintenance.

Arguments hash_get_n_cells {mem_heap_t} _.
Arguments ha_clear {mem_heap_t} _ _.
Arguments ha_validate_chain {mem_heap_t} _ _ _ _ _.
Arguments ha_validate_cells {mem_heap_t} _ _ _ _ _.
Arguments ha_validate {mem_heap_t} _ _ _ _.
Arguments ha_remove_all_nodes_to_page_loop {mem_heap_t} _ _ _ _ _ _ _ _.
Arguments ha_remove_all_nodes_to_page {mem_heap_t} _ _ _ _ _ _ _.
Arguments chain_in_cell {mem_heap_t} _ _ _ _.
Arguments ha_table_valid {mem_heap_t} _ _.
Arguments ha_chains_distinct {mem_heap_t} _.
Arguments hash_by_n_cells {mem_heap_t} _.
Arguments deletes_from_chain {mem_heap_t} _.

(** A deletion for the tables with a counting arena: the node is unlinked
    and its slot goes back to the single arena. *)
Definition counting_delete_hash_node (table : hash_table_t nat) (i pos : nat)
  : hash_table_t nat :=
  {| cells := <[i := delete pos (default [] (cells table !! i))]> (cells table);
     heap := option_map S (heap table);
     heaps := heaps table |}.

(** Pages of 1000 addresses. *)
Definition toy_ha_page_align (p : Z) : Z := p - p mod 1000.

Definition ha_table_pages : hash_table_t nat :=
  {| cells := [[];
               [{| fold := 4; data := 1100 |}; {| fold := 7; data := 2200 |};
                {| fold := 10; data := 1300 |}; {| fold := 13; data := 1001 |}];
               []];
     heap := Some 0%nat; heaps := [] |}.

(** *** 3. Persistent cursor (btr/btr0pcur.cc) *)

(** Modelled from the spec: btr0pcur.h, btr0btr.h and page0types.h are
    missing; their enumerations are taken by name, as the data model lists
    them and btr0pcur.cc uses them. *)
Inductive btr_latch_mode : Type :=
  | BTR_SEARCH_LEAF | BTR_MODIFY_LEAF | BTR_NO_LATCHES
  | BTR_MODIFY_TREE | BTR_CONT_MODIFY_TREE
  | BTR_SEARCH_PREV | BTR_MODIFY_PREV.

Inductive ib_srch_mode_t : Type :=
  | PAGE_CUR_UNSUPP | PAGE_CUR_G | PAGE_CUR_GE | PAGE_CUR_L | PAGE_CUR_LE.

Inductive btr_pcur_pos_t : Type :=
  | BTR_PCUR_ON | BTR_PCUR_BEFORE | BTR_PCUR_AFTER
  | BTR_PCUR_BEFORE_FIRST_IN_TREE | BTR_PCUR_AFTER_LAST_IN_TREE.

Inductive btr_pcur_old_stored_t : Type :=
  | BTR_PCUR_OLD_STORED | BTR_PCUR_OLD_NOT_STORED.

Inductive btr_pcur_pos_state_t : Type :=
  | BTR_PCUR_IS_POSITIONED | BTR_PCUR_WAS_POSITIONED | BTR_PCUR_NOT_POSITIONED.

Global Instance btr_latch_mode_eq_dec : EqDecision btr_latch_mode.
Proof. solve_decision. Defined.
Global Instance ib_srch_mode_eq_dec : EqDecision ib_srch_mode_t.
Proof. solve_decision. Defined.
Global Instance btr_pcur_pos_eq_dec : EqDecision btr_pcur_pos_t.
Proof. solve_decision. Defined.
Global Instance btr_pcur_old_stored_eq_dec : EqDecision btr_pcur_old_stored_t.
Proof. solve_decision. Defined.
Global Instance btr_pcur_pos_state_eq_dec : EqDecision btr_pcur_pos_state_t.
Proof. solve_decision. Defined.

(** Modelled from the spec: the page number that means no page,
    0xFFFFFFFF (fil0fil.h is missing). *)
Definition FIL_NULL : Z := 4294967295.

(** Pointers ([rec_t*], [buf_block_t*], [page_t*], [dict_index_t*],
    [trx_t*], [byte*]) are addresses; 0 is NULL. *)
Record page_cur_t : Type := mk_page_cur {
  rec : Z;
  block : Z
}.

Record btr_cur_t : Type := mk_btr_cur {
  m_index : Z;
  m_page_cur : page_cur_t;
  left_block : Z
}.

(** [btr_pcur_t].  [old_rec] points into the buffer the cursor owns; it is
    represented by the bytes of the copied order-prefix it points to, [None]
    for NULL. *)
Record btr_pcur_t : Type := mk_btr_pcur {
  btr_cur : btr_cur_t;
  latch_mode : btr_latch_mode;
  old_stored : btr_pcur_old_stored_t;
  old_rec : option (list Z);
  old_n_fields : Z;
  rel_pos : btr_pcur_pos_t;
  block_when_stored : Z;
  modify_clock : Z;
  pos_state : btr_pcur_pos_state_t;
  search_mode : ib_srch_mode_t;
  trx_if_known : Z;
  old_rec_buf : Z;
  buf_size : Z
}.

Definition set_btr_cur (c : btr_pcur_t) (v : btr_cur_t) : btr_pcur_t :=
  mk_btr_pcur v (latch_mode c) (old_stored c) (old_rec c) (old_n_fields c)
    (rel_pos c) (block_when_stored c) (modify_clock c) (pos_state c)
    (search_mode c) (trx_if_known c) (old_rec_buf c) (buf_size c).

Definition set_latch_mode (c : btr_pcur_t) (v : btr_latch_mode) : btr_pcur_t :=
  mk_btr_pcur (btr_cur c) v (old_stored c) (old_rec c) (old_n_fields c)
    (rel_pos c) (block_when_stored c) (modify_clock c) (pos_state c)
    (search_mode c) (trx_if_known c) (old_rec_buf c) (buf_size c).

Definition set_old_stored (c : btr_pcur_t) (v : btr_pcur_old_stored_t)
  : btr_pcur_t :=
  mk_btr_pcur (btr_cur c) (latch_mode c) v (old_rec c) (old_n_fields c)
    (rel_pos c) (block_when_stored c) (modify_clock c) (pos_state c)
    (search_mode c) (trx_if_known c) (old_rec_buf c) (buf_size c).

Definition set_rel_pos (c : btr_pcur_t) (v : btr_pcur_pos_t) : btr_pcur_t :=
  mk_btr_pcur (btr_cur c) (latch_mode c) (old_stored c) (old_rec c)
    (old_n_fields c) v (block_when_stored c) (modify_clock c) (pos_state c)
    (search_mode c) (trx_if_known c) (old_rec_buf c) (buf_size c).

Definition set_block_when_stored (c : btr_pcur_t) (v : Z) : btr_pcur_t :=
  mk_btr_pcur (btr_cur c) (latch_mode c) (old_stored c) (old_rec c)
    (old_n_fields c) (rel_pos c) v (modify_clock c) (pos_state c)
    (search_mode c) (trx_if_known c) (old_rec_buf c) (buf_size c).

Definition set_modify_clock (c : btr_pcur_t) (v : Z) : btr_pcur_t :=
  mk_btr_pcur (btr_cur c) (latch_mode c) (old_stored c) (old_rec c)
    (old_n_fields c) (rel_pos c) (block_when_stored c) v (pos_state c)
    (search_mode c) (trx_if_known c) (old_rec_buf c) (buf_size c).

Definition set_pos_state (c : btr_pcur_t) (v : btr_pcur_pos_state_t)
  : btr_pcur_t :=
  mk_btr_pcur (btr_cur c) (latch_mode c) (old_stored c) (old_rec c)
    (old_n_fields c) (rel_pos c) (block_when_stored c) (modify_clock c) v
    (search_mode c) (trx_if_known c) (old_rec_buf c) (buf_size c).

Definition set_search_mode (c : btr_pcur_t) (v : ib_srch_mode_t) : btr_pcur_t :=
  mk_btr_pcur (btr_cur c) (latch_mode c) (old_stored c) (old_rec c)
    (old_n_fields c) (rel_pos c) (block_when_stored c) (modify_clock c)
    (pos_state c) v (trx_if_known c) (old_rec_buf c) (buf_size c).

Definition set_trx_if_known (c : btr_pcur_t) (v : Z) : btr_pcur_t :=
  mk_btr_pcur (btr_cur c) (latch_mode c) (old_stored c) (old_rec c)
    (old_n_fields c) (rel_pos c) (block_when_stored c) (modify_clock c)
    (pos_state c) (search_mode c) v (old_rec_buf c) (buf_size c).

(** What [dict_index_copy_rec_order_prefix] hands back: the copy, through
    its return value, and [n_fields], [buf] and [buf_size] through its
    out-parameters. *)
Record rec_order_prefix : Type := mk_rec_order_prefix {
  prefix_rec : list Z;
  prefix_n_fields : Z;
  prefix_buf : Z;
  prefix_buf_size : Z
}.

Definition set_old_rec (c : btr_pcur_t) (p : rec_order_prefix) : btr_pcur_t :=
  mk_btr_pcur (btr_cur c) (latch_mode c) (old_stored c) (Some (prefix_rec p))
    (prefix_n_fields p) (rel_pos c) (block_when_stored c) (modify_clock c)
    (pos_state c) (search_mode c) (trx_if_known c) (prefix_buf p)
    (prefix_buf_size p).

Definition set_page_cur (c : btr_pcur_t) (v : page_cur_t) : btr_pcur_t :=
  set_btr_cur c (mk_btr_cur (m_index (btr_cur c)) v (left_block (btr_cur c))).

(** The collaborators btr0pcur.cc calls and that are not part of the
    sources: the page and record accessors (page0page, page0cur), the buffer
    pool (buf0buf), the tree cursor (btr0cur, btr0btr), the dictionary and
    the comparator (dict0dict, rem0cmp) and the mini-transaction (mtr0mtr).
    [world] is everything behind the pointers: page frames, block
    descriptors and the memo of the mini-transaction in use.  Functions that
    only read take the world; functions that change it return the new one.
    [UNIV_BTR_DEBUG] says whether the build defines the macro of that name
    (univ.i is not part of the sources): it guards two [ut_a] of
    [btr_pcur_move_to_next_page]. *)
Class BtrEnv : Type := {
  world : Type;
  dtuple_t : Type;
  UNIV_BTR_DEBUG : bool;
  page_align : Z -> Z;
  page_offset : Z -> Z;
  page_rec_is_supremum_low : Z -> bool;
  page_rec_is_infimum_low : Z -> bool;
  page_get_infimum_rec : Z -> Z;
  page_get_supremum_rec : Z -> Z;
  page_get_n_recs : world -> Z -> Z;
  page_is_comp : world -> Z -> Z;
  btr_page_get_next : world -> Z -> Z;
  btr_page_get_prev : world -> Z -> Z;
  page_rec_get_prev : world -> Z -> Z;
  page_rec_get_next : world -> Z -> Z;
  buf_block_get_frame : world -> Z -> Z;
  buf_block_get_space : world -> Z -> Z;
  buf_block_get_page_no : world -> Z -> Z;
  buf_block_get_modify_clock : world -> Z -> Z;
  dict_index_copy_rec_order_prefix :
    world -> Z -> Z -> Z -> Z -> rec_order_prefix;
  dict_index_build_data_tuple : Z -> list Z -> Z -> dtuple_t;
  cmp_dtuple_rec : world -> Z -> dtuple_t -> Z -> Z;
  buf_page_optimistic_get :
    btr_latch_mode -> Z -> Z -> world -> bool * world;
  btr_cur_search_to_nth_level :
    Z -> Z -> dtuple_t -> ib_srch_mode_t -> btr_latch_mode -> btr_cur_t ->
    Z -> world -> btr_cur_t * world;
  btr_cur_open_at_index_side :
    bool -> Z -> btr_latch_mode -> btr_cur_t -> world -> btr_cur_t * world;
  btr_block_get : Z -> Z -> btr_latch_mode -> world -> Z * world;
  btr_leaf_page_release : Z -> btr_latch_mode -> world -> world;
  buf_block_set_check_index_page_at_flush : Z -> world -> world;
  mtr_commit : world -> world;
  mtr_start : world -> world;
  btr_pcur_move_to_next_user_rec :
    btr_pcur_t -> world -> (bool * btr_pcur_t) * world
}.

(** The calls that change the world, as they are logged. *)
Inductive call : Type :=
  | Call_buf_page_optimistic_get
      (latch : btr_latch_mode) (blk clock : Z) (success : bool)
  | Call_btr_cur_search_to_nth_level
      (index : Z) (mode : ib_srch_mode_t) (latch : btr_latch_mode)
  | Call_btr_cur_open_at_index_side
      (from_left : bool) (index : Z) (latch : btr_latch_mode)
  | Call_btr_block_get (space page_no : Z) (latch : btr_latch_mode)
  | Call_btr_leaf_page_release (blk : Z) (latch : btr_latch_mode)
  | Call_mtr_commit
  | Call_mtr_start
  | Call_btr_pcur_move_to_next_user_rec
  | Call_row_search_on_row_ref (latch : btr_latch_mode)
  | Call_commit_specify_mtr.

Definition is_tree_search (c : call) : bool :=
  match c with
  | Call_btr_cur_search_to_nth_level _ _ _ => true
  | Call_btr_cur_open_at_index_side _ _ _ => true
  | Call_row_search_on_row_ref _ => true
  | _ => false
  end.

(** The state a call runs in: the world and the log of the world-changing
    calls made so far, oldest first. *)
Record machine (W : Type) : Type := mk_machine {
  mem : W;
  calls : list call
}.

Arguments mk_machine {W} _ _.
Arguments mem {W} _.
Arguments calls {W} _.

(** A call either returns a value or dies in an assertion; both leave a
    machine state behind. *)
Inductive result (W A : Type) : Type :=
  | Ok (a : A) (m : machine W)
  | Abort (m : machine W).

Arguments Ok {W A} a m.
Arguments Abort {W A} m.

Section Monad.

Context {W : Type}.

Definition M (A : Type) : Type := machine W -> result W A.

Definition ret {A : Type} (a : A) : M A := fun m => Ok a m.

Definition bind {A B : Type} (c : M A) (k : A -> M B) : M B :=
  fun m =>
    match c m with
    | Ok a m' => k a m'
    | Abort m' => Abort m'
    end.

Definition ut_error {A : Type} : M A := fun m => Abort m.

Definition ut_a (b : bool) : M unit :=
  if b then ret tt else ut_error.

Definition read {A : Type} (f : W -> A) : M A :=
  fun m => Ok (f (mem m)) m.

Definition act {A : Type} (f : W -> A * W) (log : A -> call) : M A :=
  fun m =>
    let '(a, w) := f (mem m) in
    Ok a (mk_machine w (calls m ++ [log a])).

(** A change of the world that is not a call of its own in the log (a
    store into a block descriptor). *)
Definition modify (f : W -> W) : M unit :=
  fun m => Ok tt (mk_machine (f (mem m)) (calls m)).

End Monad.

Arguments M : clear implicits.

Notation "x <- c1 ;; c2" := (bind c1 (fun x => c2))
  (at level 100, c1 at next level, right associativity).
Notation "c1 ;; c2" := (bind c1 (fun _ => c2))
  (at level 100, right associativity).

(** The machine a run ends in, the calls it has added to the log, and
    the value it returns. *)

Definition returned {W A : Type} (r : result W A) : option A :=
  match r with
  | Ok a _ => Some a
  | Abort _ => None
  end.

Definition final_machine {W A : Type} (r : result W A) : machine W :=
  match r with
  | Ok _ m => m
  | Abort m => m
  end.

(** The world-changing calls a run started in [m] has added to the log. *)
Definition new_calls {W A : Type} (m : machine W) (r : result W A)
  : list call :=
  drop (length (calls m)) (calls (final_machine r)).

Definition log_call {W : Type} (m : machine W) (w : W) (c : call)
  : machine W :=
  mk_machine w (calls m ++ [c]).

Section PersistentCursorCode.

Context {env : BtrEnv}.

(** Modelled from the spec: btr0pcur.ic, btr0cur.ic and page0cur.ic are
    missing; these accessors are the field reads their names say. *)
Definition btr_pcur_get_btr_cur (cursor : btr_pcur_t) : btr_cur_t :=
  btr_cur cursor.

Definition btr_cur_get_index (c : btr_cur_t) : Z := m_index c.

Definition btr_pcur_get_page_cur (cursor : btr_pcur_t) : page_cur_t :=
  m_page_cur (btr_cur cursor).

Definition page_cur_get_rec (cur : page_cur_t) : Z := rec cur.

Definition btr_pcur_get_block (cursor : btr_pcur_t) : Z :=
  block (btr_pcur_get_page_cur cursor).

Definition btr_pcur_get_rec (cursor : btr_pcur_t) : Z :=
  rec (btr_pcur_get_page_cur cursor).

Definition btr_pcur_get_page (cursor : btr_pcur_t) : Z :=
  page_align (btr_pcur_get_rec cursor).

(** Modelled from the spec: the sentinel tests of btr0pcur.ic (missing); a
    cursor is after the last record of its page when it sits on the
    supremum, before the first when on the infimum, and on a user record
    otherwise. *)
Definition btr_pcur_is_after_last_on_page (cursor : btr_pcur_t) : bool :=
  page_rec_is_supremum_low (page_offset (btr_pcur_get_rec cursor)).

Definition btr_pcur_is_before_first_on_page (cursor : btr_pcur_t) : bool :=
  page_rec_is_infimum_low (page_offset (btr_pcur_get_rec cursor)).

Definition btr_pcur_is_on_user_rec (cursor : btr_pcur_t) : bool :=
  if btr_pcur_is_before_first_on_page cursor
     || btr_pcur_is_after_last_on_page cursor
  then false else true.

(** Modelled from the spec: [page_cur_set_before_first] and
    [page_cur_set_after_last] (page0cur.ic, missing) put a page cursor on
    the infimum, respectively the supremum, of a block's frame. *)
Definition page_cur_set_before_first (blk : Z) : M world page_cur_t :=
  frame <- read (fun w => buf_block_get_frame w blk) ;;
  ret {| rec := page_get_infimum_rec frame; block := blk |}.

Definition page_cur_set_after_last (blk : Z) : M world page_cur_t :=
  frame <- read (fun w => buf_block_get_frame w blk) ;;
  ret {| rec := page_get_supremum_rec frame; block := blk |}.

(** Modelled from the spec: [btr_pcur_init] (btr0pcur.ic, missing) clears
    the stored position of a cursor. *)
Definition btr_pcur_init (pcur : btr_pcur_t) : btr_pcur_t :=
  mk_btr_pcur (btr_cur pcur) (latch_mode pcur) BTR_PCUR_OLD_NOT_STORED None
    (old_n_fields pcur) (rel_pos pcur) (block_when_stored pcur)
    (modify_clock pcur) (pos_state pcur) (search_mode pcur)
    (trx_if_known pcur) 0 (buf_size pcur).

(** Modelled from the spec: [btr_pcur_open_with_no_init_func] (btr0pcur.ic,
    missing) records the latch and search modes, searches the leaf level
    with the tree cursor and leaves the cursor positioned and latched, with
    no stored position. *)
Definition btr_pcur_open_with_no_init_func
    (index : Z) (tuple : dtuple_t) (mode : ib_srch_mode_t)
    (latch : btr_latch_mode) (cursor : btr_pcur_t) (has_search_latch : Z)
  : M world btr_pcur_t :=
  let cursor := set_latch_mode cursor latch in
  let cursor := set_search_mode cursor mode in
  btr_cursor <-
    act (btr_cur_search_to_nth_level index 0 tuple mode latch
           (btr_pcur_get_btr_cur cursor) has_search_latch)
        (fun _ => Call_btr_cur_search_to_nth_level index mode latch) ;;
  let cursor := set_btr_cur cursor btr_cursor in
  let cursor := set_pos_state cursor BTR_PCUR_IS_POSITIONED in
  let cursor := set_old_stored cursor BTR_PCUR_OLD_NOT_STORED in
  ret (set_trx_if_known cursor 0).

(** Modelled from the spec: [btr_pcur_open_func] (btr0pcur.ic, missing) is
    the same on a cursor it initialises first. *)
Definition btr_pcur_open_func
    (index : Z) (tuple : dtuple_t) (mode : ib_srch_mode_t)
    (latch : btr_latch_mode) (cursor : btr_pcur_t) : M world btr_pcur_t :=
  let cursor := btr_pcur_init cursor in
  let cursor := set_latch_mode cursor latch in
  let cursor := set_search_mode cursor mode in
  btr_cursor <-
    act (btr_cur_search_to_nth_level index 0 tuple mode latch
           (btr_pcur_get_btr_cur cursor) 0)
        (fun _ => Call_btr_cur_search_to_nth_level index mode latch) ;;
  let cursor := set_btr_cur cursor btr_cursor in
  let cursor := set_pos_state cursor BTR_PCUR_IS_POSITIONED in
  ret (set_trx_if_known cursor 0).

(** [btr_pcur_store_position] (lines 71-138). *)
Definition btr_pcur_store_position (cursor : btr_pcur_t)
  : M world btr_pcur_t :=
  ut_a (bool_decide (pos_state cursor = BTR_PCUR_IS_POSITIONED)) ;;
  let block := btr_pcur_get_block cursor in
  let index := btr_cur_get_index (btr_pcur_get_btr_cur cursor) in
  let page_cursor := btr_pcur_get_page_cur cursor in
  let rec := page_cur_get_rec page_cursor in
  let page := page_align rec in
  let offs := page_offset rec in
  ut_a (negb (bool_decide (latch_mode cursor = BTR_NO_LATCHES))) ;;
  n_recs <- read (fun w => page_get_n_recs w page) ;;
  if n_recs =? 0 then
    next <- read (fun w => btr_page_get_next w page) ;;
    ut_a (next =? FIL_NULL) ;;
    prev <- read (fun w => btr_page_get_prev w page) ;;
    ut_a (prev =? FIL_NULL) ;;
    let cursor := set_old_stored cursor BTR_PCUR_OLD_STORED in
    if page_rec_is_supremum_low offs
    then ret (set_rel_pos cursor BTR_PCUR_AFTER_LAST_IN_TREE)
    else ret (set_rel_pos cursor BTR_PCUR_BEFORE_FIRST_IN_TREE)
  else
    anchor <-
      (if page_rec_is_supremum_low offs then
         r <- read (fun w => page_rec_get_prev w rec) ;;
         ret (r, set_rel_pos cursor BTR_PCUR_AFTER)
       else if page_rec_is_infimum_low offs then
         r <- read (fun w => page_rec_get_next w rec) ;;
         ret (r, set_rel_pos cursor BTR_PCUR_BEFORE)
       else
         ret (rec, set_rel_pos cursor BTR_PCUR_ON)) ;;
    let rec := fst anchor in
    let cursor := snd anchor in
    let cursor := set_old_stored cursor BTR_PCUR_OLD_STORED in
    copy <- read (fun w =>
              dict_index_copy_rec_order_prefix w index rec
                (old_rec_buf cursor) (buf_size cursor)) ;;
    let cursor := set_old_rec cursor copy in
    let cursor := set_block_when_stored cursor block in
    clock <- read (fun w => buf_block_get_modify_clock w block) ;;
    ret (set_modify_clock cursor clock).

(** [btr_pcur_restore_position_func], lines 259-306: the cursor is opened
    anew from the stored prefix [old_rec_bytes]. *)
Definition btr_pcur_restore_position_open_anew
    (latch : btr_latch_mode) (cursor : btr_pcur_t) (old_rec_bytes : list Z)
  : M world (bool * btr_pcur_t) :=
  let index := btr_cur_get_index (btr_pcur_get_btr_cur cursor) in
  let tuple :=
    dict_index_build_data_tuple index old_rec_bytes (old_n_fields cursor) in
  let old_mode := search_mode cursor in
  let mode :=
    if decide (rel_pos cursor = BTR_PCUR_ON) then PAGE_CUR_LE
    else if decide (rel_pos cursor = BTR_PCUR_AFTER) then PAGE_CUR_G
    else PAGE_CUR_L in
  cursor <- btr_pcur_open_with_no_init_func index tuple mode latch cursor 0 ;;
  let cursor := set_search_mode cursor old_mode in
  same <- read (fun w =>
            bool_decide (rel_pos cursor = BTR_PCUR_ON)
            && btr_pcur_is_on_user_rec cursor
            && (0 =? cmp_dtuple_rec w index tuple
                       (btr_pcur_get_rec cursor))) ;;
  if same then
    let cursor := set_block_when_stored cursor (btr_pcur_get_block cursor) in
    clock <- read (fun w =>
               buf_block_get_modify_clock w (block_when_stored cursor)) ;;
    let cursor := set_modify_clock cursor clock in
    let cursor := set_old_stored cursor BTR_PCUR_OLD_STORED in
    ret (true, cursor)
  else
    cursor <- btr_pcur_store_position cursor ;;
    ret (false, cursor).

(** [btr_pcur_restore_position_func] (lines 181-306).  What the entry
    check prints before it dies is not modelled. *)
Definition btr_pcur_restore_position_func
    (latch : btr_latch_mode) (cursor : btr_pcur_t)
  : M world (bool * btr_pcur_t) :=
  let index := btr_cur_get_index (btr_pcur_get_btr_cur cursor) in
  (if negb (bool_decide (old_stored cursor = BTR_PCUR_OLD_STORED))
      || (negb (bool_decide (pos_state cursor = BTR_PCUR_WAS_POSITIONED))
          && negb (bool_decide (pos_state cursor = BTR_PCUR_IS_POSITIONED)))
   then ut_error else ret tt) ;;
  if bool_decide (rel_pos cursor = BTR_PCUR_AFTER_LAST_IN_TREE)
     || bool_decide (rel_pos cursor = BTR_PCUR_BEFORE_FIRST_IN_TREE)
  then
    let from_left :=
      bool_decide (rel_pos cursor = BTR_PCUR_BEFORE_FIRST_IN_TREE) in
    btr_cursor <-
      act (btr_cur_open_at_index_side from_left index latch
             (btr_pcur_get_btr_cur cursor))
          (fun _ => Call_btr_cur_open_at_index_side from_left index latch) ;;
    let cursor := set_btr_cur cursor btr_cursor in
    let cursor := set_block_when_stored cursor (btr_pcur_get_block cursor) in
    ret (false, cursor)
  else
    match old_rec cursor with
    | None => ut_error
    | Some old_rec_bytes =>
        ut_a (negb (old_n_fields cursor =? 0)) ;;
        if bool_decide (latch = BTR_SEARCH_LEAF)
           || bool_decide (latch = BTR_MODIFY_LEAF)
        then
          got <-
            act (buf_page_optimistic_get latch (block_when_stored cursor)
                   (modify_clock cursor))
                (Call_buf_page_optimistic_get latch
                   (block_when_stored cursor) (modify_clock cursor)) ;;
          if got then
            let cursor := set_pos_state cursor BTR_PCUR_IS_POSITIONED in
            if bool_decide (rel_pos cursor = BTR_PCUR_ON) then
              let cursor := set_latch_mode cursor latch in
              ret (true, cursor)
            else
              ret (false, cursor)
          else
            btr_pcur_restore_position_open_anew latch cursor old_rec_bytes
        else
          btr_pcur_restore_position_open_anew latch cursor old_rec_bytes
    end.

(** [btr_pcur_release_leaf] (lines 314-331). *)
Definition btr_pcur_release_leaf (cursor : btr_pcur_t)
  : M world btr_pcur_t :=
  ut_a (bool_decide (pos_state cursor = BTR_PCUR_IS_POSITIONED)) ;;
  let block := btr_pcur_get_block cursor in
  act (fun w => (tt, btr_leaf_page_release block (latch_mode cursor) w))
      (fun _ => Call_btr_leaf_page_release block (latch_mode cursor)) ;;
  let cursor := set_latch_mode cursor BTR_NO_LATCHES in
  ret (set_pos_state cursor BTR_PCUR_WAS_POSITIONED).

(** [btr_pcur_move_to_next_page] (lines 333-365).  The two [ut_a] of
    lines 355-356 are made when the build defines [UNIV_BTR_DEBUG].
    [page_check_dir] only reports a corrupt directory and changes
    nothing. *)
Definition btr_pcur_move_to_next_page (cursor : btr_pcur_t)
  : M world btr_pcur_t :=
  ut_a (bool_decide (pos_state cursor = BTR_PCUR_IS_POSITIONED)) ;;
  let cursor := set_old_stored cursor BTR_PCUR_OLD_NOT_STORED in
  let page := btr_pcur_get_page cursor in
  next_page_no <- read (fun w => btr_page_get_next w page) ;;
  space <- read (fun w => buf_block_get_space w (btr_pcur_get_block cursor)) ;;
  next_block <-
    act (btr_block_get space next_page_no (latch_mode cursor))
        (fun _ => Call_btr_block_get space next_page_no (latch_mode cursor)) ;;
  next_page <- read (fun w => buf_block_get_frame w next_block) ;;
  (if UNIV_BTR_DEBUG then
     same_comp <-
       read (fun w => page_is_comp w next_page =? page_is_comp w page) ;;
     ut_a same_comp ;;
     linked <-
       read (fun w =>
               btr_page_get_prev w next_page
               =? buf_block_get_page_no w (btr_pcur_get_block cursor)) ;;
     ut_a linked
   else ret tt) ;;
  modify (buf_block_set_check_index_page_at_flush next_block) ;;
  act (fun w => (tt, btr_leaf_page_release (btr_pcur_get_block cursor)
                       (latch_mode cursor) w))
      (fun _ => Call_btr_leaf_page_release (btr_pcur_get_block cursor)
                  (latch_mode cursor)) ;;
  cur <- page_cur_set_before_first next_block ;;
  ret (set_page_cur cursor cur).

(** [btr_pcur_move_backward_from_page] (lines 367-427). *)
Definition btr_pcur_move_backward_from_page (cursor : btr_pcur_t)
  : M world btr_pcur_t :=
  ut_a (bool_decide (pos_state cursor = BTR_PCUR_IS_POSITIONED)) ;;
  let latch := latch_mode cursor in
  latch_mode2 <-
    (if bool_decide (latch = BTR_SEARCH_LEAF) then ret BTR_SEARCH_PREV
     else if bool_decide (latch = BTR_MODIFY_LEAF) then ret BTR_MODIFY_PREV
     else ut_error) ;;
  cursor <- btr_pcur_store_position cursor ;;
  act (fun w => (tt, mtr_commit w)) (fun _ => Call_mtr_commit) ;;
  act (fun w => (tt, mtr_start w)) (fun _ => Call_mtr_start) ;;
  restored <- btr_pcur_restore_position_func latch_mode2 cursor ;;
  let cursor := snd restored in
  let page := btr_pcur_get_page cursor in
  prev_page_no <- read (fun w => btr_page_get_prev w page) ;;
  cursor <-
    (if prev_page_no =? FIL_NULL then
       ret cursor
     else if btr_pcur_is_before_first_on_page cursor then
       let prev_block := left_block (btr_pcur_get_btr_cur cursor) in
       act (fun w => (tt, btr_leaf_page_release
                            (btr_pcur_get_block cursor) latch w))
           (fun _ => Call_btr_leaf_page_release
                       (btr_pcur_get_block cursor) latch) ;;
       cur <- page_cur_set_after_last prev_block ;;
       ret (set_page_cur cursor cur)
     else
       let prev_block := left_block (btr_pcur_get_btr_cur cursor) in
       act (fun w => (tt, btr_leaf_page_release prev_block latch w))
           (fun _ => Call_btr_leaf_page_release prev_block latch) ;;
       ret cursor) ;;
  let cursor := set_latch_mode cursor latch in
  ret (set_old_stored cursor BTR_PCUR_OLD_NOT_STORED).

(** [btr_pcur_open_on_user_rec_func] (lines 436-464). *)
Definition btr_pcur_open_on_user_rec_func
    (index : Z) (tuple : dtuple_t) (mode : ib_srch_mode_t)
    (latch : btr_latch_mode) (cursor : btr_pcur_t) : M world btr_pcur_t :=
  cursor <- btr_pcur_open_func index tuple mode latch cursor ;;
  if bool_decide (mode = PAGE_CUR_GE) || bool_decide (mode = PAGE_CUR_G) then
    if btr_pcur_is_after_last_on_page cursor then
      moved <- act (btr_pcur_move_to_next_user_rec cursor)
                   (fun _ => Call_btr_pcur_move_to_next_user_rec) ;;
      ret (snd moved)
    else
      ret cursor
  else
    ut_error.

(** **** Vocabulary of the properties *)

(** The anchor [btr_pcur_store_position] copies and the relative position
    it records on a page that has user records. *)
Definition store_anchor (w : world) (r : Z) : Z :=
  if page_rec_is_supremum_low (page_offset r) then page_rec_get_prev w r
  else if page_rec_is_infimum_low (page_offset r) then page_rec_get_next w r
  else r.

Definition store_rel_pos (r : Z) : btr_pcur_pos_t :=
  if page_rec_is_supremum_low (page_offset r) then BTR_PCUR_AFTER
  else if page_rec_is_infimum_low (page_offset r) then BTR_PCUR_BEFORE
  else BTR_PCUR_ON.

(** The cursor [btr_pcur_store_position] leaves behind, on an empty page
    and on a page with user records. *)
Definition stored_on_empty (cursor : btr_pcur_t) : btr_pcur_t :=
  mk_btr_pcur (btr_cur cursor) (latch_mode cursor) BTR_PCUR_OLD_STORED
    (old_rec cursor) (old_n_fields cursor)
    (if page_rec_is_supremum_low (page_offset (btr_pcur_get_rec cursor))
     then BTR_PCUR_AFTER_LAST_IN_TREE else BTR_PCUR_BEFORE_FIRST_IN_TREE)
    (block_when_stored cursor) (modify_clock cursor) (pos_state cursor)
    (search_mode cursor) (trx_if_known cursor) (old_rec_buf cursor)
    (buf_size cursor).

Definition stored_on_records (w : world) (cursor : btr_pcur_t) : btr_pcur_t :=
  let r := btr_pcur_get_rec cursor in
  let copy :=
    dict_index_copy_rec_order_prefix w (m_index (btr_cur cursor))
      (store_anchor w r) (old_rec_buf cursor) (buf_size cursor) in
  mk_btr_pcur (btr_cur cursor) (latch_mode cursor) BTR_PCUR_OLD_STORED
    (Some (prefix_rec copy)) (prefix_n_fields copy) (store_rel_pos r)
    (btr_pcur_get_block cursor)
    (buf_block_get_modify_clock w (btr_pcur_get_block cursor))
    (pos_state cursor) (search_mode cursor) (trx_if_known cursor)
    (prefix_buf copy) (prefix_buf_size copy).

(** The assertions of [btr_pcur_store_position]. *)
Definition store_position_asserts (w : world) (cursor : btr_pcur_t) : bool :=
  let page := page_align (btr_pcur_get_rec cursor) in
  bool_decide (pos_state cursor = BTR_PCUR_IS_POSITIONED)
  && negb (bool_decide (latch_mode cursor = BTR_NO_LATCHES))
  && (negb (page_get_n_recs w page =? 0)
      || ((btr_page_get_next w page =? FIL_NULL)
          && (btr_page_get_prev w page =? FIL_NULL))).

(** The search mode of the re-open, by the stored relative position. *)
Definition reopen_mode (cursor : btr_pcur_t) : ib_srch_mode_t :=
  match rel_pos cursor with
  | BTR_PCUR_ON => PAGE_CUR_LE
  | BTR_PCUR_AFTER => PAGE_CUR_G
  | _ => PAGE_CUR_L
  end.

(** The cursor after the re-open under [latch] has landed on [landing] and
    the caller's search mode has been put back. *)
Definition reopened (cursor : btr_pcur_t) (latch : btr_latch_mode)
    (landing : btr_cur_t) : btr_pcur_t :=
  mk_btr_pcur landing latch BTR_PCUR_OLD_NOT_STORED (old_rec cursor)
    (old_n_fields cursor) (rel_pos cursor) (block_when_stored cursor)
    (modify_clock cursor) BTR_PCUR_IS_POSITIONED (search_mode cursor) 0
    (old_rec_buf cursor) (buf_size cursor).

(** The run of [btr_pcur_restore_position_func] opens the cursor anew. *)
Definition reopens_cursor (latch : btr_latch_mode) (cursor : btr_pcur_t)
    (m : machine world) : Prop :=
  exists index mode,
    In (Call_btr_cur_search_to_nth_level index mode latch)
       (new_calls m (btr_pcur_restore_position_func latch cursor m)).

(** The run makes the optimistic reacquisition and it succeeds. *)
Definition optimistic_get_succeeds (latch : btr_latch_mode)
    (cursor : btr_pcur_t) (m : machine world) : Prop :=
  In (Call_buf_page_optimistic_get latch (block_when_stored cursor)
        (modify_clock cursor) true)
     (new_calls m (btr_pcur_restore_position_func latch cursor m)).

Definition is_leaf_latch (latch : btr_latch_mode) : bool :=
  bool_decide (latch = BTR_SEARCH_LEAF)
  || bool_decide (latch = BTR_MODIFY_LEAF).

Definition is_tree_edge (p : btr_pcur_pos_t) : bool :=
  bool_decide (p = BTR_PCUR_AFTER_LAST_IN_TREE)
  || bool_decide (p = BTR_PCUR_BEFORE_FIRST_IN_TREE).

(** The assertions [btr_pcur_restore_position_func] makes on its cursor:
    the check at its entry and, past the tree-edge case, the two [ut_a]. *)
Definition restore_entry_check (cursor : btr_pcur_t) : Prop :=
  old_stored cursor = BTR_PCUR_OLD_STORED /\
  (pos_state cursor = BTR_PCUR_WAS_POSITIONED \/
   pos_state cursor = BTR_PCUR_IS_POSITIONED).

Definition restore_copy_check (cursor : btr_pcur_t) : Prop :=
  old_rec cursor <> None /\ old_n_fields cursor <> 0.

(** The four ways through [btr_pcur_restore_position_func]. *)
Inductive restore_path (latch : btr_latch_mode) (cursor : btr_pcur_t)
    (m : machine world) : Prop :=
  | Restore_asserts :
      ~ restore_entry_check cursor \/
      (is_tree_edge (rel_pos cursor) = false /\ ~ restore_copy_check cursor) ->
      btr_pcur_restore_position_func latch cursor m = Abort m ->
      restore_path latch cursor m
  | Restore_tree_edge (landing : btr_cur_t) (w : world) :
      restore_entry_check cursor ->
      is_tree_edge (rel_pos cursor) = true ->
      btr_pcur_restore_position_func latch cursor m =
        Ok (false,
            set_block_when_stored (set_btr_cur cursor landing)
              (block (m_page_cur landing)))
           (log_call m w
              (Call_btr_cur_open_at_index_side
                 (bool_decide (rel_pos cursor = BTR_PCUR_BEFORE_FIRST_IN_TREE))
                 (m_index (btr_cur cursor)) latch)) ->
      restore_path latch cursor m
  | Restore_optimistic :
      restore_entry_check cursor ->
      is_tree_edge (rel_pos cursor) = false ->
      restore_copy_check cursor ->
      is_leaf_latch latch = true ->
      fst (buf_page_optimistic_get latch (block_when_stored cursor)
             (modify_clock cursor) (mem m)) = true ->
      btr_pcur_restore_position_func latch cursor m =
        Ok (bool_decide (rel_pos cursor = BTR_PCUR_ON),
            if bool_decide (rel_pos cursor = BTR_PCUR_ON)
            then set_latch_mode
                   (set_pos_state cursor BTR_PCUR_IS_POSITIONED) latch
            else set_pos_state cursor BTR_PCUR_IS_POSITIONED)
           (log_call m
              (snd (buf_page_optimistic_get latch (block_when_stored cursor)
                      (modify_clock cursor) (mem m)))
              (Call_buf_page_optimistic_get latch (block_when_stored cursor)
                 (modify_clock cursor) true)) ->
      restore_path latch cursor m
  | Restore_open_anew (bytes : list Z) (m0 : machine world) :
      restore_entry_check cursor ->
      is_tree_edge (rel_pos cursor) = false ->
      restore_copy_check cursor ->
      old_rec cursor = Some bytes ->
      (is_leaf_latch latch = false /\ m0 = m \/
       is_leaf_latch latch = true /\
       fst (buf_page_optimistic_get latch (block_when_stored cursor)
              (modify_clock cursor) (mem m)) = false /\
       m0 = log_call m
              (snd (buf_page_optimistic_get latch (block_when_stored cursor)
                      (modify_clock cursor) (mem m)))
              (Call_buf_page_optimistic_get latch (block_when_stored cursor)
                 (modify_clock cursor) false)) ->
      btr_pcur_restore_position_func latch cursor m =
        btr_pcur_restore_position_open_anew latch cursor bytes m0 ->
      restore_path latch cursor m.

(** [btr_pcur_store_position] immediately followed by
    [btr_pcur_restore_position_func], nothing in between. *)
Definition store_then_restore (latch : btr_latch_mode) (cursor : btr_pcur_t)
  : M world (bool * btr_pcur_t) :=
  c <- btr_pcur_store_position cursor ;;
  btr_pcur_restore_position_func latch c.

(** The latch mode [btr_pcur_move_backward_from_page] restores under. *)
Definition backward_latch (latch : btr_latch_mode) : btr_latch_mode :=
  if bool_decide (latch = BTR_SEARCH_LEAF) then BTR_SEARCH_PREV
  else BTR_MODIFY_PREV.

Definition after_commit_and_start (m : machine world) : machine world :=
  mk_machine (mtr_start (mtr_commit (mem m)))
    (calls m ++ [Call_mtr_commit] ++ [Call_mtr_start]).

(** The tree search a restore under a latch mode other than the two leaf
    modes makes: at the side of the index for a position stored in an empty
    tree, from the stored prefix otherwise. *)
Definition restore_search (latch : btr_latch_mode) (cursor : btr_pcur_t)
  : call :=
  if is_tree_edge (rel_pos cursor) then
    Call_btr_cur_open_at_index_side
      (bool_decide (rel_pos cursor = BTR_PCUR_BEFORE_FIRST_IN_TREE))
      (m_index (btr_cur cursor)) latch
  else
    Call_btr_cur_search_to_nth_level (m_index (btr_cur cursor))
      (reopen_mode cursor) latch.

(** What the two [ut_a] of [btr_pcur_move_to_next_page] ask of the block
    [next_block] fetched for [cursor], in the world [w] the fetch leaves:
    nothing in a build without [UNIV_BTR_DEBUG]; otherwise the page-format
    flag of the current page, and the current block as predecessor. *)
Definition next_page_asserts (w : world) (cursor : btr_pcur_t)
    (next_block : Z) : bool :=
  let next_page := buf_block_get_frame w next_block in
  negb UNIV_BTR_DEBUG
  || ((page_is_comp w next_page
       =? page_is_comp w (btr_pcur_get_page cursor))
      && (btr_page_get_prev w next_page
          =? buf_block_get_page_no w (btr_pcur_get_block cursor))).

(** The cursor [btr_pcur_release_leaf] leaves behind. *)
Definition released (cursor : btr_pcur_t) : btr_pcur_t :=
  set_pos_state (set_latch_mode cursor BTR_NO_LATCHES) BTR_PCUR_WAS_POSITIONED.

(** The machine after the leaf of [cursor] has been released. *)
Definition after_release (cursor : btr_pcur_t) (m : machine world)
  : machine world :=
  log_call m
    (btr_leaf_page_release (btr_pcur_get_block cursor) (latch_mode cursor)
       (mem m))
    (Call_btr_leaf_page_release (btr_pcur_get_block cursor)
       (latch_mode cursor)).

(** [btr_pcur_store_position], [btr_pcur_release_leaf] and
    [btr_pcur_restore_position_func] in a row. *)
Definition store_release_restore (latch : btr_latch_mode)
    (cursor : btr_pcur_t) : M world (bool * btr_pcur_t) :=
  c <- btr_pcur_store_position cursor ;;
  c <- btr_pcur_release_leaf c ;;
  btr_pcur_restore_position_func latch c.

End PersistentCursorCode.

(** *** 4. A concrete world to run the cursor in *)

(** Modelled from the spec: the collaborators of section 6 over a tree
    that is a chain of leaf pages.  A page is its user records in key order
    (each a list of field values), its sibling page numbers and its
    modify-clock; page [n] lives in the frame at address [(n+1) * 16384] and
    in the block [n+1]; the infimum is at offset 99 of the frame, the
    supremum at 112 and the [i]-th user record at [128 + 32*i].  The index
    orders records by their first field.  Every page is in the compact
    format, and the build defines [UNIV_BTR_DEBUG]. *)
Record toy_page : Type := mk_toy_page {
  tp_recs : list (list Z);
  tp_prev : Z;
  tp_next : Z;
  tp_modify_clock : Z;
  tp_check_index_page_at_flush : bool
}.

Record toy_world : Type := mk_toy_world {
  tw_pages : list toy_page;
  tw_memo : list (Z * btr_latch_mode)
}.

Definition TOY_PAGE_SIZE : Z := 16384.
Definition TOY_INFIMUM : Z := 99.
Definition TOY_SUPREMUM : Z := 112.
Definition TOY_N_UNIQ : nat := 1.

Inductive toy_slot : Type :=
  | SlotInfimum | SlotUser (i : nat) | SlotSupremum.

Definition toy_slot_offs (s : toy_slot) : Z :=
  match s with
  | SlotInfimum => TOY_INFIMUM
  | SlotSupremum => TOY_SUPREMUM
  | SlotUser i => 128 + 32 * Z.of_nat i
  end.

Definition toy_offs_slot (offs : Z) : toy_slot :=
  if offs =? TOY_INFIMUM then SlotInfimum
  else if offs =? TOY_SUPREMUM then SlotSupremum
  else SlotUser (Z.to_nat ((offs - 128) / 32)).

Definition toy_frame (page_no : nat) : Z :=
  (Z.of_nat page_no + 1) * TOY_PAGE_SIZE.

Definition toy_block (page_no : nat) : Z := Z.of_nat page_no + 1.

Definition toy_rec_addr (page_no : nat) (s : toy_slot) : Z :=
  toy_frame page_no + toy_slot_offs s.

Definition toy_page_align (p : Z) : Z := p - p mod TOY_PAGE_SIZE.
Definition toy_page_offset (p : Z) : Z := p mod TOY_PAGE_SIZE.

Definition toy_frame_no (frame : Z) : nat :=
  Z.to_nat (frame / TOY_PAGE_SIZE - 1).

Definition toy_block_no (blk : Z) : nat := Z.to_nat (blk - 1).

Definition toy_empty_page : toy_page :=
  mk_toy_page [] FIL_NULL FIL_NULL 0 false.

Definition toy_get_page (w : toy_world) (page_no : nat) : toy_page :=
  nth page_no (tw_pages w) toy_empty_page.

Definition toy_page_get_n_recs (w : toy_world) (frame : Z) : Z :=
  Z.of_nat (length (tp_recs (toy_get_page w (toy_frame_no frame)))).

Definition toy_page_rec_get_prev (w : toy_world) (r : Z) : Z :=
  let page_no := toy_frame_no (toy_page_align r) in
  let n := length (tp_recs (toy_get_page w page_no)) in
  match toy_offs_slot (toy_page_offset r) with
  | SlotInfimum => 0
  | SlotSupremum =>
      match n with
      | O => toy_rec_addr page_no SlotInfimum
      | S k => toy_rec_addr page_no (SlotUser k)
      end
  | SlotUser O => toy_rec_addr page_no SlotInfimum
  | SlotUser (S k) => toy_rec_addr page_no (SlotUser k)
  end.

Definition toy_page_rec_get_next (w : toy_world) (r : Z) : Z :=
  let page_no := toy_frame_no (toy_page_align r) in
  let n := length (tp_recs (toy_get_page w page_no)) in
  match toy_offs_slot (toy_page_offset r) with
  | SlotSupremum => 0
  | SlotInfimum =>
      match n with
      | O => toy_rec_addr page_no SlotSupremum
      | S _ => toy_rec_addr page_no (SlotUser 0)
      end
  | SlotUser i =>
      if Nat.ltb (S i) n then toy_rec_addr page_no (SlotUser (S i))
      else toy_rec_addr page_no SlotSupremum
  end.

Definition toy_rec_fields (w : toy_world) (r : Z) : list Z :=
  let page_no := toy_frame_no (toy_page_align r) in
  match toy_offs_slot (toy_page_offset r) with
  | SlotUser i => nth i (tp_recs (toy_get_page w page_no)) []
  | _ => []
  end.

Definition toy_copy_rec_order_prefix
    (w : toy_world) (index r buf size : Z) : rec_order_prefix :=
  let bytes := firstn TOY_N_UNIQ (toy_rec_fields w r) in
  let need := Z.of_nat (length bytes) in
  if (buf =? 0) || (size <? need)
  then mk_rec_order_prefix bytes (Z.of_nat TOY_N_UNIQ) 4096 need
  else mk_rec_order_prefix bytes (Z.of_nat TOY_N_UNIQ) buf size.

Definition toy_build_data_tuple (index : Z) (bytes : list Z) (n_fields : Z)
  : list Z :=
  firstn (Z.to_nat n_fields) bytes.

(** Field-wise comparison of a tuple with the leading fields of a record:
    negative, zero or positive as the tuple is less, equal or greater. *)
Fixpoint toy_cmp_fields (tuple fields : list Z) : Z :=
  match tuple, fields with
  | [], _ => 0
  | _ :: _, [] => 1
  | t :: tuple', f :: fields' =>
      if t <? f then -1
      else if f <? t then 1
      else toy_cmp_fields tuple' fields'
  end.

Definition toy_cmp_dtuple_rec (w : toy_world) (index : Z) (tuple : list Z)
    (r : Z) : Z :=
  toy_cmp_fields tuple (toy_rec_fields w r).

Definition toy_memo_push (w : toy_world) (blk : Z) (latch : btr_latch_mode)
  : toy_world :=
  mk_toy_world (tw_pages w) (tw_memo w ++ [(blk, latch)]).

(** The optimistic get succeeds when the block is a page of the pool and
    its modify-clock is the expected one; it then latches the block. *)
Definition toy_buf_page_optimistic_get
    (latch : btr_latch_mode) (blk clock : Z) (w : toy_world)
  : bool * toy_world :=
  if (0 <? blk) && Nat.ltb (toy_block_no blk) (length (tw_pages w))
     && (tp_modify_clock (toy_get_page w (toy_block_no blk)) =? clock)
  then (true, toy_memo_push w blk latch)
  else (false, w).

(** All user records of the tree in key order, with their places. *)
Definition toy_page_places (page_no : nat) (p : toy_page)
  : list (nat * nat * list Z) :=
  imap (fun i fields => (page_no, i, fields)) (tp_recs p).

Definition toy_places (w : toy_world) : list (nat * nat * list Z) :=
  concat (imap toy_page_places (tw_pages w)).

Definition toy_satisfies (mode : ib_srch_mode_t) (tuple fields : list Z)
  : bool :=
  let c := toy_cmp_fields tuple fields in
  match mode with
  | PAGE_CUR_G => c <? 0
  | PAGE_CUR_GE => c <=? 0
  | PAGE_CUR_L => 0 <? c
  | PAGE_CUR_LE => 0 <=? c
  | PAGE_CUR_UNSUPP => false
  end.

(** The landing of a search: the first record that satisfies a G or GE
    search, or the supremum of the last page; the last record that
    satisfies an L or LE search, or the infimum of the first page. *)
Definition toy_search (w : toy_world) (mode : ib_srch_mode_t)
    (tuple : list Z) : nat * toy_slot :=
  let hits :=
    filter (fun pl => Is_true (toy_satisfies mode tuple (snd pl)))
      (toy_places w) in
  match mode with
  | PAGE_CUR_G | PAGE_CUR_GE =>
      match hits with
      | (page_no, i, _) :: _ => (page_no, SlotUser i)
      | [] => (Nat.pred (length (tw_pages w)), SlotSupremum)
      end
  | _ =>
      match last hits with
      | Some (page_no, i, _) => (page_no, SlotUser i)
      | None => (O, SlotInfimum)
      end
  end.

Definition toy_left_block (w : toy_world) (page_no : nat) : Z :=
  let prev := tp_prev (toy_get_page w page_no) in
  if prev =? FIL_NULL then 0 else prev + 1.

Definition toy_btr_cur_search_to_nth_level
    (index level : Z) (tuple : list Z) (mode : ib_srch_mode_t)
    (latch : btr_latch_mode) (cur : btr_cur_t) (has_search_latch : Z)
    (w : toy_world) : btr_cur_t * toy_world :=
  let '(page_no, s) := toy_search w mode tuple in
  let with_prev :=
    bool_decide (latch = BTR_SEARCH_PREV)
    || bool_decide (latch = BTR_MODIFY_PREV) in
  let left := if with_prev then toy_left_block w page_no else left_block cur in
  let w1 := if with_prev && negb (left =? 0)
            then toy_memo_push w left latch else w in
  (mk_btr_cur index (mk_page_cur (toy_rec_addr page_no s) (toy_block page_no))
     left,
   toy_memo_push w1 (toy_block page_no) latch).

Definition toy_btr_cur_open_at_index_side
    (from_left : bool) (index : Z) (latch : btr_latch_mode) (cur : btr_cur_t)
    (w : toy_world) : btr_cur_t * toy_world :=
  let page_no := if from_left then O else Nat.pred (length (tw_pages w)) in
  let s := if from_left then SlotInfimum else SlotSupremum in
  (mk_btr_cur index (mk_page_cur (toy_rec_addr page_no s) (toy_block page_no))
     (left_block cur),
   toy_memo_push w (toy_block page_no) latch).

Definition toy_btr_block_get (space page_no : Z) (latch : btr_latch_mode)
    (w : toy_world) : Z * toy_world :=
  (page_no + 1, toy_memo_push w (page_no + 1) latch).

Fixpoint toy_memo_release (memo : list (Z * btr_latch_mode)) (blk : Z)
  : list (Z * btr_latch_mode) :=
  match memo with
  | [] => []
  | e :: memo' =>
      if fst e =? blk then memo' else e :: toy_memo_release memo' blk
  end.

Definition toy_btr_leaf_page_release (blk : Z) (latch : btr_latch_mode)
    (w : toy_world) : toy_world :=
  mk_toy_world (tw_pages w) (toy_memo_release (tw_memo w) blk).

Definition toy_set_check_index_page_at_flush (blk : Z) (w : toy_world)
  : toy_world :=
  let n := toy_block_no blk in
  let p := toy_get_page w n in
  mk_toy_world
    (<[n := mk_toy_page (tp_recs p) (tp_prev p) (tp_next p)
              (tp_modify_clock p) true]> (tw_pages w))
    (tw_memo w).

Definition toy_mtr_commit (w : toy_world) : toy_world :=
  mk_toy_world (tw_pages w) [].

Definition toy_mtr_start (w : toy_world) : toy_world :=
  mk_toy_world (tw_pages w) [].

(** The next user record after a place, in tree order. *)
Definition toy_after (page_no : nat) (s : toy_slot)
    (pl : nat * nat * list Z) : bool :=
  let '(p, i, _) := pl in
  Nat.ltb page_no p
  || (Nat.eqb page_no p
      && match s with
         | SlotInfimum => true
         | SlotUser j => Nat.ltb j i
         | SlotSupremum => false
         end).

Definition toy_move_to_next_user_rec (cursor : btr_pcur_t) (w : toy_world)
  : (bool * btr_pcur_t) * toy_world :=
  let r := rec (m_page_cur (btr_cur cursor)) in
  let page_no := toy_frame_no (toy_page_align r) in
  let s := toy_offs_slot (toy_page_offset r) in
  let cursor := set_old_stored cursor BTR_PCUR_OLD_NOT_STORED in
  match filter (fun pl => Is_true (toy_after page_no s pl)) (toy_places w) with
  | (p, i, _) :: _ =>
      let w1 :=
        if Nat.eqb p page_no then w
        else toy_memo_push
               (toy_btr_leaf_page_release (toy_block page_no)
                  (latch_mode cursor) w)
               (toy_block p) (latch_mode cursor) in
      ((true,
        set_page_cur cursor
          (mk_page_cur (toy_rec_addr p (SlotUser i)) (toy_block p))), w1)
  | [] =>
      let p := Nat.pred (length (tw_pages w)) in
      ((false,
        set_page_cur cursor
          (mk_page_cur (toy_rec_addr p SlotSupremum) (toy_block p))), w)
  end.

Definition toy_env : BtrEnv := {|
  world := toy_world;
  dtuple_t := list Z;
  UNIV_BTR_DEBUG := true;
  page_align := toy_page_align;
  page_offset := toy_page_offset;
  page_rec_is_supremum_low := fun offs => offs =? TOY_SUPREMUM;
  page_rec_is_infimum_low := fun offs => offs =? TOY_INFIMUM;
  page_get_infimum_rec := fun frame => frame + TOY_INFIMUM;
  page_get_supremum_rec := fun frame => frame + TOY_SUPREMUM;
  page_get_n_recs := toy_page_get_n_recs;
  page_is_comp := fun w frame => 32768;
  btr_page_get_next :=
    fun w frame => tp_next (toy_get_page w (toy_frame_no frame));
  btr_page_get_prev :=
    fun w frame => tp_prev (toy_get_page w (toy_frame_no frame));
  page_rec_get_prev := toy_page_rec_get_prev;
  page_rec_get_next := toy_page_rec_get_next;
  buf_block_get_frame := fun w blk => blk * TOY_PAGE_SIZE;
  buf_block_get_space := fun w blk => 0;
  buf_block_get_page_no := fun w blk => blk - 1;
  buf_block_get_modify_clock :=
    fun w blk => tp_modify_clock (toy_get_page w (toy_block_no blk));
  dict_index_copy_rec_order_prefix := toy_copy_rec_order_prefix;
  dict_index_build_data_tuple := toy_build_data_tuple;
  cmp_dtuple_rec := toy_cmp_dtuple_rec;
  buf_page_optimistic_get := toy_buf_page_optimistic_get;
  btr_cur_search_to_nth_level := toy_btr_cur_search_to_nth_level;
  btr_cur_open_at_index_side := toy_btr_cur_open_at_index_side;
  btr_block_get := toy_btr_block_get;
  btr_leaf_page_release := toy_btr_leaf_page_release;
  buf_block_set_check_index_page_at_flush := toy_set_check_index_page_at_flush;
  mtr_commit := toy_mtr_commit;
  mtr_start := toy_mtr_start;
  btr_pcur_move_to_next_user_rec := toy_move_to_next_user_rec
|}.

(** Scenario material: one leaf with the keys 1, 2, 3, and a tree of two
    leaves, A with 1, 2, 3 and B with 4, 5, 6. *)
Definition toy_one_leaf : toy_world :=
  mk_toy_world
    [mk_toy_page [[1; 10]; [2; 20]; [3; 30]] FIL_NULL FIL_NULL 5 false] [].

Definition toy_two_leaves : toy_world :=
  mk_toy_world
    [mk_toy_page [[1; 10]; [2; 20]; [3; 30]] FIL_NULL 1 5 false;
     mk_toy_page [[4; 40]; [5; 50]; [6; 60]] 0 FIL_NULL 8 false] [].

Definition toy_empty_tree : toy_world :=
  mk_toy_world [toy_empty_page] [].

(** The two-leaf tree with the link from B back to A lost, and a tree of
    three leaves, C with 7, 8, 9 after A and B. *)
Definition toy_two_leaves_unlinked : toy_world :=
  mk_toy_world
    [mk_toy_page [[1; 10]; [2; 20]; [3; 30]] FIL_NULL 1 5 false;
     mk_toy_page [[4; 40]; [5; 50]; [6; 60]] FIL_NULL FIL_NULL 8 false] [].

Definition toy_three_leaves : toy_world :=
  mk_toy_world
    [mk_toy_page [[1; 10]; [2; 20]; [3; 30]] FIL_NULL 1 5 false;
     mk_toy_page [[4; 40]; [5; 50]; [6; 60]] 0 2 8 false;
     mk_toy_page [[7; 70]; [8; 80]; [9; 90]] 1 FIL_NULL 3 false] [].

Definition toy_machine (w : toy_world) : machine toy_world :=
  mk_machine w [].

(** A cursor as [btr_pcur_create] leaves it, on index 1. *)
Definition toy_fresh_cursor : btr_pcur_t :=
  mk_btr_pcur (mk_btr_cur 1 (mk_page_cur 0 0) 0) BTR_NO_LATCHES
    BTR_PCUR_OLD_NOT_STORED None 0 BTR_PCUR_ON 0 0 BTR_PCUR_NOT_POSITIONED
    PAGE_CUR_UNSUPP 0 0 0.

(** A cursor positioned, under [latch], on a place of the tree. *)
Definition toy_cursor_at (page_no : nat) (s : toy_slot)
    (latch : btr_latch_mode) : btr_pcur_t :=
  mk_btr_pcur
    (mk_btr_cur 1 (mk_page_cur (toy_rec_addr page_no s) (toy_block page_no)) 0)
    latch BTR_PCUR_OLD_NOT_STORED None 0 BTR_PCUR_ON 0 0
    BTR_PCUR_IS_POSITIONED PAGE_CUR_GE 0 0 0.

(** A cursor that is positioned and latched, yet carries
    [latch_mode = BTR_NO_LATCHES]: store on the supremum, release the leaf,
    restore optimistically.  The restore leaves the cursor on the AFTER
    path, positioned, with the block latched again and the field as
    [btr_pcur_release_leaf] set it. *)
Definition toy_restored_after : result toy_world (bool * btr_pcur_t) :=
  (c1 <- btr_pcur_store_position (env := toy_env)
           (toy_cursor_at 0 SlotSupremum BTR_SEARCH_LEAF) ;;
   c2 <- btr_pcur_release_leaf c1 ;;
   btr_pcur_restore_position_func BTR_SEARCH_LEAF c2)
    (toy_machine toy_one_leaf).

Definition toy_unlatched_cursor : btr_pcur_t :=
  mk_btr_pcur
    (mk_btr_cur 1 (mk_page_cur (toy_rec_addr 0 SlotSupremum) (toy_block 0)) 0)
    BTR_NO_LATCHES BTR_PCUR_OLD_STORED (Some [3]) 1 BTR_PCUR_AFTER 1 5
    BTR_PCUR_IS_POSITIONED PAGE_CUR_GE 0 4096 1.

Definition toy_relatched_machine : machine toy_world :=
  mk_machine
    (mk_toy_world (tw_pages toy_one_leaf) [(1, BTR_SEARCH_LEAF)])
    [Call_btr_leaf_page_release 1 BTR_SEARCH_LEAF;
     Call_buf_page_optimistic_get BTR_SEARCH_LEAF 1 5 true].

(** The cursor [btr_pcur_store_position] leaves on the record with key 2 of
    the one-leaf tree, stored under [BTR_SEARCH_LEAF]. *)
Definition toy_stored_on_2 : btr_pcur_t :=
  mk_btr_pcur
    (mk_btr_cur 1 (mk_page_cur (toy_rec_addr 0 (SlotUser 1)) (toy_block 0)) 0)
    BTR_SEARCH_LEAF BTR_PCUR_OLD_STORED (Some [2]) 1 BTR_PCUR_ON 1 5
    BTR_PCUR_IS_POSITIONED PAGE_CUR_GE 0 4096 1.

(** The same, stored on the supremum: the anchor is the record with key 3
    and the position is AFTER. *)
Definition toy_stored_after_3 : btr_pcur_t :=
  mk_btr_pcur
    (mk_btr_cur 1 (mk_page_cur (toy_rec_addr 0 SlotSupremum) (toy_block 0)) 0)
    BTR_SEARCH_LEAF BTR_PCUR_OLD_STORED (Some [3]) 1 BTR_PCUR_AFTER 1 5
    BTR_PCUR_IS_POSITIONED PAGE_CUR_GE 0 4096 1.

(** The cursor [btr_pcur_store_position] leaves on the infimum of leaf B of
    the two-leaf tree: the anchor is the record with key 4 and the position
    is BEFORE. *)
Definition toy_stored_before_4 : btr_pcur_t :=
  mk_btr_pcur
    (mk_btr_cur 1 (mk_page_cur (toy_rec_addr 1 SlotInfimum) (toy_block 1)) 0)
    BTR_SEARCH_LEAF BTR_PCUR_OLD_STORED (Some [4]) 1 BTR_PCUR_BEFORE 2 8
    BTR_PCUR_IS_POSITIONED PAGE_CUR_GE 0 4096 1.

(** The one-leaf tree after the record with key 2 has been deleted (the
    modify-clock has moved on). *)
Definition toy_one_leaf_without_2 : toy_world :=
  mk_toy_world [mk_toy_page [[1; 10]; [3; 30]] FIL_NULL FIL_NULL 6 false] [].

(** The same on the infimum of leaf B of the two-leaf tree: the position is
    stored as BEFORE, and the restored cursor is positioned on the infimum,
    its block latched, with [latch_mode = BTR_NO_LATCHES]. *)
Definition toy_restored_before : result toy_world (bool * btr_pcur_t) :=
  (c1 <- btr_pcur_store_position (env := toy_env)
           (toy_cursor_at 1 SlotInfimum BTR_SEARCH_LEAF) ;;
   c2 <- btr_pcur_release_leaf c1 ;;
   btr_pcur_restore_position_func BTR_SEARCH_LEAF c2)
    (toy_machine toy_two_leaves).

Definition toy_unlatched_on_infimum : btr_pcur_t :=
  mk_btr_pcur
    (mk_btr_cur 1 (mk_page_cur (toy_rec_addr 1 SlotInfimum) (toy_block 1)) 0)
    BTR_NO_LATCHES BTR_PCUR_OLD_STORED (Some [4]) 1 BTR_PCUR_BEFORE 2 8
    BTR_PCUR_IS_POSITIONED PAGE_CUR_GE 0 4096 1.

Definition toy_relatched_B : machine toy_world :=
  mk_machine
    (mk_toy_world (tw_pages toy_two_leaves) [(2, BTR_SEARCH_LEAF)])
    [Call_btr_leaf_page_release 2 BTR_SEARCH_LEAF;
     Call_buf_page_optimistic_get BTR_SEARCH_LEAF 2 8 true].

(** The cursor stored on the infimum of the empty tree and released. *)
Definition toy_stored_in_empty_tree : btr_pcur_t :=
  released
    (stored_on_empty (env := toy_env)
       (toy_cursor_at 0 SlotInfimum BTR_SEARCH_LEAF)).

(** *** 5. Row undo (row/row0undo.cc) *)

(** What [row_undo_search_clust_to_pcur] calls and is not part of the
    sources: the persistent cursor class of this code ([Btree_pcursor]:
    [get_rec], [store_position], [commit_specify_mtr]), the search by row
    reference (row0row), the record accessors and the row builders
    (row0row, row0upd, data0data).  [undo_world] is everything behind the
    pointers, the mini-transaction included. *)
Class RowUndoEnv : Type := {
  undo_world : Type;
  Btree_pcursor : Type;
  row_t : Type;
  row_ext_t : Type;
  upd_t : Type;
  table_get_first_index : Z -> Z;
  pcur_get_rec : Btree_pcursor -> Z;
  row_search_on_row_ref :
    Btree_pcursor -> btr_latch_mode -> Z -> Z -> undo_world ->
    (bool * Btree_pcursor) * undo_world;
  row_get_rec_roll_ptr : undo_world -> Z -> Z -> Z;
  row_build : undo_world -> Z -> Z -> row_t * option row_ext_t;
  dtuple_copy : row_t -> row_t;
  row_upd_replace : Z -> upd_t -> row_t -> row_t * option row_ext_t;
  pcur_store_position : Btree_pcursor -> M undo_world Btree_pcursor;
  pcur_commit_specify_mtr :
    Btree_pcursor -> undo_world -> Btree_pcursor * undo_world;
  undo_mtr_start : undo_world -> undo_world
}.

Section RowUndo.

Context {uenv : RowUndoEnv}.

(** [Undo_node], the fields [row_undo_search_clust_to_pcur] reads or
    writes.  Pointers that may be null are options. *)
Record Undo_node : Type := mk_Undo_node {
  m_pcur : Btree_pcursor;
  table : Z;
  ref : Z;
  roll_ptr : Z;
  update : option upd_t;
  row : option row_t;
  ext : option row_ext_t;
  undo_row : option row_t;
  undo_ext : option row_ext_t
}.

Definition set_m_pcur (node : Undo_node) (p : Btree_pcursor) : Undo_node :=
  mk_Undo_node p (table node) (ref node) (roll_ptr node) (update node)
    (row node) (ext node) (undo_row node) (undo_ext node).

Definition set_row (node : Undo_node) (r : option row_t)
    (e : option row_ext_t) : Undo_node :=
  mk_Undo_node (m_pcur node) (table node) (ref node) (roll_ptr node)
    (update node) r e (undo_row node) (undo_ext node).

Definition set_undo_row (node : Undo_node) (r : option row_t)
    (e : option row_ext_t) : Undo_node :=
  mk_Undo_node (m_pcur node) (table node) (ref node) (roll_ptr node)
    (update node) (row node) (ext node) r e.

(** [row_undo_search_clust_to_pcur] (lines 135-190).  The scratch heap for
    the column offsets is not modelled; the offsets are part of what the
    record accessors read. *)
Definition row_undo_search_clust_to_pcur (node : Undo_node)
  : M undo_world (bool * Undo_node) :=
  act (fun w => (tt, undo_mtr_start w)) (fun _ => Call_mtr_start) ;;
  let clust_index := table_get_first_index (table node) in
  found <-
    act (row_search_on_row_ref (m_pcur node) BTR_MODIFY_LEAF (table node)
           (ref node))
        (fun _ => Call_row_search_on_row_ref BTR_MODIFY_LEAF) ;;
  let node := set_m_pcur node (snd found) in
  let rec := pcur_get_rec (m_pcur node) in
  landing_roll_ptr <- read (fun w => row_get_rec_roll_ptr w rec clust_index) ;;
  done <-
    (if negb (fst found) || negb (roll_ptr node =? landing_roll_ptr) then
       ret (false, node)
     else
       built <- read (fun w => row_build w clust_index rec) ;;
       let node := set_row node (Some (fst built)) (snd built) in
       let node :=
         match update node with
         | Some upd =>
             let replaced :=
               row_upd_replace clust_index upd (dtuple_copy (fst built)) in
             set_undo_row node (Some (fst replaced)) (snd replaced)
         | None => set_undo_row node None None
         end in
       p <- pcur_store_position (m_pcur node) ;;
       ret (true, set_m_pcur node p)) ;;
  let node := snd done in
  p <- act (pcur_commit_specify_mtr (m_pcur node))
           (fun _ => Call_commit_specify_mtr) ;;
  ret (fst done, set_m_pcur node p).

End RowUndo.

(** A concrete world for the row undo: the clustered index as a list of
    records (key, roll pointer, column values), a cursor that is a position
    in that list (0 when not on a record), and a count of the
    mini-transactions committed so far. *)
Record toy_clust_rec : Type := mk_toy_clust_rec {
  tc_key : Z;
  tc_roll_ptr : Z;
  tc_cols : list Z
}.

Record toy_undo_world : Type := mk_toy_undo_world {
  tu_clust : list toy_clust_rec;
  tu_mtr_active : bool;
  tu_commits : nat
}.

Record toy_pcursor : Type := mk_toy_pcursor {
  tpc_rec : Z;
  tpc_latched : bool;
  tpc_stored : bool
}.

Fixpoint toy_find_key (recs : list toy_clust_rec) (key : Z) (pos : Z)
  : option Z :=
  match recs with
  | [] => None
  | r :: recs' =>
      if tc_key r =? key then Some pos else toy_find_key recs' key (pos + 1)
  end.

Definition toy_clust_at (w : toy_undo_world) (rec_pos : Z) : toy_clust_rec :=
  nth (Z.to_nat (rec_pos - 1)) (tu_clust w) (mk_toy_clust_rec 0 0 []).

Definition toy_row_undo_env : RowUndoEnv := {|
  undo_world := toy_undo_world;
  Btree_pcursor := toy_pcursor;
  row_t := list Z;
  row_ext_t := unit;
  upd_t := list (nat * Z);
  table_get_first_index := fun table => table;
  pcur_get_rec := tpc_rec;
  row_search_on_row_ref :=
    fun p latch table key w =>
      match toy_find_key (tu_clust w) key 1 with
      | Some pos => ((true, mk_toy_pcursor pos true false), w)
      | None => ((false, mk_toy_pcursor 0 true false), w)
      end;
  row_get_rec_roll_ptr := fun w r index => tc_roll_ptr (toy_clust_at w r);
  row_build := fun w index r => (tc_cols (toy_clust_at w r), None);
  dtuple_copy := fun r => r;
  row_upd_replace :=
    fun index upd r =>
      (fold_left (fun cols fv => <[fst fv := snd fv]> cols) upd r, None);
  pcur_store_position :=
    fun p => ret (mk_toy_pcursor (tpc_rec p) (tpc_latched p) true);
  pcur_commit_specify_mtr :=
    fun p w =>
      (mk_toy_pcursor (tpc_rec p) false (tpc_stored p),
       mk_toy_undo_world (tu_clust w) false (S (tu_commits w)));
  undo_mtr_start :=
    fun w => mk_toy_undo_world (tu_clust w) true (tu_commits w)
|}.

Definition toy_clust : toy_undo_world :=
  mk_toy_undo_world
    [mk_toy_clust_rec 5 500 [5; 50]; mk_toy_clust_rec 7 700 [7; 70]] false 0.

(** An undo node for the row with key 7, whose undo record has roll
    pointer [rp] and update vector [upd]. *)
Definition toy_undo_node (rp : Z) (upd : option (list (nat * Z)))
  : Undo_node (uenv := toy_row_undo_env) :=
  mk_Undo_node (uenv := toy_row_undo_env)
    (mk_toy_pcursor 0 false false) 1 7 rp upd None None None None.

(** **** The undo step *)

(** Modelled from the spec: row0undo.h is missing; the states of an undo
    node are taken by name, as the data model lists them and row0undo.cc
    uses them. *)
Inductive undo_node_state : Type :=
  | UNDO_NODE_FETCH_NEXT | UNDO_NODE_INSERT | UNDO_NODE_MODIFY
  | UNDO_NODE_PREV_VERS.

Global Instance undo_node_state_eq_dec : EqDecision undo_node_state.
Proof. solve_decision. Defined.

(** What happens to the world in a run of [row_undo], in order. *)
Inductive undo_event : Type :=
  | Ev_trx_roll_pop_top_rec_of_trx (trx roll_limit : Z)
  | Ev_trx_undo_get_undo_rec_low (roll_ptr : Z)
  | Ev_lock_data_dictionary (trx : Z)
  | Ev_row_undo_ins
  | Ev_row_undo_mod
  | Ev_unlock_data_dictionary (trx : Z)
  | Ev_pcur_close
  | Ev_mem_heap_empty (heap : Z).

(** [que_thr_t], reduced to the transaction of its graph (what
    [thr_get_trx] reads) and the node to run next. *)
Record que_thr_t : Type := mk_que_thr {
  thr_trx : Z;
  run_node : Z
}.

Definition set_run_node (thr : que_thr_t) (node : Z) : que_thr_t :=
  mk_que_thr (thr_trx thr) node.

Section RowUndoStep.

Context {uenv : RowUndoEnv}.

(** [Undo_node] with the fields [row_undo] reads or writes on top of those
    of [row_undo_search_clust_to_pcur]: [common_parent] is
    [common.parent], [node_heap] is [heap]. *)
Record Undo_node_run : Type := mk_Undo_node_run {
  fields : Undo_node;
  state : undo_node_state;
  trx : Z;
  undo_rec : Z;
  undo_no : Z;
  new_roll_ptr : Z;
  node_heap : Z;
  common_parent : Z
}.

Definition set_state (node : Undo_node_run) (s : undo_node_state)
  : Undo_node_run :=
  mk_Undo_node_run (fields node) s (trx node) (undo_rec node) (undo_no node)
    (new_roll_ptr node) (node_heap node) (common_parent node).

Definition set_undo_rec (node : Undo_node_run) (r : Z) : Undo_node_run :=
  mk_Undo_node_run (fields node) (state node) (trx node) r (undo_no node)
    (new_roll_ptr node) (node_heap node) (common_parent node).

Definition set_undo_no (node : Undo_node_run) (n : Z) : Undo_node_run :=
  mk_Undo_node_run (fields node) (state node) (trx node) (undo_rec node) n
    (new_roll_ptr node) (node_heap node) (common_parent node).

Definition set_roll_ptr (node : Undo_node_run) (rp : Z) : Undo_node_run :=
  let f := fields node in
  mk_Undo_node_run
    (mk_Undo_node (m_pcur f) (table f) (ref f) rp (update f) (row f) (ext f)
       (undo_row f) (undo_ext f))
    (state node) (trx node) (undo_rec node) (undo_no node)
    (new_roll_ptr node) (node_heap node) (common_parent node).

Definition set_node_pcur (node : Undo_node_run) (p : Btree_pcursor)
  : Undo_node_run :=
  mk_Undo_node_run (set_m_pcur (fields node) p) (state node) (trx node)
    (undo_rec node) (undo_no node) (new_roll_ptr node) (node_heap node)
    (common_parent node).

(** The collaborators of [row_undo] and [row_undo_step] that are not part
    of the sources: the undo log (trx0roll, trx0undo, trx0rec), the data
    dictionary lock (dict0dict), the two undo operations (row0uins,
    row0umod), the cursor's [close], the arena (mem0mem), the fields of the
    transaction and the activity counter of the server.  [db_err] is the
    enumeration of db0err.h. *)
Class RowUndoStepEnv : Type := {
  db_err : Type;
  DB_SUCCESS : db_err;
  db_err_eq_dec :: EqDecision db_err;
  trx_roll_limit : undo_world -> Z -> Z;
  trx_dict_operation_lock_mode : undo_world -> Z -> Z;
  trx_roll_pop_top_rec_of_trx :
    Z -> Z -> Z -> undo_world -> (Z * Z) * undo_world;
  trx_undo_get_undo_rec_low : Z -> Z -> undo_world -> Z * undo_world;
  trx_undo_rec_get_undo_no : undo_world -> Z -> Z;
  trx_undo_roll_ptr_is_insert : Z -> bool;
  lock_data_dictionary : Z -> undo_world -> undo_world;
  unlock_data_dictionary : Z -> undo_world -> undo_world;
  row_undo_ins :
    Undo_node_run -> undo_world -> (db_err * Undo_node_run) * undo_world;
  row_undo_mod :
    Undo_node_run -> que_thr_t -> undo_world ->
    (db_err * Undo_node_run * que_thr_t) * undo_world;
  pcur_close : Btree_pcursor -> undo_world -> Btree_pcursor * undo_world;
  mem_heap_empty : Z -> undo_world -> undo_world;
  trx_set_error_state : Z -> db_err -> undo_world -> undo_world;
  srv_activity_count_incr : undo_world -> undo_world
}.

Context {senv : RowUndoStepEnv}.

(** The world of a run together with what has happened to it so far. *)
Record undo_trace : Type := mk_undo_trace {
  tr_world : undo_world;
  tr_events : list undo_event
}.

(** A call that changes the world, noted in the trace. *)
Definition undo_act {A : Type} (f : undo_world -> A * undo_world)
    (ev : undo_event) : M undo_trace A :=
  fun m =>
    let '(a, w) := f (tr_world (mem m)) in
    Ok a (mk_machine (mk_undo_trace w (tr_events (mem m) ++ [ev])) (calls m)).

Definition undo_read {A : Type} (f : undo_world -> A) : M undo_trace A :=
  read (fun t => f (tr_world t)).

(** The classification both fetching branches of [row_undo] end with. *)
Definition row_undo_classify (node : Undo_node_run) (rec rp : Z)
  : M undo_trace Undo_node_run :=
  let node := set_undo_rec node rec in
  let node := set_roll_ptr node rp in
  no <- undo_read (fun w => trx_undo_rec_get_undo_no w (undo_rec node)) ;;
  let node := set_undo_no node no in
  if trx_undo_roll_ptr_is_insert rp
  then ret (set_state node UNDO_NODE_INSERT)
  else ret (set_state node UNDO_NODE_MODIFY).

(** [row_undo], lines 203-241: the undo record is fetched when the state
    asks for it.  [inl] is the early return of line 211, the undo log
    having no record left. *)
Definition row_undo_fetch (node : Undo_node_run)
  : M undo_trace (Undo_node_run + Undo_node_run) :=
  let trx := trx node in
  if bool_decide (state node = UNDO_NODE_FETCH_NEXT) then
    roll_limit <- undo_read (fun w => trx_roll_limit w trx) ;;
    popped <-
      undo_act (trx_roll_pop_top_rec_of_trx trx roll_limit (node_heap node))
        (Ev_trx_roll_pop_top_rec_of_trx trx roll_limit) ;;
    if fst popped =? 0 then
      ret (inl (set_undo_rec node (fst popped)))
    else
      node <- row_undo_classify node (fst popped) (snd popped) ;;
      ret (inr node)
  else if bool_decide (state node = UNDO_NODE_PREV_VERS) then
    let roll_ptr := new_roll_ptr node in
    rec <-
      undo_act (trx_undo_get_undo_rec_low roll_ptr (node_heap node))
        (Ev_trx_undo_get_undo_rec_low roll_ptr) ;;
    node <- row_undo_classify node rec roll_ptr ;;
    ret (inr node)
  else
    ret (inr node).

(** [row_undo], lines 243-280: the undo operation, under the data
    dictionary lock when the transaction [trx] does not hold it yet. *)
Definition row_undo_apply (node_ptr trx : Z) (node : Undo_node_run)
    (thr : que_thr_t) : M undo_trace (db_err * Undo_node_run * que_thr_t) :=
  mode <- undo_read (fun w => trx_dict_operation_lock_mode w trx) ;;
  let locked_data_dict := mode =? 0 in
  (if locked_data_dict then
     undo_act (fun w => (tt, lock_data_dictionary trx w))
       (Ev_lock_data_dictionary trx) ;;
     mode <- undo_read (fun w => trx_dict_operation_lock_mode w trx) ;;
     ut_a (negb (mode =? 0))
   else ret tt) ;;
  done <-
    (if bool_decide (state node = UNDO_NODE_INSERT) then
       r <- undo_act (row_undo_ins node) Ev_row_undo_ins ;;
       ret (fst r, set_state (snd r) UNDO_NODE_FETCH_NEXT, thr)
     else
       undo_act (row_undo_mod node thr) Ev_row_undo_mod) ;;
  let err := fst (fst done) in
  let node := snd (fst done) in
  let thr := snd done in
  (if locked_data_dict then
     undo_act (fun w => (tt, unlock_data_dictionary trx w))
       (Ev_unlock_data_dictionary trx)
   else ret tt) ;;
  p <- undo_act (pcur_close (m_pcur (fields node))) Ev_pcur_close ;;
  let node := set_node_pcur node p in
  undo_act (fun w => (tt, mem_heap_empty (node_heap node) w))
    (Ev_mem_heap_empty (node_heap node)) ;;
  ret (err, node, set_run_node thr node_ptr).

(** [row_undo] (lines 198-281).  [node_ptr] is the address of [node].  The
    result is the error code together with the node and the query thread as
    the call leaves them. *)
Definition row_undo (node_ptr : Z) (node : Undo_node_run) (thr : que_thr_t)
  : M undo_trace (db_err * Undo_node_run * que_thr_t) :=
  let trx := trx node in
  fetched <- row_undo_fetch node ;;
  match fetched with
  | inl node =>
      ret (DB_SUCCESS, node, set_run_node thr (common_parent node))
  | inr node => row_undo_apply node_ptr trx node thr
  end.

(** [row_undo_step] (lines 283-311); [node] is the node at
    [thr->run_node].  What is printed before the [ut_error] is not
    modelled. *)
Definition row_undo_step (node : Undo_node_run) (thr : que_thr_t)
  : M undo_trace (Undo_node_run * que_thr_t) :=
  modify (fun t =>
            mk_undo_trace (srv_activity_count_incr (tr_world t))
              (tr_events t)) ;;
  let trx := thr_trx thr in
  done <- row_undo (run_node thr) node thr ;;
  let err := fst (fst done) in
  modify (fun t =>
            mk_undo_trace (trx_set_error_state trx err (tr_world t))
              (tr_events t)) ;;
  if negb (bool_decide (err = DB_SUCCESS)) then ut_error
  else ret (snd (fst done), snd done).

(** The events a run started in [m] has added to the trace. *)
Definition new_events {A : Type} (m : machine undo_trace)
    (r : result undo_trace A) : list undo_event :=
  drop (length (tr_events (mem m))) (tr_events (mem (final_machine r))).

Definition is_undo_operation (ev : undo_event) : bool :=
  match ev with
  | Ev_row_undo_ins | Ev_row_undo_mod => true
  | _ => false
  end.

(** The machine after the world has got to [w] and [evs] has happened. *)
Definition undo_logged (m : machine undo_trace) (w : undo_world)
    (evs : list undo_event) : machine undo_trace :=
  mk_machine (mk_undo_trace w (tr_events (mem m) ++ evs)) (calls m).

(** The undo operation lines 258-266 dispatch to in the world [w]: what it
    returns, the world it leaves and the event it is. *)
Definition row_undo_dispatch (node : Undo_node_run) (thr : que_thr_t)
    (w : undo_world)
  : (db_err * Undo_node_run * que_thr_t) * undo_world * undo_event :=
  if bool_decide (state node = UNDO_NODE_INSERT) then
    let r := row_undo_ins node w in
    ((fst (fst r), set_state (snd (fst r)) UNDO_NODE_FETCH_NEXT, thr),
     snd r, Ev_row_undo_ins)
  else
    let r := row_undo_mod node thr w in
    (fst r, snd r, Ev_row_undo_mod).

(** Lines 273-280: the cursor is closed, the arena emptied and the node
    put back as the node to run. *)
Definition row_undo_cleanup (node_ptr : Z)
    (done : db_err * Undo_node_run * que_thr_t) (w : undo_world)
  : (db_err * Undo_node_run * que_thr_t) * undo_world :=
  let closed := pcur_close (m_pcur (fields (snd (fst done)))) w in
  let node := set_node_pcur (snd (fst done)) (fst closed) in
  ((fst (fst done), node, set_run_node (snd done) node_ptr),
   mem_heap_empty (node_heap node) (snd closed)).

(** The node [row_undo_classify] leaves, read in the world [w]. *)
Definition classified (node : Undo_node_run) (rec rp : Z) (w : undo_world)
  : Undo_node_run :=
  let node := set_roll_ptr (set_undo_rec node rec) rp in
  let node := set_undo_no node (trx_undo_rec_get_undo_no w (undo_rec node)) in
  set_state node
    (if trx_undo_roll_ptr_is_insert rp
     then UNDO_NODE_INSERT else UNDO_NODE_MODIFY).

Definition is_fetch (ev : undo_event) : bool :=
  match ev with
  | Ev_trx_roll_pop_top_rec_of_trx _ _ | Ev_trx_undo_get_undo_rec_low _ => true
  | _ => false
  end.

End RowUndoStep.

(** A concrete world for [row_undo]: the undo log of the one transaction
    as a stack of (record address, roll pointer), insert records having an
    even roll pointer; the dictionary lock mode and the error state of the
    transaction; the activity counter.  The error codes are [true] for
    [DB_SUCCESS] and [false] for any other.  The two undo operations
    succeed and change nothing; the data dictionary lock sets the lock mode
    to 1, the unlock to 0. *)
Record toy_step_world : Type := mk_toy_step_world {
  ts_undo_log : list (Z * Z);
  ts_dict_lock_mode : Z;
  ts_error_state : option bool;
  ts_activity : Z
}.

Definition toy_step_uenv : RowUndoEnv := {|
  undo_world := toy_step_world;
  Btree_pcursor := bool;
  row_t := unit;
  row_ext_t := unit;
  upd_t := unit;
  table_get_first_index := fun table => table;
  pcur_get_rec := fun _ => 0;
  row_search_on_row_ref := fun p latch table key w => ((false, p), w);
  row_get_rec_roll_ptr := fun w r index => 0;
  row_build := fun w index r => (tt, None);
  dtuple_copy := fun r => r;
  row_upd_replace := fun index upd r => (r, None);
  pcur_store_position := fun p => ret p;
  pcur_commit_specify_mtr := fun p w => (p, w);
  undo_mtr_start := fun w => w
|}.

Definition toy_set_lock_mode (mode : Z) (w : toy_step_world)
  : toy_step_world :=
  mk_toy_step_world (ts_undo_log w) mode (ts_error_state w) (ts_activity w).

Definition toy_step_env : RowUndoStepEnv (uenv := toy_step_uenv) :=
  @Build_RowUndoStepEnv toy_step_uenv
    bool true _
    (fun (w : toy_step_world) trx => 0)
    (fun (w : toy_step_world) trx => ts_dict_lock_mode w)
    (fun trx limit heap (w : toy_step_world) =>
       match ts_undo_log w with
       | [] => ((0, 0), w)
       | top :: rest =>
           (top, mk_toy_step_world rest (ts_dict_lock_mode w)
                   (ts_error_state w) (ts_activity w))
       end)
    (fun roll_ptr heap (w : toy_step_world) => (roll_ptr + 1, w))
    (fun (w : toy_step_world) rec => rec)
    Z.even
    (fun trx (w : toy_step_world) => toy_set_lock_mode 1 w)
    (fun trx (w : toy_step_world) => toy_set_lock_mode 0 w)
    (fun node (w : toy_step_world) => ((true, node), w))
    (fun node thr (w : toy_step_world) => ((true, node, thr), w))
    (fun (p : bool) (w : toy_step_world) => (false, w))
    (fun heap (w : toy_step_world) => w)
    (fun trx (err : bool) (w : toy_step_world) =>
       mk_toy_step_world (ts_undo_log w) (ts_dict_lock_mode w) (Some err)
         (ts_activity w))
    (fun (w : toy_step_world) =>
       mk_toy_step_world (ts_undo_log w) (ts_dict_lock_mode w)
         (ts_error_state w) (ts_activity w + 1)).

(** The undo node at address 500 of the transaction 1, its parent at 400,
    its arena at 600. *)
Definition toy_step_node (s : undo_node_state)
  : Undo_node_run (uenv := toy_step_uenv) :=
  mk_Undo_node_run (uenv := toy_step_uenv)
    (mk_Undo_node (uenv := toy_step_uenv) true 1 7 0 None None None None None)
    s 1 0 0 0 600 400.

Definition toy_step_machine (log : list (Z * Z)) (lock_mode : Z)
  : machine (undo_trace (uenv := toy_step_uenv)) :=
  mk_machine
    (mk_undo_trace (uenv := toy_step_uenv)
       (mk_toy_step_world log lock_mode None 0) [])
    [].

(** ** Part II. Properties *)

(** *** Transaction ids *)

Lemma get_new_trx_id_returns (s : Trx_sys) :
  fst (get_new_trx_id s) = m_max_trx_id s.
Proof.
  unfold get_new_trx_id.
  destruct (m_max_trx_id s mod TRX_SYS_TRX_ID_WRITE_MARGIN =? 0); reflexivity.
Qed.

Lemma get_new_trx_id_next (s : Trx_sys) :
  0 <= m_max_trx_id s < TRX_ID_MODULUS - 1 ->
  m_max_trx_id (snd (get_new_trx_id s)) = m_max_trx_id s + 1.
Proof.
  intros Hr. unfold get_new_trx_id.
  destruct (m_max_trx_id s mod TRX_SYS_TRX_ID_WRITE_MARGIN =? 0); simpl;
    apply Z.mod_small; lia.
Qed.

Lemma get_new_trx_id_writes (s : Trx_sys) :
  hdr_writes (snd (get_new_trx_id s)) =
  if m_max_trx_id s mod TRX_SYS_TRX_ID_WRITE_MARGIN =? 0
  then hdr_writes s ++ [m_max_trx_id s]
  else hdr_writes s.
Proof.
  unfold get_new_trx_id.
  destruct (m_max_trx_id s mod TRX_SYS_TRX_ID_WRITE_MARGIN =? 0); reflexivity.
Qed.

Lemma writes_of_call_flush (s : Trx_sys) :
  writes_of_call s =
  if m_max_trx_id s mod TRX_SYS_TRX_ID_WRITE_MARGIN =? 0
  then [m_max_trx_id s] else [].
Proof.
  unfold writes_of_call. rewrite get_new_trx_id_writes.
  destruct (m_max_trx_id s mod TRX_SYS_TRX_ID_WRITE_MARGIN =? 0).
  - rewrite skipn_app, skipn_all, Nat.sub_diag. reflexivity.
  - apply skipn_all.
Qed.

(** C5, the scenario as the specification words it: 257 calls from 256
    write the header with the values 512 and 768.  The code writes the
    counter itself, before incrementing it: 256 and 512. *)
Lemma get_new_trx_id_s5_values_counterexample :
  let s := trx_sys_started_at 256 in
  fst (get_new_trx_ids 257 s) = Z_range 256 257 /\
  hdr_writes (snd (get_new_trx_ids 257 s)) <> [512; 768].
Proof.
  vm_compute. split; [reflexivity | discriminate].
Qed.

(** C5 (amended): below the 64-bit maximum, [get_new_trx_id] returns the
    counter and leaves it one higher, so that the next call returns the
    successor; the header is written by exactly the calls whose
    pre-increment counter is a multiple of 256, and the value written is
    that counter.  From 256, 257 calls return 256..512 and write the header
    twice, in the calls returning 256 and 512, with the values 256 and
    512. *)
Theorem get_new_trx_id_spec (s : Trx_sys) :
  0 <= m_max_trx_id s < TRX_ID_MODULUS - 1 ->
  let r := get_new_trx_id s in
  fst r = m_max_trx_id s /\
  m_max_trx_id (snd r) = m_max_trx_id s + 1 /\
  fst (get_new_trx_id (snd r)) = fst r + 1 /\
  (m_max_trx_id s mod TRX_SYS_TRX_ID_WRITE_MARGIN = 0 ->
     hdr_writes (snd r) = hdr_writes s ++ [m_max_trx_id s] /\
     hdr_trx_id_store (snd r) = m_max_trx_id s) /\
  (m_max_trx_id s mod TRX_SYS_TRX_ID_WRITE_MARGIN <> 0 ->
     hdr_writes (snd r) = hdr_writes s /\
     hdr_trx_id_store (snd r) = hdr_trx_id_store s) /\
  let s0 := trx_sys_started_at 256 in
  fst (get_new_trx_ids 257 s0) = Z_range 256 257 /\
  m_max_trx_id (snd (get_new_trx_ids 257 s0)) = 513 /\
  hdr_writes (snd (get_new_trx_ids 257 s0)) = [256; 512] /\
  filter wrote_header (trx_id_trace 257 s0) = [(256, [256]); (512, [512])].
Proof.
  intros Hr r. subst r.
  split; [apply get_new_trx_id_returns |].
  split; [apply get_new_trx_id_next; exact Hr |].
  split.
  { rewrite !get_new_trx_id_returns. apply get_new_trx_id_next; exact Hr. }
  split.
  { intros Hm. unfold get_new_trx_id.
    apply Z.eqb_eq in Hm. rewrite Hm. simpl. split; reflexivity. }
  split.
  { intros Hm. unfold get_new_trx_id.
    apply Z.eqb_neq in Hm. rewrite Hm. simpl. split; reflexivity. }
  vm_compute. repeat split; reflexivity.
Qed.

(** The first call of a system started at 256. *)
Lemma get_new_trx_id_spec_witness :
  0 <= 256 < TRX_ID_MODULUS - 1 /\
  fst (get_new_trx_id (trx_sys_started_at 256)) = 256 /\
  m_max_trx_id (snd (get_new_trx_id (trx_sys_started_at 256))) = 257.
Proof.
  assert (H : 0 <= m_max_trx_id (trx_sys_started_at 256) < TRX_ID_MODULUS - 1)
    by (vm_compute; split; [discriminate | reflexivity]).
  split; [exact H |].
  pose proof (get_new_trx_id_spec (trx_sys_started_at 256) H) as P.
  split; [exact (proj1 P) | exact (proj1 (proj2 P))].
Defined.

(** At the largest 64-bit value the increment wraps to 0. *)
Example get_new_trx_id_wraps :
  get_new_trx_id (trx_sys_started_at (TRX_ID_MODULUS - 1)) =
    (TRX_ID_MODULUS - 1,
     {| m_max_trx_id := 0;
        hdr_trx_id_store := TRX_ID_MODULUS - 1;
        hdr_writes := [] |}).
Proof. vm_compute. reflexivity. Qed.

(** **** The trx list *)

Lemma get_on_id_None (l : list trx_t) (id : Z) :
  get_on_id l id = None <-> Forall (fun t => m_id t <> id) l.
Proof.
  induction l as [| t l IH]; simpl.
  - split; [constructor | reflexivity].
  - destruct (Z.eqb_spec id (m_id t)) as [E | E].
    + split; [discriminate | intros H; inversion H; subst; congruence].
    + rewrite IH. split.
      * intros H. constructor; [congruence | exact H].
      * intros H. inversion H; assumption.
Qed.

Lemma get_on_id_Some (l : list trx_t) (id : Z) (trx : trx_t) :
  get_on_id l id = Some trx ->
  exists l1 l2,
    l = l1 ++ trx :: l2 /\ m_id trx = id /\
    Forall (fun t => m_id t <> id) l1.
Proof.
  induction l as [| t l IH]; simpl; [discriminate |].
  destruct (Z.eqb_spec id (m_id t)) as [E | E].
  - intros [= <-]. exists [], l. auto.
  - intros H. destruct (IH H) as (l1 & l2 & -> & Hid & Hl1).
    exists (t :: l1), l2. repeat split; auto.
Qed.

(** X1: [get_on_id] hands back the first transaction of the list whose id
    is the one asked for, and [nullptr] exactly when the list holds no
    transaction with that id. *)
Theorem get_on_id_spec (l : list trx_t) (id : Z) :
  match get_on_id l id with
  | Some trx =>
      exists l1 l2,
        l = l1 ++ trx :: l2 /\ m_id trx = id /\
        Forall (fun t => m_id t <> id) l1
  | None => Forall (fun t => m_id t <> id) l
  end.
Proof.
  destruct (get_on_id l id) as [trx |] eqn:E.
  - apply get_on_id_Some. exact E.
  - apply get_on_id_None. exact E.
Qed.

Lemma trx_list_sorted_last (l : list trx_t) (t : trx_t) :
  trx_list_sorted l -> last l = Some t ->
  Forall (fun u => m_id t <= m_id u) l.
Proof.
  intros Hs. induction Hs as [| a l Hs IH Ha]; intros Hl; [discriminate |].
  destruct l as [| b l'].
  - simpl in Hl. injection Hl as <-. constructor; [lia | constructor].
  - change (last (a :: b :: l')) with (last (b :: l')) in Hl.
    specialize (IH Hl).
    constructor; [| exact IH].
    assert (In t (b :: l')) as Hin.
    { apply last_Some in Hl as [l0 E]. rewrite E. apply in_app_iff.
      right. left. reflexivity. }
    rewrite List.Forall_forall in Ha. specialize (Ha t Hin). lia.
Qed.

Lemma get_min_trx_id_le (s : Trx_sys) (l : list trx_t) :
  trx_list_sorted l -> trx_list_below s l ->
  get_min_trx_id s l <= m_max_trx_id s /\
  Forall (fun t => get_min_trx_id s l <= m_id t) l.
Proof.
  intros Hs Hb. unfold get_min_trx_id.
  destruct (last l) as [t |] eqn:Hl.
  - split; [| apply trx_list_sorted_last; assumption].
    apply last_Some in Hl as [l0 E]. subst l.
    unfold trx_list_below in Hb. rewrite Forall_app in Hb.
    destruct Hb as [_ Hb]. inversion Hb; subst. lia.
  - apply last_None in Hl. subst l. split; [lia | constructor].
Qed.

(** X2: on a list sorted biggest id first whose ids the counter has passed,
    [get_min_trx_id] is the smallest id of the list, an id of the list when
    there is one and the counter itself when the list is empty; it never
    exceeds the counter. *)
Theorem get_min_trx_id_least (s : Trx_sys) (l : list trx_t) :
  trx_list_sorted l -> trx_list_below s l ->
  get_min_trx_id s l <= m_max_trx_id s /\
  Forall (fun t => get_min_trx_id s l <= m_id t) l /\
  (l = [] -> get_min_trx_id s l = m_max_trx_id s) /\
  (l <> [] -> exists t, In t l /\ m_id t = get_min_trx_id s l).
Proof.
  intros Hs Hb.
  destruct (get_min_trx_id_le s l Hs Hb) as [Hle Hall].
  split; [exact Hle |]. split; [exact Hall |]. split.
  - intros ->. reflexivity.
  - intros Hne. unfold get_min_trx_id.
    destruct (last l) as [t |] eqn:Hl.
    + exists t. split; [| reflexivity].
      apply last_Some in Hl as [l0 ->]. apply in_app_iff. right. left.
      reflexivity.
    + apply last_None in Hl. contradiction.
Qed.

Lemma get_min_trx_id_least_witness :
  get_min_trx_id (trx_sys_started_at 10) trx_list_example = 4 /\
  Forall (fun t => get_min_trx_id (trx_sys_started_at 10) trx_list_example
                     <= m_id t) trx_list_example.
Proof.
  assert (Hs : trx_list_sorted trx_list_example).
  { unfold trx_list_sorted, trx_list_example.
    repeat (constructor; simpl; try lia). }
  assert (Hb : trx_list_below (trx_sys_started_at 10) trx_list_example).
  { unfold trx_list_below, trx_list_example.
    repeat (constructor; simpl; try lia). }
  split; [reflexivity |].
  exact (proj1 (proj2 (get_min_trx_id_least _ _ Hs Hb))).
Defined.

Lemma trx_list_sorted_unique (l : list trx_t) (t u : trx_t) :
  trx_list_sorted l -> In t l -> In u l -> m_id t = m_id u -> t = u.
Proof.
  intros Hs. induction Hs as [| a l Hs IH Ha]; intros Ht Hu E;
    [destruct Ht |].
  rewrite List.Forall_forall in Ha.
  destruct Ht as [<- | Ht], Hu as [<- | Hu].
  - reflexivity.
  - specialize (Ha u Hu). lia.
  - specialize (Ha t Ht). lia.
  - apply IH; assumption.
Qed.

(** X3: on a well-formed list, [is_active] answers true for an id the
    counter has not reached yet (the corruption case) and, below the
    counter, exactly for the ids of the listed transactions that are active
    or prepared. *)
Theorem is_active_spec (s : Trx_sys) (l : list trx_t) (id : Z) :
  trx_list_sorted l -> trx_list_below s l ->
  is_active s l l id = true <->
  m_max_trx_id s <= id \/
  exists t,
    In t l /\ m_id t = id /\
    (m_conc_state t = TRX_ACTIVE \/ m_conc_state t = TRX_PREPARED).
Proof.
  intros Hs Hb.
  destruct (get_min_trx_id_le s l Hs Hb) as [Hle Hall].
  unfold is_active.
  destruct (Z.ltb_spec id (get_min_trx_id s l)) as [Hlt | Hge].
  - split; [discriminate |].
    intros [Hmax | (t & Hin & Hid & _)]; [lia |].
    rewrite List.Forall_forall in Hall. specialize (Hall t Hin). lia.
  - destruct (Z.geb_spec id (m_max_trx_id s)) as [Hmax | Hmax].
    + split; [intros _; left; lia | reflexivity].
    + destruct (get_on_id l id) as [trx |] eqn:E.
      * apply get_on_id_Some in E as (l1 & l2 & El & Hid & _).
        assert (In trx l) as Hin.
        { rewrite El. apply in_app_iff. right. left. reflexivity. }
        rewrite orb_true_iff, !bool_decide_eq_true.
        split.
        -- intros Hst. right. exists trx. auto.
        -- intros [Hm | (t & Ht & Htid & Hst)]; [lia |].
           assert (t = trx) as ->; [| exact Hst].
           apply (trx_list_sorted_unique l); auto. congruence.
      * apply get_on_id_None in E. split; [discriminate |].
        intros [Hm | (t & Ht & Htid & _)]; [lia |].
        rewrite List.Forall_forall in E. destruct (E t Ht Htid).
Qed.

Lemma is_active_spec_witness :
  is_active (trx_sys_started_at 10) trx_list_example trx_list_example 4 = true.
Proof.
  assert (Hs : trx_list_sorted trx_list_example).
  { unfold trx_list_sorted, trx_list_example.
    repeat (constructor; simpl; try lia). }
  assert (Hb : trx_list_below (trx_sys_started_at 10) trx_list_example).
  { unfold trx_list_below, trx_list_example.
    repeat (constructor; simpl; try lia). }
  apply (proj2 (is_active_spec _ _ 4 Hs Hb)).
  right. exists (mk_trx 4 TRX_PREPARED). split.
  - right. right. left. reflexivity.
  - split; [reflexivity | right; reflexivity].
Defined.

(** X4: below the 64-bit maximum, the id [get_new_trx_id] returns is the
    id of no listed transaction and is not reported active; its transaction
    put at the head keeps the list sorted and below the counter, and is
    then reported active exactly when its state is active or prepared. *)
Theorem get_new_trx_id_fresh (s : Trx_sys) (l : list trx_t) :
  0 <= m_max_trx_id s < TRX_ID_MODULUS - 1 ->
  trx_list_sorted l -> trx_list_below s l ->
  let id := fst (get_new_trx_id s) in
  let s' := snd (get_new_trx_id s) in
  get_on_id l id = None /\
  is_active s' l l id = false /\
  forall st,
    trx_list_sorted (mk_trx id st :: l) /\
    trx_list_below s' (mk_trx id st :: l) /\
    is_active s' (mk_trx id st :: l) (mk_trx id st :: l) id =
      bool_decide (st = TRX_ACTIVE) || bool_decide (st = TRX_PREPARED).
Proof.
  intros Hr Hs Hb id s'. subst id s'.
  rewrite get_new_trx_id_returns.
  pose proof (get_new_trx_id_next s Hr) as Hnext.
  assert (Hnone : get_on_id l (m_max_trx_id s) = None).
  { apply get_on_id_None. unfold trx_list_below in Hb.
    rewrite List.Forall_forall in Hb |- *. intros t Ht.
    specialize (Hb t Ht). lia. }
  assert (Hb' : trx_list_below (snd (get_new_trx_id s)) l).
  { unfold trx_list_below in *. rewrite Hnext.
    rewrite List.Forall_forall in Hb |- *. intros t Ht.
    specialize (Hb t Ht). lia. }
  split; [exact Hnone |]. split.
  - unfold is_active. rewrite Hnone, Hnext.
    destruct (_ <? _); [reflexivity |].
    destruct (Z.geb_spec (m_max_trx_id s) (m_max_trx_id s + 1)); [lia |].
    reflexivity.
  - intros st.
    assert (Hs' : trx_list_sorted (mk_trx (m_max_trx_id s) st :: l)).
    { constructor; [exact Hs | exact Hb]. }
    assert (Hb'' : trx_list_below (snd (get_new_trx_id s))
                     (mk_trx (m_max_trx_id s) st :: l)).
    { constructor; [rewrite Hnext; simpl; lia | exact Hb']. }
    split; [exact Hs' |]. split; [exact Hb'' |].
    destruct (get_min_trx_id_le _ _ Hs' Hb'') as [_ Hall].
    inversion Hall as [| ? ? Hhead _]; subst. cbn [m_id] in Hhead.
    unfold is_active. rewrite Hnext.
    destruct (Z.ltb_spec (m_max_trx_id s)
                (get_min_trx_id (snd (get_new_trx_id s))
                   (mk_trx (m_max_trx_id s) st :: l))); [lia |].
    destruct (Z.geb_spec (m_max_trx_id s) (m_max_trx_id s + 1)); [lia |].
    simpl. rewrite Z.eqb_refl. reflexivity.
Qed.

Lemma get_new_trx_id_fresh_witness :
  get_on_id trx_list_example (fst (get_new_trx_id (trx_sys_started_at 10)))
    = None.
Proof.
  assert (Hr : 0 <= m_max_trx_id (trx_sys_started_at 10)
               < TRX_ID_MODULUS - 1)
    by (vm_compute; split; [discriminate | reflexivity]).
  assert (Hs : trx_list_sorted trx_list_example).
  { unfold trx_list_sorted, trx_list_example.
    repeat (constructor; simpl; try lia). }
  assert (Hb : trx_list_below (trx_sys_started_at 10) trx_list_example).
  { unfold trx_list_below, trx_list_example.
    repeat (constructor; simpl; try lia). }
  exact (proj1 (get_new_trx_id_fresh _ _ Hr Hs Hb)).
Defined.

Lemma get_new_trx_ids_S (n : nat) (s : Trx_sys) :
  get_new_trx_ids (S n) s =
  (fst (get_new_trx_id s)
     :: fst (get_new_trx_ids n (snd (get_new_trx_id s))),
   snd (get_new_trx_ids n (snd (get_new_trx_id s)))).
Proof.
  change (get_new_trx_ids (S n) s) with
    (let '(id, s1) := get_new_trx_id s in
     let '(ids, s2) := get_new_trx_ids n s1 in (id :: ids, s2)).
  destruct (get_new_trx_id s) as [id s1]. cbn [fst snd].
  destruct (get_new_trx_ids n s1) as [ids s2]. reflexivity.
Qed.

Lemma Z_range_S (lo : Z) (n : nat) :
  Z_range lo (S n) = lo :: Z_range (lo + 1) n.
Proof.
  unfold Z_range. simpl. f_equal; [lia |].
  rewrite <- seq_shift, map_map. apply map_ext. intros i. lia.
Qed.

(** X5: as long as the 64-bit counter does not wrap, [n] successive calls
    of [get_new_trx_id] return the [n] consecutive ids that start at the
    counter, leave the counter [n] higher, and write to the header, in order,
    exactly the multiples of 256 among those ids. *)
Theorem get_new_trx_ids_consecutive (n : nat) (s : Trx_sys) :
  0 <= m_max_trx_id s ->
  m_max_trx_id s + Z.of_nat n < TRX_ID_MODULUS ->
  let r := get_new_trx_ids n s in
  fst r = Z_range (m_max_trx_id s) n /\
  m_max_trx_id (snd r) = m_max_trx_id s + Z.of_nat n /\
  hdr_writes (snd r) =
    hdr_writes s ++ List.filter is_write_margin (Z_range (m_max_trx_id s) n).
Proof.
  revert s. induction n as [| n IH]; intros s H0 Hn r; subst r.
  - simpl. split; [reflexivity |]. split; [lia |].
    unfold Z_range. simpl. now rewrite app_nil_r.
  - assert (Hr : 0 <= m_max_trx_id s < TRX_ID_MODULUS - 1) by lia.
    pose proof (get_new_trx_id_next s Hr) as Hnext.
    rewrite get_new_trx_ids_S. cbn [fst snd].
    destruct (IH (snd (get_new_trx_id s)) ltac:(lia) ltac:(lia))
      as (Hids & Hmax & Hwr).
    rewrite Hids, Hmax, Hwr, Hnext, get_new_trx_id_returns,
      get_new_trx_id_writes, Z_range_S.
    split; [reflexivity |]. split; [lia |].
    simpl. fold (is_write_margin (m_max_trx_id s)).
    destruct (is_write_margin (m_max_trx_id s)).
    + now rewrite <- app_assoc.
    + reflexivity.
Qed.

Lemma get_new_trx_ids_consecutive_witness :
  fst (get_new_trx_ids 3 (trx_sys_started_at 255)) = Z_range 255 3 /\
  hdr_writes (snd (get_new_trx_ids 3 (trx_sys_started_at 255))) = [256].
Proof.
  assert (H0 : 0 <= m_max_trx_id (trx_sys_started_at 255))
    by (vm_compute; discriminate).
  assert (Hn : m_max_trx_id (trx_sys_started_at 255) + Z.of_nat 3
               < TRX_ID_MODULUS) by (vm_compute; reflexivity).
  pose proof (get_new_trx_ids_consecutive 3 _ H0 Hn) as P.
  split; [exact (proj1 P) | exact (proj2 (proj2 P))].
Defined.

Lemma get_new_trx_id_store_ok (s : Trx_sys) :
  0 <= m_max_trx_id s < TRX_ID_MODULUS - 1 ->
  trx_id_store_ok s ->
  trx_id_store_ok (snd (get_new_trx_id s)) /\
  fst (get_new_trx_id s)
    < hdr_trx_id_store (snd (get_new_trx_id s)) + TRX_SYS_TRX_ID_WRITE_MARGIN /\
  hdr_trx_id_store s <= hdr_trx_id_store (snd (get_new_trx_id s)).
Proof.
  intros Hr (Hm & Hlo & Hhi).
  unfold trx_id_store_ok, get_new_trx_id.
  destruct (Z.eqb_spec (m_max_trx_id s mod TRX_SYS_TRX_ID_WRITE_MARGIN) 0)
    as [E | E]; cbn [fst snd m_max_trx_id hdr_trx_id_store flush_max_trx_id];
    rewrite (Z.mod_small (_ + 1)) by lia.
  - unfold TRX_SYS_TRX_ID_WRITE_MARGIN in *. repeat split; lia.
  - assert (m_max_trx_id s <> hdr_trx_id_store s) by congruence.
    assert (m_max_trx_id s
            <> hdr_trx_id_store s + TRX_SYS_TRX_ID_WRITE_MARGIN).
    { intros Heq. apply E. rewrite Heq.
      unfold TRX_SYS_TRX_ID_WRITE_MARGIN in *.
      rewrite <- Z.add_mod_idemp_l, Hm by lia. reflexivity. }
    repeat split; lia.
Qed.

(** X6: if the header copy of the counter is a multiple of 256 and at most
    256 behind the counter, then after any number of calls of
    [get_new_trx_id] (the 64-bit counter not wrapping) this is still so, and
    every id handed out lies below the header copy plus 256: a restart that
    resumes one margin above the header copy reuses no id. *)
Theorem get_new_trx_ids_below_ceiling (n : nat) (s : Trx_sys) :
  trx_id_store_ok s ->
  0 <= m_max_trx_id s ->
  m_max_trx_id s + Z.of_nat n < TRX_ID_MODULUS ->
  let r := get_new_trx_ids n s in
  trx_id_store_ok (snd r) /\
  hdr_trx_id_store s <= hdr_trx_id_store (snd r) /\
  Forall (fun id => id < hdr_trx_id_store (snd r) + TRX_SYS_TRX_ID_WRITE_MARGIN)
    (fst r).
Proof.
  revert s. induction n as [| n IH]; intros s Hok H0 Hn r; subst r.
  - simpl. split; [exact Hok |]. split; [lia | constructor].
  - assert (Hr : 0 <= m_max_trx_id s < TRX_ID_MODULUS - 1) by lia.
    pose proof (get_new_trx_id_next s Hr) as Hnext.
    destruct (get_new_trx_id_store_ok s Hr Hok) as (Hok1 & Hid & Hmono).
    rewrite get_new_trx_ids_S. cbn [fst snd].
    destruct (IH (snd (get_new_trx_id s)) Hok1 ltac:(lia) ltac:(lia))
      as (Hok2 & Hmono2 & Hall).
    split; [exact Hok2 |]. split; [lia |].
    constructor; [lia | exact Hall].
Qed.

Lemma get_new_trx_ids_below_ceiling_witness :
  Forall (fun id =>
            id < hdr_trx_id_store
                   (snd (get_new_trx_ids 300 (trx_sys_started_at 256)))
                 + TRX_SYS_TRX_ID_WRITE_MARGIN)
    (fst (get_new_trx_ids 300 (trx_sys_started_at 256))).
Proof.
  assert (Hok : trx_id_store_ok (trx_sys_started_at 256)).
  { unfold trx_id_store_ok. simpl. split; [reflexivity |].
    unfold TRX_SYS_TRX_ID_WRITE_MARGIN. lia. }
  assert (H0 : 0 <= m_max_trx_id (trx_sys_started_at 256))
    by (vm_compute; discriminate).
  assert (Hn : m_max_trx_id (trx_sys_started_at 256) + Z.of_nat 300
               < TRX_ID_MODULUS) by (vm_compute; reflexivity).
  exact (proj2 (proj2 (get_new_trx_ids_below_ceiling 300 _ Hok H0 Hn))).
Defined.

(** *** Hash table *)

Section HashTableProofs.

Context {mem_heap_t : Type}.
Variable mem_heap_alloc : mem_heap_t -> Z -> option mem_heap_t.
Variable sizeof_ha_node_t : Z.
Variable hash_calc_hash : Z -> hash_table_t mem_heap_t -> nat.
Variable hash_get_mutex_no : hash_table_t mem_heap_t -> Z -> nat.

Lemma ha_chain_link_last_app (chain : list ha_node_t) (node : ha_node_t) :
  ha_chain_link_last chain node = chain ++ [node].
Proof.
  induction chain as [| n rest IH]; simpl; [reflexivity | now rewrite IH].
Qed.

Lemma ha_chain_set_data_None (chain : list ha_node_t) (f d : Z) :
  ha_chain_set_data chain f d = None <->
  Forall (fun n => fold n <> f) chain.
Proof.
  induction chain as [| n rest IH]; simpl.
  - split; [constructor | reflexivity].
  - destruct (Z.eqb_spec (fold n) f) as [E | E].
    + split; [discriminate |].
      intros H. inversion H; subst. congruence.
    + destruct (ha_chain_set_data rest f d) eqn:R.
      * split; [discriminate |].
        intros H. inversion H; subst.
        destruct IH as [_ IH]. specialize (IH ltac:(assumption)). discriminate.
      * split; [| reflexivity].
        intros _. constructor; [exact E | now apply IH].
Qed.

Lemma ha_chain_set_data_Some (chain chain' : list ha_node_t) (f d : Z) :
  ha_chain_set_data chain f d = Some chain' <->
  exists l1 n l2,
    chain = l1 ++ n :: l2 /\
    Forall (fun m => fold m <> f) l1 /\
    fold n = f /\
    chain' = l1 ++ {| fold := f; data := d |} :: l2.
Proof.
  revert chain'.
  induction chain as [| n rest IH]; intros chain'; simpl.
  - split; [discriminate |].
    intros (l1 & m & l2 & E & _). destruct l1; discriminate.
  - destruct (Z.eqb_spec (fold n) f) as [E | E].
    + split.
      * intros [= <-]. exists [], n, rest. rewrite E. simpl. auto.
      * intros (l1 & m & l2 & Hc & Hl1 & Hm & ->).
        destruct l1 as [| x l1]; simpl in Hc; injection Hc as -> ->.
        -- simpl. now rewrite Hm.
        -- inversion Hl1; subst. congruence.
    + destruct (ha_chain_set_data rest f d) as [rest' |] eqn:R.
      * split.
        -- intros [= <-].
           destruct (proj1 (IH rest') eq_refl)
             as (l1 & m & l2 & -> & Hl1 & Hm & ->).
           exists (n :: l1), m, l2. simpl. repeat split; auto.
        -- intros (l1 & m & l2 & Hc & Hl1 & Hm & ->).
           destruct l1 as [| x l1]; simpl in Hc; injection Hc as -> ->;
             [congruence |].
           inversion Hl1; subst.
           assert (Some rest'
                   = Some (l1 ++ {| fold := fold m; data := d |} :: l2))
             as [= ->]; [| reflexivity].
           apply IH. exists l1, m, l2. auto.
      * split; [discriminate |].
        intros (l1 & m & l2 & Hc & Hl1 & Hm & ->).
        destruct l1 as [| x l1]; simpl in Hc; injection Hc as -> ->;
          [congruence |].
        inversion Hl1; subst.
        assert (None = Some (l1 ++ {| fold := fold m; data := d |} :: l2));
          [| discriminate].
        apply IH. exists l1, m, l2. auto.
Qed.

Lemma ha_chain_set_data_Exists (chain : list ha_node_t) (f d : Z) :
  Exists (fun n => fold n = f) chain ->
  exists chain', ha_chain_set_data chain f d = Some chain'.
Proof.
  intros Hex.
  destruct (ha_chain_set_data chain f d) as [chain' |] eqn:R; [eauto |].
  apply ha_chain_set_data_None in R.
  apply Exists_exists in Hex as (n & Hin & Hn).
  rewrite Forall_forall in R. destruct (R n Hin Hn).
Qed.

(** C7: with the cell and the stripe's arena in place, an insert whose fold
    is already in the chain overwrites the data of the first such node,
    leaves the arenas alone and returns true; otherwise it allocates from
    the stripe's arena and links the new node after the last one, and
    returns false, with the table untouched, exactly when the allocation
    yields NULL.  The call always returns. *)
Theorem ha_insert_for_fold_spec
    (table : hash_table_t mem_heap_t) (f d : Z)
    (chain : list ha_node_t) (h : mem_heap_t) :
  d <> 0 ->
  cells table !! hash_calc_hash f table = Some chain ->
  hash_get_heap hash_get_mutex_no table f = Some h ->
  let hash := hash_calc_hash f table in
  let r := ha_insert_for_fold_func mem_heap_alloc sizeof_ha_node_t
             hash_calc_hash hash_get_mutex_no table f d in
  (Exists (fun n => fold n = f) chain ->
   exists l1 n l2,
     chain = l1 ++ n :: l2 /\
     Forall (fun m => fold m <> f) l1 /\
     fold n = f /\
     r = Some (true,
               {| cells := <[hash := l1 ++ {| fold := f; data := d |} :: l2]>
                             (cells table);
                  heap := heap table; heaps := heaps table |})) /\
  (Forall (fun n => fold n <> f) chain ->
   match mem_heap_alloc h sizeof_ha_node_t with
   | None => r = Some (false, table)
   | Some h' =>
       r = Some (true,
                 hash_set_nth_cell (hash_set_heap hash_get_mutex_no table f h')
                   hash (chain ++ [{| fold := f; data := d |}]))
   end) /\
  (forall table',
     r = Some (false, table') <->
     Forall (fun n => fold n <> f) chain /\
     mem_heap_alloc h sizeof_ha_node_t = None /\ table' = table) /\
  (exists b table', r = Some (b, table')).
Proof.
  intros _ Hcell Hheap hash r. subst r hash.
  unfold ha_insert_for_fold_func. rewrite Hcell.
  destruct (ha_chain_set_data chain f d) as [chain' |] eqn:R.
  - pose proof (proj1 (ha_chain_set_data_Some _ _ _ _) R)
      as (l1 & n & l2 & Hc & Hl1 & Hn & ->).
    split; [| split; [| split]].
    + intros _. exists l1, n, l2. repeat split; auto.
    + intros Hall. apply ha_chain_set_data_None with (d := d) in Hall.
      congruence.
    + intros table'. split; [discriminate |].
      intros (Hall & _). apply ha_chain_set_data_None with (d := d) in Hall.
      congruence.
    + eauto.
  - rewrite Hheap.
    pose proof (proj1 (ha_chain_set_data_None _ _ _) R) as Hall.
    split; [| split; [| split]].
    + intros Hex. apply ha_chain_set_data_Exists with (d := d) in Hex
        as (chain' & Hex). congruence.
    + intros _. destruct (mem_heap_alloc h sizeof_ha_node_t); [| reflexivity].
      now rewrite ha_chain_link_last_app.
    + intros table'.
      destruct (mem_heap_alloc h sizeof_ha_node_t).
      * split; [discriminate | intros (_ & ? & _); discriminate].
      * split; [intros [= <-]; auto | intros (_ & _ & ->); reflexivity].
    + destruct (mem_heap_alloc h sizeof_ha_node_t); eauto.
Qed.

End HashTableProofs.

(** An insert of fold 7, which the chain of cell 1 already holds. *)
Lemma ha_insert_for_fold_spec_witness :
  exists l1 n l2,
    [{| fold := 4; data := 100 |}; {| fold := 7; data := 200 |}]
      = l1 ++ n :: l2 /\
    ha_insert_counting ha_table_example 7 300 =
      Some (true,
            {| cells := <[1%nat := l1 ++ {| fold := 7; data := 300 |} :: l2]>
                          (cells ha_table_example);
               heap := Some 1%nat; heaps := [] |}).
Proof.
  destruct (ha_insert_for_fold_spec counting_heap_alloc 16 mod_hash_calc_hash
              single_stripe ha_table_example 7 300
              [{| fold := 4; data := 100 |}; {| fold := 7; data := 200 |}]
              1%nat ltac:(discriminate) eq_refl eq_refl)
    as [Hfound _].
  destruct Hfound as (l1 & n & l2 & Hc & _ & _ & Hr).
  - apply Exists_cons_tl, Exists_cons_hd. reflexivity.
  - exists l1, n, l2. split; [exact Hc | exact Hr].
Defined.

(** A fold that is not in its chain takes the last node the arena holds
    and is linked after the last node of the chain; the next such insert
    finds the arena exhausted and is rejected, the table unchanged. *)
Example ha_insert_new_fold_then_exhausted :
  ha_insert_counting ha_table_example 10 300 =
    Some (true,
          {| cells := [[]; [{| fold := 4; data := 100 |};
                            {| fold := 7; data := 200 |};
                            {| fold := 10; data := 300 |}]; []];
             heap := Some 0%nat; heaps := [] |}) /\
  ha_insert_counting
    {| cells := [[]; [{| fold := 4; data := 100 |};
                      {| fold := 7; data := 200 |};
                      {| fold := 10; data := 300 |}]; []];
       heap := Some 0%nat; heaps := [] |} 13 400 =
    Some (false,
          {| cells := [[]; [{| fold := 4; data := 100 |};
                            {| fold := 7; data := 200 |};
                            {| fold := 10; data := 300 |}]; []];
             heap := Some 0%nat; heaps := [] |}).
Proof. vm_compute. split; reflexivity. Qed.

(** **** Maintenance of the table *)

Section HashValidateProofs.

Context {mem_heap_t : Type}.
Variable hash_calc_hash : Z -> hash_table_t mem_heap_t -> nat.

Lemma ha_validate_chain_spec (table : hash_table_t mem_heap_t) (i : nat)
    (chain : list ha_node_t) (ok : bool) :
  ha_validate_chain hash_calc_hash table i chain ok = true <->
  ok = true /\ chain_in_cell hash_calc_hash table i chain.
Proof.
  unfold chain_in_cell. revert ok.
  induction chain as [| node rest IH]; intros ok; simpl.
  - split; [intros ->; split; [reflexivity | constructor] | tauto].
  - rewrite IH.
    destruct (Nat.eqb_spec (hash_calc_hash (fold node) table) i) as [E | E];
      simpl.
    + split.
      * intros [-> H]. split; [reflexivity | constructor; assumption].
      * intros [-> H]. inversion H; subst. auto.
    + split; [intros [? _]; discriminate |].
      intros [_ H]. inversion H; subst. contradiction.
Qed.

Lemma ha_validate_cells_spec (table : hash_table_t mem_heap_t) (n i : nat)
    (ok : bool) :
  (i + n <= length (cells table))%nat ->
  exists b,
    ha_validate_cells hash_calc_hash table i n ok = Some b /\
    (b = true <->
     ok = true /\
     forall j chain,
       (i <= j < i + n)%nat -> cells table !! j = Some chain ->
       chain_in_cell hash_calc_hash table j chain).
Proof.
  revert i ok. induction n as [| n IH]; intros i ok Hlen; simpl.
  - exists ok. split; [reflexivity |]. split.
    + intros ->. split; [reflexivity |]. intros j chain Hj. lia.
    + tauto.
  - destruct (lookup_lt_is_Some_2 (cells table) i ltac:(lia)) as [chain Hc].
    rewrite Hc.
    destruct (IH (S i) (ha_validate_chain hash_calc_hash table i chain ok)
                ltac:(lia)) as (b & Hb & Hiff).
    exists b. split; [exact Hb |].
    rewrite Hiff, ha_validate_chain_spec. split.
    + intros [[-> Hi] Hrest]. split; [reflexivity |].
      intros j chain' Hj Hc'.
      destruct (Nat.eq_dec j i) as [-> | Hne].
      * rewrite Hc in Hc'. injection Hc' as <-. exact Hi.
      * apply Hrest; [lia | exact Hc'].
    + intros [-> Hall]. split; [split; [reflexivity |] |].
      * apply Hall; [lia | exact Hc].
      * intros j chain' Hj. apply Hall. lia.
Qed.

Lemma ha_validate_in_range (table : hash_table_t mem_heap_t)
    (start_index end_index : nat) :
  (start_index <= end_index < length (cells table))%nat ->
  exists b,
    ha_validate hash_calc_hash table start_index end_index = Some b /\
    (b = true <->
     forall j chain,
       (start_index <= j <= end_index)%nat ->
       cells table !! j = Some chain ->
       chain_in_cell hash_calc_hash table j chain).
Proof.
  unfold ha_validate, hash_get_n_cells. intros [Hse He].
  destruct (Nat.leb_spec start_index end_index); [| lia].
  destruct (Nat.ltb_spec start_index (length (cells table))); [| lia].
  destruct (Nat.ltb_spec end_index (length (cells table))); [| lia].
  simpl andb. cbv iota.
  destruct (ha_validate_cells_spec table (S (end_index - start_index))
              start_index true ltac:(lia)) as (b & Hb & Hiff).
  exists b. split; [exact Hb |]. rewrite Hiff. split.
  - intros [_ Hall] j chain Hj. apply Hall. lia.
  - intros Hall. split; [reflexivity |]. intros j chain Hj. apply Hall. lia.
Qed.

(** X7: [ha_validate] dies in an assertion unless
    [start_index <= end_index] and both lie inside the cell array;
    otherwise it returns, and returns true exactly when every node of every
    chain of the cells [start_index .. end_index] has a fold that hashes to
    the number of its cell. *)
Theorem ha_validate_spec (table : hash_table_t mem_heap_t)
    (start_index end_index : nat) :
  let in_range :=
    (start_index <= end_index < length (cells table))%nat in
  (in_range ->
   exists b,
     ha_validate hash_calc_hash table start_index end_index = Some b /\
     (b = true <->
      forall j chain,
        (start_index <= j <= end_index)%nat ->
        cells table !! j = Some chain ->
        Forall (fun node => hash_calc_hash (fold node) table = j) chain)) /\
  (~ in_range ->
   ha_validate hash_calc_hash table start_index end_index = None).
Proof.
  intros in_range. subst in_range. split.
  - apply ha_validate_in_range.
  - intros Hn. unfold ha_validate, hash_get_n_cells.
    destruct (Nat.leb_spec start_index end_index); [| reflexivity].
    destruct (Nat.ltb_spec start_index (length (cells table)));
      [| reflexivity].
    destruct (Nat.ltb_spec end_index (length (cells table)));
      [| reflexivity].
    lia.
Qed.

Lemma ha_table_valid_iff (table : hash_table_t mem_heap_t) :
  ha_table_valid hash_calc_hash table <->
  cells table <> [] /\
  forall j chain,
    cells table !! j = Some chain ->
    chain_in_cell hash_calc_hash table j chain.
Proof.
  unfold ha_table_valid, hash_get_n_cells.
  destruct (cells table) as [| c cs] eqn:Ec.
  - unfold ha_validate, hash_get_n_cells. rewrite Ec. simpl.
    split; [discriminate | intros [[] _]]. reflexivity.
  - destruct (ha_validate_in_range table 0 (length (cells table) - 1))
      as (b & Hb & Hiff); [rewrite Ec; simpl; lia |].
    rewrite Ec in Hb, Hiff. rewrite Hb. split.
    + intros [= ->]. split; [discriminate |].
      intros j chain Hc. apply (proj1 Hiff eq_refl j chain); [| exact Hc].
      apply lookup_lt_Some in Hc. simpl in *. lia.
    + intros [_ Hall]. f_equal. apply Hiff. intros j chain _. apply Hall.
Qed.

End HashValidateProofs.

Section HashInsertProofs.

Context {mem_heap_t : Type}.
Variable mem_heap_alloc : mem_heap_t -> Z -> option mem_heap_t.
Variable sizeof_ha_node_t : Z.
Variable hash_calc_hash : Z -> hash_table_t mem_heap_t -> nat.
Variable hash_get_mutex_no : hash_table_t mem_heap_t -> Z -> nat.

Lemma ha_insert_cells (table table' : hash_table_t mem_heap_t) (f d : Z)
    (b : bool) :
  ha_insert_for_fold_func mem_heap_alloc sizeof_ha_node_t hash_calc_hash
    hash_get_mutex_no table f d = Some (b, table') ->
  exists chain,
    cells table !! hash_calc_hash f table = Some chain /\
    ((b = false /\ table' = table /\
      ha_chain_set_data chain f d = None) \/
     (b = true /\
      exists chain',
        cells table' = <[hash_calc_hash f table := chain']> (cells table) /\
        (ha_chain_set_data chain f d = Some chain' /\
         heap table' = heap table /\ heaps table' = heaps table \/
         ha_chain_set_data chain f d = None /\
         chain' = chain ++ [{| fold := f; data := d |}]))).
Proof.
  unfold ha_insert_for_fold_func.
  destruct (cells table !! hash_calc_hash f table) as [chain |] eqn:Hc;
    [| discriminate].
  intros H. exists chain. split; [reflexivity |].
  destruct (ha_chain_set_data chain f d) as [chain' |] eqn:Hs.
  - injection H as <- <-. right. split; [reflexivity |].
    exists chain'. split; [reflexivity |]. left. auto.
  - destruct (hash_get_heap hash_get_mutex_no table f) as [h |];
      [| discriminate].
    destruct (mem_heap_alloc h sizeof_ha_node_t) as [h' |].
    + injection H as <- <-. right. split; [reflexivity |].
      exists (chain ++ [{| fold := f; data := d |}]). split.
      * rewrite <- ha_chain_link_last_app.
        unfold hash_set_nth_cell, hash_set_heap. simpl.
        destruct (heap table); reflexivity.
      * right. auto.
    + injection H as <- <-. left. auto.
Qed.

(** X8: when the cell number of a fold depends on the table through the
    number of its cells only, [ha_insert_for_fold_func] keeps the table
    valid: if every node sat in the cell of its fold before the call, every
    node, the new one included, does after it. *)
Theorem ha_insert_for_fold_keeps_valid
    (table table' : hash_table_t mem_heap_t) (f d : Z) (b : bool) :
  hash_by_n_cells hash_calc_hash ->
  ha_table_valid hash_calc_hash table ->
  ha_insert_for_fold_func mem_heap_alloc sizeof_ha_node_t hash_calc_hash
    hash_get_mutex_no table f d = Some (b, table') ->
  ha_table_valid hash_calc_hash table'.
Proof.
  intros Hhash Hvalid Hins.
  apply ha_table_valid_iff in Hvalid as [Hne Hall].
  apply ha_insert_cells in Hins
    as (chain & Hc & [(-> & -> & _) | (-> & chain' & Hcells & Hcase)]).
  { apply ha_table_valid_iff. auto. }
  assert (Hlen : length (cells table') = length (cells table))
    by (rewrite Hcells; apply length_insert).
  assert (Hh : forall g, hash_calc_hash g table' = hash_calc_hash g table)
    by (intros g; apply Hhash; exact Hlen).
  apply ha_table_valid_iff. split.
  { intros E. rewrite E in Hlen.
    destruct (cells table); [auto | discriminate]. }
  intros j chainj Hj. unfold chain_in_cell.
  rewrite Hcells in Hj.
  destruct (Nat.eq_dec j (hash_calc_hash f table)) as [-> | Hne'].
  - rewrite list_lookup_insert_eq in Hj
      by (apply lookup_lt_Some in Hc; exact Hc).
    injection Hj as <-.
    specialize (Hall _ _ Hc). unfold chain_in_cell in Hall.
    destruct Hcase as [(Hs & _) | (_ & ->)].
    + apply ha_chain_set_data_Some in Hs
        as (l1 & n & l2 & -> & _ & Hn & ->).
      rewrite Forall_app in Hall |- *. destruct Hall as [H1 H2].
      split; [eapply Forall_impl; [exact H1 |]; intros x; rewrite Hh; auto |].
      inversion H2; subst.
      constructor; [simpl; rewrite Hh; assumption |].
      eapply Forall_impl; [eassumption |]. intros x. rewrite Hh. auto.
    + rewrite Forall_app. split.
      * eapply Forall_impl; [exact Hall |]. intros x. rewrite Hh. auto.
      * constructor; [simpl; apply Hh | constructor].
  - rewrite list_lookup_insert_ne in Hj by auto.
    specialize (Hall _ _ Hj).
    eapply Forall_impl; [exact Hall |]. intros x. rewrite Hh. auto.
Qed.

Lemma ha_chain_set_data_folds (chain chain' : list ha_node_t) (f d : Z) :
  ha_chain_set_data chain f d = Some chain' ->
  map fold chain' = map fold chain.
Proof.
  intros H. apply ha_chain_set_data_Some in H
    as (l1 & n & l2 & -> & _ & Hn & ->).
  rewrite !map_app. simpl. now rewrite Hn.
Qed.

Lemma filter_fold_none (chain : list ha_node_t) (f : Z) :
  Forall (fun n => fold n <> f) chain ->
  List.filter (fun n => fold n =? f) chain = [].
Proof.
  induction 1 as [| n l Hn _ IH]; simpl; [reflexivity |].
  destruct (Z.eqb_spec (fold n) f); [contradiction | exact IH].
Qed.

Lemma fold_not_in_chain (chain : list ha_node_t) (f : Z) :
  Forall (fun n => fold n <> f) chain <-> f ∉ map fold chain.
Proof.
  induction chain as [| n l IH]; simpl.
  - split; [intros _; apply not_elem_of_nil | constructor].
  - rewrite not_elem_of_cons, Forall_cons, IH.
    split; intros [? ?]; split; auto.
Qed.

Lemma lookup_insert_inv {A : Type} (l : list A) (i j : nat) (x y : A) :
  <[i := x]> l !! j = Some y -> y = x \/ l !! j = Some y.
Proof.
  intros H. destruct (Nat.eq_dec i j) as [-> | Hne].
  - left. destruct (lookup_lt_is_Some_2 l j) as [z Hz].
    + apply lookup_lt_Some in H. now rewrite length_insert in H.
    + rewrite list_lookup_insert_eq in H by (eapply lookup_lt_Some; eauto).
      congruence.
  - right. now rewrite list_lookup_insert_ne in H.
Qed.

(** X9: [ha_insert_for_fold_func] keeps the folds of every chain distinct,
    and after an insert that returned true the chain of the fold's cell
    holds exactly one node with that fold, carrying the data of the
    call. *)
Theorem ha_insert_for_fold_keeps_distinct
    (table table' : hash_table_t mem_heap_t) (f d : Z) (b : bool) :
  ha_chains_distinct table ->
  ha_insert_for_fold_func mem_heap_alloc sizeof_ha_node_t hash_calc_hash
    hash_get_mutex_no table f d = Some (b, table') ->
  ha_chains_distinct table' /\
  (b = true ->
   exists chain',
     cells table' !! hash_calc_hash f table = Some chain' /\
     List.filter (fun n => fold n =? f) chain' = [{| fold := f; data := d |}]).
Proof.
  unfold ha_chains_distinct. intros Hd Hins.
  apply ha_insert_cells in Hins
    as (chain & Hc & [(-> & -> & _) | (-> & chain' & Hcells & Hcase)]).
  { split; [exact Hd | discriminate]. }
  rewrite Forall_lookup in Hd.
  pose proof (Hd _ _ Hc) as Hchain. simpl in Hchain.
  assert (Hlt : (hash_calc_hash f table < length (cells table))%nat)
    by (apply lookup_lt_Some in Hc; exact Hc).
  assert (Hnew : NoDup (map fold chain') /\
                 List.filter (fun n => fold n =? f) chain'
                   = [{| fold := f; data := d |}]).
  { destruct Hcase as [(Hs & _) | (Hs & ->)].
    - split; [rewrite (ha_chain_set_data_folds _ _ _ _ Hs); exact Hchain |].
      apply ha_chain_set_data_Some in Hs
        as (l1 & n & l2 & -> & Hl1 & Hn & ->).
      rewrite List.filter_app, (filter_fold_none l1 f Hl1). simpl.
      rewrite Z.eqb_refl. f_equal. apply filter_fold_none.
      rewrite map_app in Hchain. apply NoDup_app in Hchain as (_ & _ & H2).
      simpl in H2. apply NoDup_cons in H2 as [Hnot _].
      apply fold_not_in_chain. now rewrite <- Hn.
    - apply ha_chain_set_data_None in Hs.
      split.
      + rewrite map_app. simpl. apply NoDup_app. split; [exact Hchain |].
        split; [| apply NoDup_singleton].
        intros x Hx Hx'. apply list_elem_of_singleton in Hx'. subst x.
        apply fold_not_in_chain in Hs. contradiction.
      + rewrite List.filter_app, (filter_fold_none chain f Hs). simpl.
        now rewrite Z.eqb_refl. }
  split.
  - rewrite Hcells. rewrite Forall_lookup. intros j c Hj.
    apply lookup_insert_inv in Hj as [-> | Hj]; [apply Hnew |].
    exact (Hd _ _ Hj).
  - intros _. exists chain'. split; [| apply Hnew].
    rewrite Hcells. apply list_lookup_insert_eq. exact Hlt.
Qed.

Lemma ha_chain_set_data_again (chain chain' : list ha_node_t) (f d d2 : Z) :
  ha_chain_set_data chain f d = Some chain' ->
  exists chain'',
    ha_chain_set_data chain' f d2 = Some chain'' /\
    length chain'' = length chain' /\
    (d2 = d -> chain'' = chain').
Proof.
  intros H. apply ha_chain_set_data_Some in H
    as (l1 & n & l2 & -> & Hl1 & Hn & ->).
  exists (l1 ++ {| fold := f; data := d2 |} :: l2). split; [| split].
  - apply ha_chain_set_data_Some.
    exists l1, {| fold := f; data := d |}, l2. auto.
  - rewrite !length_app. reflexivity.
  - intros ->. reflexivity.
Qed.

(** X10: an insert that follows a successful insert of the same fold finds
    the node of the fold: it returns true whatever the arena holds, takes
    nothing from the arenas and adds no node; with the same data it leaves
    the table as it is. *)
Theorem ha_insert_for_fold_again
    (table table1 : hash_table_t mem_heap_t) (f d d2 : Z) :
  hash_by_n_cells hash_calc_hash ->
  ha_insert_for_fold_func mem_heap_alloc sizeof_ha_node_t hash_calc_hash
    hash_get_mutex_no table f d = Some (true, table1) ->
  exists table2 chain1 chain2,
    ha_insert_for_fold_func mem_heap_alloc sizeof_ha_node_t hash_calc_hash
      hash_get_mutex_no table1 f d2 = Some (true, table2) /\
    heap table2 = heap table1 /\ heaps table2 = heaps table1 /\
    cells table1 !! hash_calc_hash f table = Some chain1 /\
    cells table2 = <[hash_calc_hash f table := chain2]> (cells table1) /\
    length chain2 = length chain1 /\
    (d2 = d -> table2 = table1).
Proof.
  intros Hhash Hins.
  apply ha_insert_cells in Hins
    as (chain & Hc & [(? & _) | (_ & chain1 & Hcells & Hcase)]);
    [discriminate |].
  assert (Hlt : (hash_calc_hash f table < length (cells table))%nat)
    by (apply lookup_lt_Some in Hc; exact Hc).
  assert (Hh : hash_calc_hash f table1 = hash_calc_hash f table).
  { apply Hhash. rewrite Hcells. apply length_insert. }
  assert (Hc1 : cells table1 !! hash_calc_hash f table1 = Some chain1).
  { rewrite Hh, Hcells. apply list_lookup_insert_eq. exact Hlt. }
  assert (Hset : exists chain0, ha_chain_set_data chain0 f d = Some chain1).
  { destruct Hcase as [(Hs & _) | (Hs & ->)]; [eauto |].
    exists (chain ++ [{| fold := f; data := 0 |}]).
    apply ha_chain_set_data_Some.
    exists chain, {| fold := f; data := 0 |}, [].
    apply ha_chain_set_data_None in Hs. auto. }
  destruct Hset as (chain0 & Hset).
  destruct (ha_chain_set_data_again _ _ f d d2 Hset)
    as (chain2 & Hs2 & Hlen & Hsame).
  exists (hash_set_nth_cell table1 (hash_calc_hash f table1) chain2),
    chain1, chain2.
  split; [| split; [| split; [| split; [| split; [| split]]]]].
  - unfold ha_insert_for_fold_func. rewrite Hc1, Hs2. reflexivity.
  - reflexivity.
  - reflexivity.
  - rewrite <- Hh. exact Hc1.
  - rewrite Hh. reflexivity.
  - exact Hlen.
  - intros E. rewrite (Hsame E). unfold hash_set_nth_cell.
    rewrite (list_insert_id _ _ _ Hc1). destruct table1; reflexivity.
Qed.

(** X11: [ha_insert_for_fold_func] touches no cell but the one of its
    fold, and in that chain neither drops nor moves a node nor changes a
    node of another fold: the nodes of the other folds are the same, in the
    same order, and the folds of the chain are those of before, followed by
    the new fold when a node was added. *)
Theorem ha_insert_for_fold_frame
    (table table' : hash_table_t mem_heap_t) (f d : Z) (b : bool) :
  ha_insert_for_fold_func mem_heap_alloc sizeof_ha_node_t hash_calc_hash
    hash_get_mutex_no table f d = Some (b, table') ->
  let hash := hash_calc_hash f table in
  length (cells table') = length (cells table) /\
  (forall i, i <> hash -> cells table' !! i = cells table !! i) /\
  exists chain chain',
    cells table !! hash = Some chain /\
    cells table' !! hash = Some chain' /\
    List.filter (fun n => negb (fold n =? f)) chain'
      = List.filter (fun n => negb (fold n =? f)) chain /\
    (map fold chain' = map fold chain \/
     Forall (fun n => fold n <> f) chain /\
     map fold chain' = map fold chain ++ [f]).
Proof.
  intros Hins hash. subst hash.
  apply ha_insert_cells in Hins
    as (chain & Hc & [(-> & -> & _) | (-> & chain' & Hcells & Hcase)]).
  { split; [reflexivity |]. split; [reflexivity |].
    exists chain, chain. auto. }
  assert (Hlt : (hash_calc_hash f table < length (cells table))%nat)
    by (apply lookup_lt_Some in Hc; exact Hc).
  rewrite Hcells. split; [apply length_insert |].
  split; [intros i Hi; apply list_lookup_insert_ne; auto |].
  exists chain, chain'. split; [exact Hc |].
  split; [apply list_lookup_insert_eq; exact Hlt |].
  destruct Hcase as [(Hs & _) | (Hs & ->)].
  - split; [| left; eapply ha_chain_set_data_folds; exact Hs].
    apply ha_chain_set_data_Some in Hs
      as (l1 & n & l2 & -> & _ & Hn & ->).
    rewrite !List.filter_app. simpl. rewrite Hn, Z.eqb_refl. reflexivity.
  - apply ha_chain_set_data_None in Hs. split.
    + rewrite List.filter_app. simpl. rewrite Z.eqb_refl. simpl.
      apply app_nil_r.
    + right. split; [exact Hs |]. rewrite map_app. reflexivity.
Qed.

Section HashClearProofs.

Variable mem_heap_free : mem_heap_t -> mem_heap_t.


End HashClearProofs.

End HashInsertProofs.

Section HashRemoveProofs.

Context {mem_heap_t : Type}.
Variable hash_calc_hash : Z -> hash_table_t mem_heap_t -> nat.
Variable page_align : Z -> Z.
Variable ha_delete_hash_node :
  hash_table_t mem_heap_t -> nat -> nat -> hash_table_t mem_heap_t.

Lemma filter_not_on_page_delete (page : Z) (chain : list ha_node_t)
    (pos : nat) (node : ha_node_t) :
  chain !! pos = Some node ->
  not_on_page page_align page node = false ->
  List.filter (not_on_page page_align page) (delete pos chain)
    = List.filter (not_on_page page_align page) chain.
Proof.
  revert pos. induction chain as [| n l IH]; intros pos Hp Hn;
    [discriminate |].
  destruct pos as [| pos]; simpl in *.
  - injection Hp as ->. now rewrite Hn.
  - rewrite (IH pos Hp Hn). reflexivity.
Qed.

Lemma filter_not_on_page_all (page : Z) (chain : list ha_node_t) :
  Forall (fun n => not_on_page page_align page n = true) chain ->
  List.filter (not_on_page page_align page) chain = chain.
Proof.
  induction 1 as [| n l Hn _ IH]; simpl; [reflexivity |].
  now rewrite Hn, IH.
Qed.

Lemma ha_remove_all_nodes_to_page_loop_spec (page f : Z) :
  hash_by_n_cells hash_calc_hash ->
  deletes_from_chain ha_delete_hash_node ->
  forall (fuel : nat) (table : hash_table_t mem_heap_t) (pos : nat)
         (chain : list ha_node_t),
    cells table !! hash_calc_hash f table = Some chain ->
    (pos <= length chain)%nat ->
    Forall (fun n => not_on_page page_align page n = true) (take pos chain) ->
    ((length chain + 1) * (length chain + 1) - pos <= fuel)%nat ->
    exists table',
      ha_remove_all_nodes_to_page_loop hash_calc_hash page_align
        ha_delete_hash_node fuel table f page pos = Some table' /\
      cells table'
        = <[hash_calc_hash f table :=
              List.filter (not_on_page page_align page) chain]>
            (cells table).
Proof.
  intros Hhash Hdel fuel.
  induction fuel as [| fuel IH]; intros table pos chain Hc Hpos Hpre Hfuel.
  { exfalso. nia. }
  simpl. rewrite Hc.
  destruct (chain !! pos) as [node |] eqn:Hnode.
  - pose proof (lookup_lt_Some _ _ _ Hnode) as Hlt.
    destruct (Z.eqb_spec (page_align (data node)) page) as [E | E].
    + set (t1 := ha_delete_hash_node table (hash_calc_hash f table) pos).
      pose proof (Hdel table _ pos chain Hc Hlt) as Hcells. fold t1 in Hcells.
      assert (Hl1 : length (cells t1) = length (cells table))
        by (rewrite Hcells; apply length_insert).
      assert (Hh : hash_calc_hash f t1 = hash_calc_hash f table)
        by (apply Hhash; exact Hl1).
      assert (Hc1 : cells t1 !! hash_calc_hash f t1
                    = Some (delete pos chain)).
      { rewrite Hh, Hcells. apply list_lookup_insert_eq.
        apply lookup_lt_Some in Hc. exact Hc. }
      assert (Hlen1 : (length (delete pos chain) = length chain - 1)%nat).
      { rewrite length_delete by eauto. reflexivity. }
      destruct (IH t1 0%nat (delete pos chain) Hc1 ltac:(lia)
                  ltac:(constructor) ltac:(rewrite Hlen1; nia))
        as (table' & Hrun & Hres).
      exists table'. split; [exact Hrun |].
      rewrite Hres, Hh, Hcells, list_insert_insert_eq. f_equal.
      apply (filter_not_on_page_delete page chain pos node Hnode).
      unfold not_on_page. apply Z.eqb_eq in E. now rewrite E.
    + destruct (IH table (S pos) chain Hc ltac:(lia)) as (table' & Hrun & Hres).
      * rewrite (take_S_r _ _ _ Hnode), Forall_app. split; [exact Hpre |].
        constructor; [| constructor].
        unfold not_on_page. apply Z.eqb_neq in E. now rewrite E.
      * nia.
      * exists table'. auto.
  - exists table. split; [reflexivity |].
    apply lookup_ge_None in Hnode.
    rewrite take_ge in Hpre by lia.
    rewrite (filter_not_on_page_all page chain Hpre).
    symmetry. apply list_insert_id. exact Hc.
Qed.

(** X13: when [ha_delete_hash_node] unlinks the node it is given from its
    chain and the cell number of a fold depends on the number of cells only,
    the loop of [ha_remove_all_nodes_to_page], which starts again from the
    first node after every deletion, ends: with fuel for the square of the
    chain's length plus one it returns, the chain of the fold's cell is then
    the nodes whose data does not lie on the page, in their order, and no
    other cell has changed. *)
Theorem ha_remove_all_nodes_to_page_spec
    (table : hash_table_t mem_heap_t) (f page : Z) (fuel : nat)
    (chain : list ha_node_t) :
  hash_by_n_cells hash_calc_hash ->
  deletes_from_chain ha_delete_hash_node ->
  cells table !! hash_calc_hash f table = Some chain ->
  ((length chain + 1) * (length chain + 1) <= fuel)%nat ->
  exists table',
    ha_remove_all_nodes_to_page hash_calc_hash page_align ha_delete_hash_node
      fuel table f page = Some table' /\
    cells table'
      = <[hash_calc_hash f table :=
            List.filter (not_on_page page_align page) chain]> (cells table) /\
    Forall (fun n => page_align (data n) <> page)
      (List.filter (not_on_page page_align page) chain).
Proof.
  intros Hhash Hdel Hc Hfuel.
  destruct (ha_remove_all_nodes_to_page_loop_spec page f Hhash Hdel fuel
              table 0%nat chain Hc ltac:(lia) ltac:(constructor)
              ltac:(lia)) as (table' & Hrun & Hres).
  exists table'. split; [exact Hrun |]. split; [exact Hres |].
  rewrite List.Forall_forall. intros n Hn.
  apply List.filter_In in Hn as [_ Hn]. unfold not_on_page in Hn.
  apply negb_true_iff, Z.eqb_neq in Hn. exact Hn.
Qed.

End HashRemoveProofs.

(** The insert of the new fold 10 into the valid example table. *)
Lemma ha_insert_for_fold_keeps_valid_witness :
  ha_table_valid mod_hash_calc_hash
    {| cells := [[]; [{| fold := 4; data := 100 |};
                      {| fold := 7; data := 200 |};
                      {| fold := 10; data := 300 |}]; []];
       heap := Some 0%nat; heaps := [] |}.
Proof.
  apply (ha_insert_for_fold_keeps_valid counting_heap_alloc 16
           mod_hash_calc_hash single_stripe ha_table_example _ 10 300 true).
  - intros f t t' Hlen. unfold mod_hash_calc_hash. now rewrite Hlen.
  - vm_compute. reflexivity.
  - vm_compute. reflexivity.
Defined.

(** The insert of fold 7, which the chain already holds. *)
Lemma ha_insert_for_fold_keeps_distinct_witness :
  ha_chains_distinct
    {| cells := [[]; [{| fold := 4; data := 100 |};
                      {| fold := 7; data := 300 |}]; []];
       heap := Some 1%nat; heaps := [] |}.
Proof.
  apply (ha_insert_for_fold_keeps_distinct counting_heap_alloc 16
           mod_hash_calc_hash single_stripe ha_table_example _ 7 300 true).
  - unfold ha_chains_distinct. apply (bool_decide_unpack _).
    vm_compute. exact I.
  - vm_compute. reflexivity.
Defined.

(** Fold 10 is inserted with the last node of the arena, then again with
    other data: the arena is exhausted and the insert succeeds. *)
Lemma ha_insert_for_fold_again_witness :
  exists table2,
    ha_insert_counting
      {| cells := [[]; [{| fold := 4; data := 100 |};
                        {| fold := 7; data := 200 |};
                        {| fold := 10; data := 300 |}]; []];
         heap := Some 0%nat; heaps := [] |} 10 400 = Some (true, table2) /\
    heap table2 = Some 0%nat.
Proof.
  destruct (ha_insert_for_fold_again counting_heap_alloc 16
              mod_hash_calc_hash single_stripe ha_table_example
              {| cells := [[]; [{| fold := 4; data := 100 |};
                                {| fold := 7; data := 200 |};
                                {| fold := 10; data := 300 |}]; []];
                 heap := Some 0%nat; heaps := [] |} 10 300 400)
    as (table2 & chain1 & chain2 & Hrun & Hheap & _).
  - intros f t t' Hlen. unfold mod_hash_calc_hash. now rewrite Hlen.
  - vm_compute. reflexivity.
  - exists table2. split; [exact Hrun | exact Hheap].
Defined.

(** The insert of the new fold 10 leaves the cell 2 alone. *)
Lemma ha_insert_for_fold_frame_witness :
  cells {| cells := [[]; [{| fold := 4; data := 100 |};
                          {| fold := 7; data := 200 |};
                          {| fold := 10; data := 300 |}]; []];
           heap := Some 0%nat; heaps := [] |} !! 2%nat
  = cells ha_table_example !! 2%nat.
Proof.
  apply (proj1 (proj2
    (ha_insert_for_fold_frame counting_heap_alloc 16 mod_hash_calc_hash
       single_stripe ha_table_example _ 10 300 true eq_refl))).
  discriminate.
Defined.

(** Of the four nodes of cell 1, three hold data on the page at 1000. *)
Lemma ha_remove_all_nodes_to_page_spec_witness :
  exists table',
    ha_remove_all_nodes_to_page mod_hash_calc_hash toy_ha_page_align
      counting_delete_hash_node 25 ha_table_pages 4 1000 = Some table' /\
    cells table' = [[]; [{| fold := 7; data := 2200 |}]; []].
Proof.
  destruct (ha_remove_all_nodes_to_page_spec mod_hash_calc_hash
              toy_ha_page_align counting_delete_hash_node ha_table_pages
              4 1000 25
              [{| fold := 4; data := 1100 |}; {| fold := 7; data := 2200 |};
               {| fold := 10; data := 1300 |}; {| fold := 13; data := 1001 |}])
    as (table' & Hrun & Hcells & _).
  - intros f t t' Hlen. unfold mod_hash_calc_hash. now rewrite Hlen.
  - intros table i pos chain Hc _. unfold counting_delete_hash_node. simpl.
    now rewrite Hc.
  - reflexivity.
  - simpl. lia.
  - exists table'. split; [exact Hrun | exact Hcells].
Defined.

(** The same run, evaluated: the three slots go back to the arena. *)
Example ha_remove_all_nodes_to_page_run :
  ha_remove_all_nodes_to_page mod_hash_calc_hash toy_ha_page_align
    counting_delete_hash_node 25 ha_table_pages 4 1000
  = Some {| cells := [[]; [{| fold := 7; data := 2200 |}]; []];
            heap := Some 3%nat; heaps := [] |}.
Proof. vm_compute. reflexivity. Qed.

(** *** Persistent cursor *)

Section PersistentCursorProofs.

Context {env : BtrEnv}.

Lemma btr_pcur_store_position_eq (cursor : btr_pcur_t) (m : machine world) :
  btr_pcur_store_position cursor m =
  if store_position_asserts (mem m) cursor then
    if page_get_n_recs (mem m) (page_align (btr_pcur_get_rec cursor)) =? 0
    then Ok (stored_on_empty cursor) m
    else Ok (stored_on_records (mem m) cursor) m
  else Abort m.
Proof.
  unfold btr_pcur_store_position, store_position_asserts, stored_on_empty,
    stored_on_records, store_anchor, store_rel_pos, bind, ut_a, ut_error,
    ret, read, btr_pcur_get_rec, btr_pcur_get_block, btr_pcur_get_page_cur,
    btr_cur_get_index, btr_pcur_get_btr_cur, page_cur_get_rec.
  destruct (bool_decide (pos_state cursor = BTR_PCUR_IS_POSITIONED));
    simpl; [| reflexivity].
  destruct (bool_decide (latch_mode cursor = BTR_NO_LATCHES));
    simpl; [reflexivity |].
  destruct (page_get_n_recs (mem m)
              (page_align (rec (m_page_cur (btr_cur cursor)))) =? 0); simpl.
  - destruct (btr_page_get_next (mem m) _ =? FIL_NULL); simpl; [| reflexivity].
    destruct (btr_page_get_prev (mem m) _ =? FIL_NULL); simpl; [| reflexivity].
    destruct (page_rec_is_supremum_low _); reflexivity.
  - destruct (page_rec_is_supremum_low _); simpl; [reflexivity |].
    destruct (page_rec_is_infimum_low _); reflexivity.
Qed.

Lemma btr_pcur_store_position_final (cursor : btr_pcur_t) (m : machine world) :
  final_machine (btr_pcur_store_position cursor m) = m.
Proof.
  rewrite btr_pcur_store_position_eq.
  destruct (store_position_asserts (mem m) cursor); [| reflexivity].
  destruct (_ =? 0); reflexivity.
Qed.

Lemma btr_pcur_store_position_Ok (cursor c' : btr_pcur_t)
    (m m' : machine world) :
  btr_pcur_store_position cursor m = Ok c' m' ->
  m' = m /\
  btr_cur c' = btr_cur cursor /\
  latch_mode c' = latch_mode cursor /\
  search_mode c' = search_mode cursor /\
  pos_state c' = pos_state cursor /\
  old_stored c' = BTR_PCUR_OLD_STORED.
Proof.
  rewrite btr_pcur_store_position_eq.
  destruct (store_position_asserts (mem m) cursor); [| discriminate].
  destruct (_ =? 0); intros [= <- <-]; repeat split; reflexivity.
Qed.


Lemma new_calls_Ok_log {A : Type} (m : machine world) (a : A) (w : world)
    (l : list call) :
  new_calls m (Ok a (mk_machine w (calls m ++ l))) = l.
Proof. unfold new_calls. simpl. apply drop_app_length. Qed.

Lemma new_calls_Abort_log {A : Type} (m : machine world) (w : world)
    (l : list call) :
  new_calls m (Abort (A := A) (mk_machine w (calls m ++ l))) = l.
Proof. unfold new_calls. simpl. apply drop_app_length. Qed.

Lemma new_calls_same {A : Type} (m : machine world) (r : result world A) :
  final_machine r = m -> new_calls m r = [].
Proof. intros E. unfold new_calls. rewrite E. apply drop_all. Qed.

Lemma reopen_mode_eq (cursor : btr_pcur_t) :
  (if decide (rel_pos cursor = BTR_PCUR_ON) then PAGE_CUR_LE
   else if decide (rel_pos cursor = BTR_PCUR_AFTER) then PAGE_CUR_G
   else PAGE_CUR_L) = reopen_mode cursor.
Proof. unfold reopen_mode. destruct (rel_pos cursor); reflexivity. Qed.

(** Lines 259-306 in one equation. *)
Lemma btr_pcur_restore_position_open_anew_eq
    (latch : btr_latch_mode) (cursor : btr_pcur_t) (bytes : list Z)
    (m : machine world) :
  let index := m_index (btr_cur cursor) in
  let tuple := dict_index_build_data_tuple index bytes (old_n_fields cursor) in
  let mode := reopen_mode cursor in
  let found :=
    btr_cur_search_to_nth_level index 0 tuple mode latch (btr_cur cursor) 0
      (mem m) in
  let m1 := log_call m (snd found)
              (Call_btr_cur_search_to_nth_level index mode latch) in
  let c1 := reopened cursor latch (fst found) in
  btr_pcur_restore_position_open_anew latch cursor bytes m =
  if bool_decide (rel_pos cursor = BTR_PCUR_ON)
     && btr_pcur_is_on_user_rec c1
     && (0 =? cmp_dtuple_rec (snd found) index tuple (btr_pcur_get_rec c1))
  then
    Ok (true,
        set_old_stored
          (set_modify_clock
             (set_block_when_stored c1 (btr_pcur_get_block c1))
             (buf_block_get_modify_clock (snd found) (btr_pcur_get_block c1)))
          BTR_PCUR_OLD_STORED) m1
  else
    (c2 <- btr_pcur_store_position c1 ;; ret (false, c2)) m1.
Proof.
  intros index tuple mode found m1 c1.
  unfold btr_pcur_restore_position_open_anew,
    btr_pcur_open_with_no_init_func.
  rewrite reopen_mode_eq.
  unfold btr_cur_get_index, btr_pcur_get_btr_cur.
  change (btr_cur (set_search_mode (set_latch_mode cursor latch)
                     (reopen_mode cursor))) with (btr_cur cursor).
  fold index. fold tuple. fold mode.
  unfold bind at 1. unfold bind at 1. unfold act at 1.
  fold found. subst m1 c1.
  destruct found as [landing w1]. unfold log_call.
  cbn [fst snd mem calls]. unfold ret at 1.
  change (set_search_mode _ (search_mode cursor))
    with (reopened cursor latch landing).
  unfold bind at 1, read at 1.
  cbn [fst snd mem calls].
  change (rel_pos (reopened cursor latch landing)) with (rel_pos cursor).
  destruct (bool_decide (rel_pos cursor = BTR_PCUR_ON)
            && btr_pcur_is_on_user_rec (reopened cursor latch landing)
            && (0 =? cmp_dtuple_rec w1 index tuple
                       (btr_pcur_get_rec (reopened cursor latch landing))));
    reflexivity.
Qed.

Lemma btr_pcur_restore_position_open_anew_final
    (latch : btr_latch_mode) (cursor : btr_pcur_t) (bytes : list Z)
    (m : machine world) :
  let index := m_index (btr_cur cursor) in
  let tuple := dict_index_build_data_tuple index bytes (old_n_fields cursor) in
  let mode := reopen_mode cursor in
  final_machine (btr_pcur_restore_position_open_anew latch cursor bytes m) =
  log_call m
    (snd (btr_cur_search_to_nth_level index 0 tuple mode latch
            (btr_cur cursor) 0 (mem m)))
    (Call_btr_cur_search_to_nth_level index mode latch).
Proof.
  intros index tuple mode.
  rewrite btr_pcur_restore_position_open_anew_eq.
  fold index tuple mode.
  destruct (_ && _ && _); [reflexivity |].
  unfold bind.
  match goal with
  | |- context [btr_pcur_store_position ?c ?mm] =>
      pose proof (btr_pcur_store_position_final c mm) as Hf;
      destruct (btr_pcur_store_position c mm); simpl in *; exact Hf
  end.
Qed.

Lemma btr_pcur_restore_position_paths
    (latch : btr_latch_mode) (cursor : btr_pcur_t) (m : machine world) :
  restore_path latch cursor m.
Proof.
  destruct (bool_decide (old_stored cursor = BTR_PCUR_OLD_STORED)) eqn:Hst.
  2: { apply bool_decide_eq_false_1 in Hst as Hst'.
       apply Restore_asserts; [left; intros [? _]; contradiction |].
       unfold btr_pcur_restore_position_func. rewrite Hst. reflexivity. }
  apply bool_decide_eq_true_1 in Hst.
  destruct (negb (bool_decide (pos_state cursor = BTR_PCUR_WAS_POSITIONED))
            && negb (bool_decide (pos_state cursor = BTR_PCUR_IS_POSITIONED)))
    eqn:Hps.
  { apply Restore_asserts.
    - left. intros [_ Hp]. apply andb_true_iff in Hps as [H1 H2].
      apply negb_true_iff, bool_decide_eq_false_1 in H1, H2.
      destruct Hp; contradiction.
    - unfold btr_pcur_restore_position_func.
      rewrite Hps, orb_true_r. reflexivity. }
  assert (Hentry : restore_entry_check cursor).
  { split; [exact Hst |].
    apply andb_false_iff in Hps as [H | H];
      apply negb_false_iff, bool_decide_eq_true_1 in H; auto. }
  destruct (is_tree_edge (rel_pos cursor)) eqn:Hedge.
  { destruct (btr_cur_open_at_index_side
                (bool_decide (rel_pos cursor = BTR_PCUR_BEFORE_FIRST_IN_TREE))
                (m_index (btr_cur cursor)) latch (btr_cur cursor) (mem m))
      as [landing w] eqn:Hopen.
    apply (Restore_tree_edge _ _ _ landing w Hentry Hedge).
    unfold btr_pcur_restore_position_func.
    rewrite (bool_decide_eq_true_2 _ Hst), Hps. simpl.
    unfold is_tree_edge in Hedge.
    unfold bind at 1. simpl. rewrite Hedge.
    unfold bind, act, ret, btr_cur_get_index, btr_pcur_get_btr_cur.
    rewrite Hopen. reflexivity. }
  assert (Hpre :
    btr_pcur_restore_position_func latch cursor m =
    match old_rec cursor with
    | None => Abort m
    | Some bytes =>
        if negb (old_n_fields cursor =? 0) then
          (if is_leaf_latch latch then
             got <- act (buf_page_optimistic_get latch
                           (block_when_stored cursor) (modify_clock cursor))
                        (Call_buf_page_optimistic_get latch
                           (block_when_stored cursor) (modify_clock cursor)) ;;
             if got then
               if bool_decide (rel_pos cursor = BTR_PCUR_ON)
               then ret (true, set_latch_mode
                                 (set_pos_state cursor BTR_PCUR_IS_POSITIONED)
                                 latch)
               else ret (false, set_pos_state cursor BTR_PCUR_IS_POSITIONED)
             else btr_pcur_restore_position_open_anew latch cursor bytes
           else btr_pcur_restore_position_open_anew latch cursor bytes) m
        else Abort m
    end).
  { unfold btr_pcur_restore_position_func.
    rewrite (bool_decide_eq_true_2 _ Hst), Hps. simpl.
    unfold is_tree_edge in Hedge. unfold bind at 1. simpl. rewrite Hedge.
    destruct (old_rec cursor); [| reflexivity].
    unfold bind at 1, ut_a.
    destruct (negb (old_n_fields cursor =? 0)); reflexivity. }
  destruct (old_rec cursor) as [bytes |] eqn:Hrec.
  2: { apply Restore_asserts; [| exact Hpre].
       right. split; [exact Hedge |]. intros [? _]. congruence. }
  destruct (Z.eqb_spec (old_n_fields cursor) 0) as [Hn | Hn];
    cbn [negb] in Hpre.
  { apply Restore_asserts; [| exact Hpre].
    right. split; [exact Hedge |]. intros [_ ?]. contradiction. }
  assert (Hcopy : restore_copy_check cursor).
  { split; [congruence | exact Hn]. }
  destruct (is_leaf_latch latch) eqn:Hleaf.
  - unfold bind, act in Hpre.
    destruct (buf_page_optimistic_get latch (block_when_stored cursor)
                (modify_clock cursor) (mem m)) as [got w] eqn:Hget.
    destruct got.
    + apply Restore_optimistic; auto.
      * rewrite Hget. reflexivity.
      * rewrite Hpre, Hget. unfold log_call. simpl.
        destruct (bool_decide (rel_pos cursor = BTR_PCUR_ON)); reflexivity.
    + apply (Restore_open_anew _ _ _ bytes
               (log_call m w
                  (Call_buf_page_optimistic_get latch
                     (block_when_stored cursor) (modify_clock cursor) false)));
        auto.
      right. rewrite Hget. auto.
  - apply (Restore_open_anew _ _ _ bytes m); auto.
Qed.

Lemma new_calls_open_anew (latch : btr_latch_mode) (cursor : btr_pcur_t)
    (bytes : list Z) (m m0 : machine world) (l : list call) :
  calls m0 = calls m ++ l ->
  new_calls m (btr_pcur_restore_position_open_anew latch cursor bytes m0) =
  l ++ [Call_btr_cur_search_to_nth_level (m_index (btr_cur cursor))
          (reopen_mode cursor) latch].
Proof.
  intros Hl. unfold new_calls.
  rewrite btr_pcur_restore_position_open_anew_final.
  unfold log_call. cbn [calls]. rewrite Hl, <- app_assoc.
  apply drop_app_length.
Qed.

(** What a run of [btr_pcur_restore_position_func] adds to the log. *)
Lemma btr_pcur_restore_position_new_calls
    (latch : btr_latch_mode) (cursor : btr_pcur_t) (m : machine world) :
  let r := btr_pcur_restore_position_func latch cursor m in
  let get ok :=
    Call_buf_page_optimistic_get latch (block_when_stored cursor)
      (modify_clock cursor) ok in
  let search :=
    Call_btr_cur_search_to_nth_level (m_index (btr_cur cursor))
      (reopen_mode cursor) latch in
  (r = Abort m /\ new_calls m r = []) \/
  (is_tree_edge (rel_pos cursor) = true /\
   new_calls m r =
     [Call_btr_cur_open_at_index_side
        (bool_decide (rel_pos cursor = BTR_PCUR_BEFORE_FIRST_IN_TREE))
        (m_index (btr_cur cursor)) latch]) \/
  (new_calls m r = [get true]) \/
  (new_calls m r = [search]) \/
  (new_calls m r = [get false; search]).
Proof.
  intros r get search. subst r get search.
  destruct (btr_pcur_restore_position_paths latch cursor m)
    as [Hwhy Ha | landing w Hen He Hr | Hen He Hcp Hl Hg Hr
       | bytes m0 Hen He Hcp Hb Hm0 Hr].
  - left. split; [exact Ha |]. rewrite Ha. now apply new_calls_same.
  - right; left. split; [exact He |].
    rewrite Hr. unfold log_call. apply new_calls_Ok_log.
  - right; right; left. rewrite Hr. unfold log_call. apply new_calls_Ok_log.
  - rewrite Hr. destruct Hm0 as [[_ ->] | (_ & _ & ->)].
    + right; right; right; left.
      apply (new_calls_open_anew _ _ _ m m []). now rewrite app_nil_r.
    + right; right; right; right.
      apply (new_calls_open_anew _ _ _ m _ [_]). reflexivity.
Qed.


(** C10: on the optimistic path with [rel_pos] BEFORE or AFTER the call
    returns false and the cursor differs from the one passed in by
    [pos_state] only: [latch_mode] keeps its old value although the world
    is the one in which the reacquisition under the requested latch has
    succeeded; with [rel_pos = ON] the field receives the requested
    latch. *)
Theorem btr_pcur_restore_position_optimistic_frame
    (latch : btr_latch_mode) (cursor : btr_pcur_t) (m : machine world) :
  optimistic_get_succeeds latch cursor m ->
  exists b c' m',
    btr_pcur_restore_position_func latch cursor m = Ok (b, c') m' /\
    pos_state c' = BTR_PCUR_IS_POSITIONED /\
    buf_page_optimistic_get latch (block_when_stored cursor)
      (modify_clock cursor) (mem m) = (true, mem m') /\
    (rel_pos cursor = BTR_PCUR_BEFORE \/ rel_pos cursor = BTR_PCUR_AFTER ->
     b = false /\
     c' = set_pos_state cursor BTR_PCUR_IS_POSITIONED /\
     latch_mode c' = latch_mode cursor /\
     old_rec c' = old_rec cursor /\
     old_n_fields c' = old_n_fields cursor /\
     old_stored c' = old_stored cursor /\
     block_when_stored c' = block_when_stored cursor /\
     modify_clock c' = modify_clock cursor /\
     rel_pos c' = rel_pos cursor) /\
    (rel_pos cursor = BTR_PCUR_ON -> b = true /\ latch_mode c' = latch).
Proof.
  intros Hget. unfold optimistic_get_succeeds in Hget.
  destruct (btr_pcur_restore_position_paths latch cursor m)
    as [Hwhy Ha | landing w Hen He Hr | Hen He Hcp Hl Hg Hr
       | bytes m0 Hen He Hcp Hb Hm0 Hr].
  - rewrite Ha in Hget. rewrite new_calls_same in Hget by reflexivity.
    destruct Hget.
  - rewrite Hr in Hget. unfold log_call in Hget.
    rewrite new_calls_Ok_log in Hget.
    destruct Hget as [Hget | []]. discriminate.
  - rewrite Hr. eexists _, _, _. split; [reflexivity |].
    split; [destruct (bool_decide (rel_pos cursor = BTR_PCUR_ON));
            reflexivity |].
    split.
    { unfold log_call. cbn [mem].
      destruct (buf_page_optimistic_get latch (block_when_stored cursor)
                  (modify_clock cursor) (mem m)) as [g w].
      simpl in Hg. subst g. reflexivity. }
    split.
    + intros Hba.
      assert (Hne : bool_decide (rel_pos cursor = BTR_PCUR_ON) = false)
        by (apply bool_decide_eq_false;
            destruct Hba as [E | E]; rewrite E; discriminate).
      rewrite Hne. repeat split; reflexivity.
    + intros Hon. rewrite (bool_decide_eq_true_2 _ Hon).
      split; reflexivity.
  - rewrite Hr in Hget. destruct Hm0 as [[_ ->] | (_ & _ & ->)].
    + rewrite (new_calls_open_anew _ _ _ m m []) in Hget
        by now rewrite app_nil_r.
      destruct Hget as [Hget | []]. discriminate.
    + rewrite (new_calls_open_anew _ _ _ m _ [_]) in Hget by reflexivity.
      destruct Hget as [Hget | [Hget | []]]; discriminate.
Qed.

(** The run opens the cursor anew exactly when it passes the assertions,
    the stored position is not a tree edge, and the latch mode is not a
    leaf mode or the optimistic reacquisition fails. *)
Lemma reopens_cursor_iff
    (latch : btr_latch_mode) (cursor : btr_pcur_t) (m : machine world) :
  reopens_cursor latch cursor m <->
  old_stored cursor = BTR_PCUR_OLD_STORED /\
  (pos_state cursor = BTR_PCUR_WAS_POSITIONED \/
   pos_state cursor = BTR_PCUR_IS_POSITIONED) /\
  is_tree_edge (rel_pos cursor) = false /\
  old_rec cursor <> None /\
  old_n_fields cursor <> 0 /\
  (is_leaf_latch latch = false \/
   fst (buf_page_optimistic_get latch (block_when_stored cursor)
          (modify_clock cursor) (mem m)) = false).
Proof.
  unfold reopens_cursor.
  destruct (btr_pcur_restore_position_paths latch cursor m)
    as [Hwhy Ha | landing w Hen He Hr | Hen He Hcp Hl Hg Hr
       | bytes m0 Hen He Hcp Hb Hm0 Hr].
  - rewrite Ha, new_calls_same by reflexivity. split.
    + intros (? & ? & []).
    + intros (Hst & Hps & He & Hrec & Hn & _).
      destruct Hwhy as [Hwhy | [_ Hwhy]]; destruct Hwhy; split; assumption.
  - rewrite Hr. unfold log_call. rewrite new_calls_Ok_log. split.
    + intros (? & ? & [Hin | []]). discriminate.
    + intros (_ & _ & He' & _). congruence.
  - rewrite Hr. unfold log_call. rewrite new_calls_Ok_log. split.
    + intros (? & ? & [Hin | []]). discriminate.
    + intros (_ & _ & _ & _ & _ & [Hl' | Hg']); congruence.
  - rewrite Hr. split.
    + intros _. destruct Hen as [Hst Hps], Hcp as [Hrec Hn].
      repeat split; auto.
      destruct Hm0 as [[Hl _] | (_ & Hg & _)]; auto.
    + intros _. eexists _, _.
      destruct Hm0 as [[_ ->] | (_ & _ & ->)].
      * rewrite (new_calls_open_anew _ _ _ m m []) by now rewrite app_nil_r.
        left. reflexivity.
      * rewrite (new_calls_open_anew _ _ _ m _ [_]) by reflexivity.
        right. left. reflexivity.
Qed.

(** The run makes a successful optimistic reacquisition exactly when it
    passes the assertions, the stored position is not a tree edge, the
    latch mode is a leaf mode and [buf_page_optimistic_get] says yes. *)
Lemma optimistic_get_succeeds_iff
    (latch : btr_latch_mode) (cursor : btr_pcur_t) (m : machine world) :
  optimistic_get_succeeds latch cursor m <->
  restore_entry_check cursor /\
  is_tree_edge (rel_pos cursor) = false /\
  restore_copy_check cursor /\
  is_leaf_latch latch = true /\
  fst (buf_page_optimistic_get latch (block_when_stored cursor)
         (modify_clock cursor) (mem m)) = true.
Proof.
  unfold optimistic_get_succeeds.
  destruct (btr_pcur_restore_position_paths latch cursor m)
    as [Hwhy Ha | landing w Hen He Hr | Hen He Hcp Hl Hg Hr
       | bytes m0 Hen He Hcp Hb Hm0 Hr].
  - rewrite Ha, new_calls_same by reflexivity. split; [intros [] |].
    intros (Hen & He & Hcp & _).
    destruct Hwhy as [Hwhy | [_ Hwhy]]; contradiction.
  - rewrite Hr. unfold log_call. rewrite new_calls_Ok_log. split.
    + intros [Hin | []]. discriminate.
    + intros (_ & He' & _). congruence.
  - rewrite Hr. unfold log_call. rewrite new_calls_Ok_log. split.
    + intros _. auto.
    + intros _. left. reflexivity.
  - rewrite Hr. destruct Hm0 as [[Hl ->] | (Hl & Hg & ->)].
    + rewrite (new_calls_open_anew _ _ _ m m []) by now rewrite app_nil_r.
      split; [intros [Hin | []]; discriminate |].
      intros (_ & _ & _ & Hl' & _). congruence.
    + rewrite (new_calls_open_anew _ _ _ m _ [_]) by reflexivity.
      split; [intros [Hin | [Hin | []]]; discriminate |].
      intros (_ & _ & _ & _ & Hg'). congruence.
Qed.

Lemma store_position_asserts_iff (w : world) (cursor : btr_pcur_t) :
  store_position_asserts w cursor = true <->
  pos_state cursor = BTR_PCUR_IS_POSITIONED /\
  latch_mode cursor <> BTR_NO_LATCHES /\
  (page_get_n_recs w (page_align (btr_pcur_get_rec cursor)) <> 0 \/
   btr_page_get_next w (page_align (btr_pcur_get_rec cursor)) = FIL_NULL /\
   btr_page_get_prev w (page_align (btr_pcur_get_rec cursor)) = FIL_NULL).
Proof.
  unfold store_position_asserts.
  rewrite !andb_true_iff, orb_true_iff, andb_true_iff, !negb_true_iff,
    bool_decide_eq_true, bool_decide_eq_false, Z.eqb_neq, !Z.eqb_eq.
  tauto.
Qed.

(** C1 (amended): a run that opens the cursor anew does so past a stored
    position that is not a tree edge, with a latch mode that is not a leaf
    mode or after a failed optimistic reacquisition.  The search is made
    with LE, G or L for ON, AFTER or BEFORE; the landing cursor [c1]
    carries the search mode the caller had.  If the position was ON and the
    landing is a user record that compares equal to the rebuilt tuple, the
    call returns true with [block_when_stored] and [modify_clock] taken
    from the landing block and [old_stored = STORED]; otherwise it is
    [btr_pcur_store_position] on the landing followed by returning false.
    That store returns, and false with it, exactly when the latch mode of
    the call is not [BTR_NO_LATCHES] and the landing page has user records
    or no sibling; if not, the call dies in an assertion of
    [btr_pcur_store_position] and returns nothing.  Whenever the call
    returns, the search mode is the one before the call. *)
Theorem btr_pcur_restore_position_pessimistic
    (latch : btr_latch_mode) (cursor : btr_pcur_t) (m : machine world) :
  reopens_cursor latch cursor m ->
  exists bytes m0,
    old_rec cursor = Some bytes /\
    is_tree_edge (rel_pos cursor) = false /\
    (is_leaf_latch latch = false /\ m0 = m \/
     is_leaf_latch latch = true /\
     buf_page_optimistic_get latch (block_when_stored cursor)
       (modify_clock cursor) (mem m) = (false, mem m0) /\
     calls m0 = calls m ++
       [Call_buf_page_optimistic_get latch (block_when_stored cursor)
          (modify_clock cursor) false]) /\
    let index := m_index (btr_cur cursor) in
    let tuple :=
      dict_index_build_data_tuple index bytes (old_n_fields cursor) in
    let mode :=
      match rel_pos cursor with
      | BTR_PCUR_ON => PAGE_CUR_LE
      | BTR_PCUR_AFTER => PAGE_CUR_G
      | _ => PAGE_CUR_L
      end in
    let found :=
      btr_cur_search_to_nth_level index 0 tuple mode latch (btr_cur cursor) 0
        (mem m0) in
    let m1 :=
      mk_machine (snd found)
        (calls m0 ++ [Call_btr_cur_search_to_nth_level index mode latch]) in
    let c1 := reopened cursor latch (fst found) in
    let same :=
      rel_pos cursor = BTR_PCUR_ON /\
      btr_pcur_is_on_user_rec c1 = true /\
      cmp_dtuple_rec (snd found) index tuple (btr_pcur_get_rec c1) = 0 in
    let landing_page := page_align (btr_pcur_get_rec c1) in
    let storable :=
      latch <> BTR_NO_LATCHES /\
      (page_get_n_recs (snd found) landing_page <> 0 \/
       btr_page_get_next (snd found) landing_page = FIL_NULL /\
       btr_page_get_prev (snd found) landing_page = FIL_NULL) in
    search_mode c1 = search_mode cursor /\
    (same ->
     exists c',
       btr_pcur_restore_position_func latch cursor m = Ok (true, c') m1 /\
       block_when_stored c' = btr_pcur_get_block c1 /\
       modify_clock c' =
         buf_block_get_modify_clock (snd found) (btr_pcur_get_block c1) /\
       old_stored c' = BTR_PCUR_OLD_STORED /\
       search_mode c' = search_mode cursor /\
       btr_cur c' = fst found /\
       latch_mode c' = latch /\
       pos_state c' = BTR_PCUR_IS_POSITIONED /\
       old_rec c' = old_rec cursor /\
       old_n_fields c' = old_n_fields cursor /\
       rel_pos c' = rel_pos cursor) /\
    (~ same ->
     btr_pcur_restore_position_func latch cursor m =
       (c2 <- btr_pcur_store_position c1 ;; ret (false, c2)) m1) /\
    (~ same -> storable ->
     exists c2,
       btr_pcur_store_position c1 m1 = Ok c2 m1 /\
       btr_pcur_restore_position_func latch cursor m = Ok (false, c2) m1) /\
    (~ same -> ~ storable ->
     btr_pcur_store_position c1 m1 = Abort m1 /\
     btr_pcur_restore_position_func latch cursor m = Abort m1) /\
    (forall b c' m',
       btr_pcur_restore_position_func latch cursor m = Ok (b, c') m' ->
       search_mode c' = search_mode cursor /\ (b = true <-> same)).
Proof.
  intros Hre.
  destruct (btr_pcur_restore_position_paths latch cursor m)
    as [Hwhy Ha | landing w Hen He Hr | Hen He Hcp Hl Hg Hr
       | bytes m0 Hen He Hcp Hb Hm0 Hr];
    unfold reopens_cursor in Hre.
  - rewrite Ha in Hre. rewrite new_calls_same in Hre by reflexivity.
    destruct Hre as (? & ? & []).
  - rewrite Hr in Hre. unfold log_call in Hre.
    rewrite new_calls_Ok_log in Hre.
    destruct Hre as (? & ? & [Hin | []]). discriminate.
  - rewrite Hr in Hre. unfold log_call in Hre.
    rewrite new_calls_Ok_log in Hre.
    destruct Hre as (? & ? & [Hin | []]). discriminate.
  - clear Hre. exists bytes, m0.
    split; [exact Hb |]. split; [exact He |].
    split.
    { destruct Hm0 as [[Hl ->] | (Hl & Hg & ->)]; [left; auto | right].
      split; [exact Hl |]. unfold log_call. cbn [mem calls].
      split; [| reflexivity].
      destruct (buf_page_optimistic_get latch (block_when_stored cursor)
                  (modify_clock cursor) (mem m)) as [g w].
      simpl in Hg. subst g. reflexivity. }
    intros index tuple mode found m1 c1 same landing_page storable.
    assert (Hmode : mode = reopen_mode cursor) by reflexivity.
    pose proof (btr_pcur_restore_position_open_anew_eq latch cursor bytes m0)
      as Heq.
    cbv zeta in Heq. fold index tuple in Heq. rewrite <- Hmode in Heq.
    fold found in Heq. fold c1 in Heq.
    change (log_call m0 (snd found)
              (Call_btr_cur_search_to_nth_level index mode latch))
      with m1 in Heq.
    rewrite <- Hr in Heq.
    assert (Hsame :
      bool_decide (rel_pos cursor = BTR_PCUR_ON)
      && btr_pcur_is_on_user_rec c1
      && (0 =? cmp_dtuple_rec (snd found) index tuple (btr_pcur_get_rec c1))
      = true <-> same).
    { subst same. rewrite !andb_true_iff, bool_decide_eq_true, Z.eqb_eq.
      split; [intros [[? ?] ?] | intros (? & ? & ?)]; repeat split; auto. }
    assert (Hnot : ~ same ->
      btr_pcur_restore_position_func latch cursor m =
        (c2 <- btr_pcur_store_position c1 ;; ret (false, c2)) m1).
    { intros Hns.
      destruct (_ && _ && _) eqn:E in Heq; [| exact Heq].
      destruct Hns. apply Hsame. exact E. }
    assert (Hstorable : store_position_asserts (mem m1) c1 = true <-> storable).
    { rewrite store_position_asserts_iff. subst storable landing_page.
      cbn [mem m1 latch_mode c1 reopened pos_state]. tauto. }
    split; [reflexivity |].
    split; [| split; [exact Hnot | split; [| split]]].
    + intros Hs. apply Hsame in Hs. rewrite Hs in Heq.
      eexists. split; [exact Heq |]. repeat split; reflexivity.
    + intros Hns Hst. rewrite (Hnot Hns). unfold bind.
      rewrite btr_pcur_store_position_eq.
      rewrite (proj2 Hstorable Hst).
      destruct (_ =? 0); eexists; split; reflexivity.
    + intros Hns Hst. rewrite (Hnot Hns). unfold bind.
      rewrite btr_pcur_store_position_eq.
      destruct (store_position_asserts (mem m1) c1);
        [destruct Hst; apply Hstorable; reflexivity |].
      split; reflexivity.
    + intros b c' m' Hok. rewrite Heq in Hok.
      destruct (_ && _ && _) eqn:E in Hok.
      * injection Hok as <- <- <-. split; [reflexivity |].
        split; [intros _; apply Hsame; exact E | reflexivity].
      * unfold bind in Hok.
        destruct (btr_pcur_store_position c1 m1) as [c2 m2 | m2] eqn:Hs;
          [| discriminate].
        unfold ret in Hok. injection Hok as <- <- <-.
        apply btr_pcur_store_position_Ok in Hs
          as (_ & _ & _ & Hsm & _).
        split; [exact Hsm |].
        split; [discriminate |].
        intros Hs. apply Hsame in Hs. congruence.
Qed.

Lemma btr_pcur_is_on_user_rec_true (cursor : btr_pcur_t) :
  btr_pcur_is_on_user_rec cursor = true <->
  page_rec_is_infimum_low (page_offset (btr_pcur_get_rec cursor)) = false /\
  page_rec_is_supremum_low (page_offset (btr_pcur_get_rec cursor)) = false.
Proof.
  unfold btr_pcur_is_on_user_rec, btr_pcur_is_before_first_on_page,
    btr_pcur_is_after_last_on_page.
  destruct (page_rec_is_infimum_low _), (page_rec_is_supremum_low _);
    simpl; intuition congruence.
Qed.

Lemma store_rel_pos_on (r : Z) :
  store_rel_pos r = BTR_PCUR_ON <->
  page_rec_is_infimum_low (page_offset r) = false /\
  page_rec_is_supremum_low (page_offset r) = false.
Proof.
  unfold store_rel_pos.
  destruct (page_rec_is_supremum_low _), (page_rec_is_infimum_low _);
    intuition congruence.
Qed.

(** A restore that returns true was made from a position stored ON. *)
Lemma btr_pcur_restore_position_true_on
    (latch : btr_latch_mode) (cursor c' : btr_pcur_t) (m m' : machine world) :
  btr_pcur_restore_position_func latch cursor m = Ok (true, c') m' ->
  rel_pos cursor = BTR_PCUR_ON.
Proof.
  intros Hok.
  destruct (btr_pcur_restore_position_paths latch cursor m)
    as [Hwhy Ha | landing w Hen He Hr | Hen He Hcp Hl Hg Hr
       | bytes m0 Hen He Hcp Hb Hm0 Hr].
  - congruence.
  - rewrite Hr in Hok. discriminate.
  - rewrite Hr in Hok. injection Hok as Hb _ _.
    now apply bool_decide_eq_true in Hb.
  - rewrite Hr, btr_pcur_restore_position_open_anew_eq in Hok.
    destruct (bool_decide (rel_pos cursor = BTR_PCUR_ON)) eqn:Hon;
      [now apply bool_decide_eq_true in Hon |].
    cbn [andb] in Hok. unfold bind in Hok.
    destruct (btr_pcur_store_position _ _); discriminate.
Qed.

Lemma store_restore_on_user_rec
    (latch : btr_latch_mode) (cursor : btr_pcur_t) (m : machine world) :
  let w := mem m in
  let r := btr_pcur_get_rec cursor in
  let blk := btr_pcur_get_block cursor in
  let index := m_index (btr_cur cursor) in
  let copy :=
    dict_index_copy_rec_order_prefix w index r (old_rec_buf cursor)
      (buf_size cursor) in
  let tuple :=
    dict_index_build_data_tuple index (prefix_rec copy)
      (prefix_n_fields copy) in
  pos_state cursor = BTR_PCUR_IS_POSITIONED ->
  latch_mode cursor <> BTR_NO_LATCHES ->
  btr_pcur_is_on_user_rec cursor = true ->
  page_get_n_recs w (page_align r) <> 0 ->
  prefix_n_fields copy <> 0 ->
  (is_leaf_latch latch = true ->
   fst (buf_page_optimistic_get latch blk
          (buf_block_get_modify_clock w blk) w) = true) ->
  (is_leaf_latch latch = false ->
   let found :=
     btr_cur_search_to_nth_level index 0 tuple PAGE_CUR_LE latch
       (btr_cur cursor) 0 w in
   m_page_cur (fst found) = m_page_cur (btr_cur cursor) /\
   cmp_dtuple_rec (snd found) index tuple r = 0) ->
  exists c' m',
    store_then_restore latch cursor m = Ok (true, c') m' /\
    btr_pcur_get_page_cur c' = btr_pcur_get_page_cur cursor /\
    pos_state c' = BTR_PCUR_IS_POSITIONED.
Proof.
  intros w r blk index copy tuple Hpos Hlatch Huser Hn Hnf Hopt Hsearch.
  apply btr_pcur_is_on_user_rec_true in Huser as Huser'.
  destruct Huser' as [Hinf Hsup].
  unfold store_then_restore, bind.
  rewrite btr_pcur_store_position_eq. unfold store_position_asserts.
  rewrite (bool_decide_eq_true_2 _ Hpos), (bool_decide_eq_false_2 _ Hlatch).
  fold w r. apply Z.eqb_neq in Hn. rewrite Hn. cbn [negb andb orb].
  set (c1 := stored_on_records w cursor).
  assert (Hrel : rel_pos c1 = BTR_PCUR_ON).
  { subst c1. unfold stored_on_records. cbn [rel_pos].
    apply store_rel_pos_on. auto. }
  assert (Hanchor : store_anchor w r = r).
  { unfold store_anchor. fold r in Hinf, Hsup. now rewrite Hsup, Hinf. }
  assert (Hold : old_rec c1 = Some (prefix_rec copy)).
  { subst c1 copy. unfold stored_on_records. cbn [old_rec].
    fold w r index. now rewrite Hanchor. }
  assert (Hnfields : old_n_fields c1 = prefix_n_fields copy).
  { subst c1 copy. unfold stored_on_records. cbn [old_n_fields].
    fold w r index. now rewrite Hanchor. }
  destruct (btr_pcur_restore_position_paths latch c1 m)
    as [Hwhy Ha | landing w' Hen He Hr | Hen He Hcp Hl Hg Hr
       | bytes m0 Hen He Hcp Hb Hm0 Hr].
  - exfalso. destruct Hwhy as [Hwhy | [_ Hwhy]]; apply Hwhy.
    + split; [reflexivity | right; exact Hpos].
    + split; [rewrite Hold; discriminate | now rewrite Hnfields].
  - unfold is_tree_edge in He. rewrite Hrel in He. discriminate.
  - rewrite Hr, (bool_decide_eq_true_2 _ Hrel).
    eexists _, _. repeat split; reflexivity.
  - destruct Hm0 as [[Hl ->] | (Hl & Hg & _)].
    2: { specialize (Hopt Hl). fold w in Hg.
         change (block_when_stored c1) with blk in Hg.
         change (modify_clock c1)
           with (buf_block_get_modify_clock w blk) in Hg.
         congruence. }
    specialize (Hsearch Hl). cbv zeta in Hsearch.
    destruct Hsearch as [Hcur Hcmp].
    rewrite Hr, btr_pcur_restore_position_open_anew_eq.
    assert (Hbytes : bytes = prefix_rec copy) by congruence.
    subst bytes.
    assert (Hmode : reopen_mode c1 = PAGE_CUR_LE)
      by (unfold reopen_mode; now rewrite Hrel).
    rewrite Hmode, Hnfields.
    change (m_index (btr_cur c1)) with index.
    change (btr_cur c1) with (btr_cur cursor).
    fold tuple. fold w.
    set (found := btr_cur_search_to_nth_level index 0 tuple PAGE_CUR_LE latch
                    (btr_cur cursor) 0 w) in *.
    assert (Hrec : btr_pcur_get_rec (reopened c1 latch (fst found)) = r).
    { unfold btr_pcur_get_rec, btr_pcur_get_page_cur, reopened.
      cbn [btr_cur]. now rewrite Hcur. }
    assert (Huser1 : btr_pcur_is_on_user_rec (reopened c1 latch (fst found))
                     = true).
    { apply btr_pcur_is_on_user_rec_true. rewrite Hrec. auto. }
    rewrite (bool_decide_eq_true_2 _ Hrel), Huser1, Hrec, Hcmp.
    cbn [andb Z.eqb].
    eexists _, _. split; [reflexivity |].
    split; [| reflexivity].
    unfold btr_pcur_get_page_cur. cbn [btr_cur set_old_stored set_modify_clock
      set_block_when_stored reopened]. exact Hcur.
Qed.

(** C4 (amended): for a cursor that is positioned on a user record, with
    [latch_mode] other than [BTR_NO_LATCHES], on an unmodified tree (under
    a leaf latch mode the optimistic reacquisition of the block against the
    clock just stored succeeds; under another mode the LE search for the
    stored prefix lands on the record, which compares equal),
    store-then-restore returns true and the cursor has the page cursor it
    had.  And store-then-restore returns true only from a user record. *)
Theorem store_restore_roundtrip
    (latch : btr_latch_mode) (cursor : btr_pcur_t) (m : machine world) :
  let w := mem m in
  let r := btr_pcur_get_rec cursor in
  let blk := btr_pcur_get_block cursor in
  let index := m_index (btr_cur cursor) in
  let copy :=
    dict_index_copy_rec_order_prefix w index r (old_rec_buf cursor)
      (buf_size cursor) in
  let tuple :=
    dict_index_build_data_tuple index (prefix_rec copy)
      (prefix_n_fields copy) in
  (pos_state cursor = BTR_PCUR_IS_POSITIONED ->
   latch_mode cursor <> BTR_NO_LATCHES ->
   btr_pcur_is_on_user_rec cursor = true ->
   page_get_n_recs w (page_align r) <> 0 ->
   prefix_n_fields copy <> 0 ->
   (is_leaf_latch latch = true ->
    fst (buf_page_optimistic_get latch blk
           (buf_block_get_modify_clock w blk) w) = true) ->
   (is_leaf_latch latch = false ->
    let found :=
      btr_cur_search_to_nth_level index 0 tuple PAGE_CUR_LE latch
        (btr_cur cursor) 0 w in
    m_page_cur (fst found) = m_page_cur (btr_cur cursor) /\
    cmp_dtuple_rec (snd found) index tuple r = 0) ->
   exists c' m',
     store_then_restore latch cursor m = Ok (true, c') m' /\
     btr_pcur_get_page_cur c' = btr_pcur_get_page_cur cursor /\
     pos_state c' = BTR_PCUR_IS_POSITIONED) /\
  (forall c' m',
     store_then_restore latch cursor m = Ok (true, c') m' ->
     btr_pcur_is_on_user_rec cursor = true /\
     page_get_n_recs w (page_align r) <> 0).
Proof.
  intros w r blk index copy tuple. split.
  - apply store_restore_on_user_rec.
  - intros c' m' Hok. unfold store_then_restore, bind in Hok.
    rewrite btr_pcur_store_position_eq in Hok.
    destruct (store_position_asserts (mem m) cursor); [| discriminate].
    fold w r in Hok.
    destruct (Z.eqb_spec (page_get_n_recs w (page_align r)) 0) as [Hn | Hn].
    + apply btr_pcur_restore_position_true_on in Hok.
      unfold stored_on_empty in Hok. cbn [rel_pos] in Hok.
      destruct (page_rec_is_supremum_low _); discriminate.
    + apply btr_pcur_restore_position_true_on in Hok.
      unfold stored_on_records in Hok. cbn [rel_pos] in Hok.
      apply store_rel_pos_on in Hok.
      split; [| exact Hn].
      apply btr_pcur_is_on_user_rec_true. exact Hok.
Qed.

Lemma bind_Ok_inv {A B : Type} (c : M world A) (k : A -> M world B)
    (m m' : machine world) (b : B) :
  (x <- c ;; k x) m = Ok b m' ->
  exists a m1, c m = Ok a m1 /\ k a m1 = Ok b m'.
Proof.
  unfold bind. destruct (c m) as [a m1 | m1]; [eauto | discriminate].
Qed.

Lemma btr_pcur_restore_position_not_stored
    (latch : btr_latch_mode) (cursor : btr_pcur_t) (m : machine world) :
  old_stored cursor = BTR_PCUR_OLD_NOT_STORED ->
  btr_pcur_restore_position_func latch cursor m = Abort m.
Proof.
  intros Hns. unfold btr_pcur_restore_position_func.
  rewrite Hns. reflexivity.
Qed.

Lemma btr_pcur_move_to_next_page_Ok (cursor c' : btr_pcur_t)
    (m m' : machine world) :
  btr_pcur_move_to_next_page cursor m = Ok c' m' ->
  old_stored c' = BTR_PCUR_OLD_NOT_STORED.
Proof.
  unfold btr_pcur_move_to_next_page. intros H.
  repeat (apply bind_Ok_inv in H as (? & ? & _ & H)).
  unfold ret in H. injection H as <- _. reflexivity.
Qed.

Lemma btr_pcur_move_backward_from_page_Ok (cursor c' : btr_pcur_t)
    (m m' : machine world) :
  btr_pcur_move_backward_from_page cursor m = Ok c' m' ->
  old_stored c' = BTR_PCUR_OLD_NOT_STORED.
Proof.
  unfold btr_pcur_move_backward_from_page. intros H.
  repeat (apply bind_Ok_inv in H as (? & ? & _ & H)).
  unfold ret in H. injection H as <- _. reflexivity.
Qed.

(** [btr_pcur_move_to_next_page] in one equation. *)
Lemma btr_pcur_move_to_next_page_eq (cursor : btr_pcur_t)
    (m : machine world) :
  btr_pcur_move_to_next_page cursor m =
  let w := mem m in
  let blk := btr_pcur_get_block cursor in
  let next_page_no := btr_page_get_next w (btr_pcur_get_page cursor) in
  let space := buf_block_get_space w blk in
  let got := btr_block_get space next_page_no (latch_mode cursor) w in
  let m1 :=
    log_call m (snd got)
      (Call_btr_block_get space next_page_no (latch_mode cursor)) in
  if bool_decide (pos_state cursor = BTR_PCUR_IS_POSITIONED) then
    if next_page_asserts (snd got) cursor (fst got) then
      let w' :=
        btr_leaf_page_release blk (latch_mode cursor)
          (buf_block_set_check_index_page_at_flush (fst got) (snd got)) in
      Ok (set_page_cur (set_old_stored cursor BTR_PCUR_OLD_NOT_STORED)
            {| rec := page_get_infimum_rec (buf_block_get_frame w' (fst got));
               block := fst got |})
         (log_call m1 w'
            (Call_btr_leaf_page_release blk (latch_mode cursor)))
    else Abort m1
  else Abort m.
Proof.
  cbv zeta. unfold btr_pcur_move_to_next_page, next_page_asserts.
  destruct (bool_decide (pos_state cursor = BTR_PCUR_IS_POSITIONED));
    [| reflexivity].
  unfold bind, ut_a, ret, read, act, modify, page_cur_set_before_first,
    log_call, ut_error.
  cbn [mem calls].
  destruct (btr_block_get _ _ _ _) as [next_block w].
  cbn [mem calls fst snd].
  destruct UNIV_BTR_DEBUG; [| reflexivity].
  cbn [negb orb mem calls btr_pcur_get_page btr_pcur_get_block
       btr_pcur_get_rec btr_pcur_get_page_cur set_old_stored btr_cur].
  destruct (page_is_comp w _ =? page_is_comp w _); [| reflexivity].
  cbn [andb mem calls].
  destruct (btr_page_get_prev w _ =? buf_block_get_page_no w _);
    reflexivity.
Qed.

Lemma next_page_asserts_iff (w : world) (cursor : btr_pcur_t)
    (next_block : Z) :
  next_page_asserts w cursor next_block = true <->
  UNIV_BTR_DEBUG = false \/
  (page_is_comp w (buf_block_get_frame w next_block)
     = page_is_comp w (btr_pcur_get_page cursor) /\
   btr_page_get_prev w (buf_block_get_frame w next_block)
     = buf_block_get_page_no w (btr_pcur_get_block cursor)).
Proof.
  unfold next_page_asserts.
  rewrite orb_true_iff, negb_true_iff, andb_true_iff, !Z.eqb_eq.
  reflexivity.
Qed.

Lemma btr_pcur_move_to_next_page_returns (cursor : btr_pcur_t)
    (m : machine world) :
  let w := mem m in
  let got :=
    btr_block_get (buf_block_get_space w (btr_pcur_get_block cursor))
      (btr_page_get_next w (btr_pcur_get_page cursor)) (latch_mode cursor)
      w in
  pos_state cursor = BTR_PCUR_IS_POSITIONED ->
  (next_page_asserts (snd got) cursor (fst got) = true ->
   exists c' m', btr_pcur_move_to_next_page cursor m = Ok c' m') /\
  (next_page_asserts (snd got) cursor (fst got) = false ->
   exists m', btr_pcur_move_to_next_page cursor m = Abort m').
Proof.
  intros w got Hpos. rewrite btr_pcur_move_to_next_page_eq. cbv zeta.
  rewrite (bool_decide_eq_true_2 _ Hpos). fold w. fold got.
  split; intros ->; eauto.
Qed.

Lemma btr_pcur_move_backward_from_page_returns (cursor c1 : btr_pcur_t)
    (m m2 : machine world) (r : bool * btr_pcur_t) :
  pos_state cursor = BTR_PCUR_IS_POSITIONED ->
  latch_mode cursor = BTR_SEARCH_LEAF \/ latch_mode cursor = BTR_MODIFY_LEAF ->
  btr_pcur_store_position cursor m = Ok c1 m ->
  btr_pcur_restore_position_func (backward_latch (latch_mode cursor)) c1
    (after_commit_and_start m) = Ok r m2 ->
  exists c' m', btr_pcur_move_backward_from_page cursor m = Ok c' m'.
Proof.
  intros Hpos Hlatch Hstore Hrestore.
  unfold btr_pcur_move_backward_from_page.
  rewrite (bool_decide_eq_true_2 _ Hpos).
  unfold bind at 1, ut_a, ret at 1.
  unfold bind at 1.
  assert (Hl2 :
    (if bool_decide (latch_mode cursor = BTR_SEARCH_LEAF)
     then ret BTR_SEARCH_PREV
     else if bool_decide (latch_mode cursor = BTR_MODIFY_LEAF)
          then ret BTR_MODIFY_PREV else ut_error) m
    = Ok (backward_latch (latch_mode cursor)) m).
  { unfold backward_latch.
    destruct Hlatch as [-> | ->]; reflexivity. }
  rewrite Hl2.
  unfold bind at 1. rewrite Hstore.
  unfold bind at 1, act at 1. cbn [mem calls].
  unfold bind at 1, act at 1. cbn [mem calls].
  unfold bind at 1.
  unfold after_commit_and_start in Hrestore.
  rewrite <- app_assoc. rewrite Hrestore.
  unfold bind at 1, read at 1.
  unfold bind at 1.
  destruct (_ =? FIL_NULL); [unfold ret; eauto |].
  destruct (btr_pcur_is_before_first_on_page (snd r)).
  - unfold bind, act, page_cur_set_after_last, read, ret. cbn [mem calls].
    unfold bind, read, ret. eauto.
  - unfold bind, act, ret. eauto.
Qed.


Lemma btr_pcur_open_func_Ok
    (index : Z) (tuple : dtuple_t) (mode : ib_srch_mode_t)
    (latch : btr_latch_mode) (cursor : btr_pcur_t) (m : machine world) :
  let found :=
    btr_cur_search_to_nth_level index 0 tuple mode latch (btr_cur cursor) 0
      (mem m) in
  btr_pcur_open_func index tuple mode latch cursor m =
  Ok (mk_btr_pcur (fst found) latch BTR_PCUR_OLD_NOT_STORED None
        (old_n_fields cursor) (rel_pos cursor) (block_when_stored cursor)
        (modify_clock cursor) BTR_PCUR_IS_POSITIONED mode 0 0
        (buf_size cursor))
     (log_call m (snd found)
        (Call_btr_cur_search_to_nth_level index mode latch)).
Proof.
  intros found. subst found.
  unfold btr_pcur_open_func, bind, act, ret, log_call, btr_pcur_get_btr_cur.
  cbn [btr_cur btr_pcur_init set_latch_mode set_search_mode].
  destruct (btr_cur_search_to_nth_level _ _ _ _ _ _ _ _) as [landing w].
  reflexivity.
Qed.

(** C8: with L or LE the call dies in [ut_error] and never returns; with
    G or GE the cursor is opened and the call returns it as it landed,
    unless it landed on a supremum, in which case the result is that of
    [btr_pcur_move_to_next_user_rec] on the landing. *)
Theorem btr_pcur_open_on_user_rec_spec
    (index : Z) (tuple : dtuple_t) (mode : ib_srch_mode_t)
    (latch : btr_latch_mode) (cursor : btr_pcur_t) (m : machine world) :
  let run := btr_pcur_open_on_user_rec_func index tuple mode latch cursor m in
  (mode = PAGE_CUR_L \/ mode = PAGE_CUR_LE ->
   (exists m', run = Abort m') /\ (forall c' m', run <> Ok c' m')) /\
  (mode = PAGE_CUR_G \/ mode = PAGE_CUR_GE ->
   exists c1 m1,
     btr_pcur_open_func index tuple mode latch cursor m = Ok c1 m1 /\
     pos_state c1 = BTR_PCUR_IS_POSITIONED /\
     search_mode c1 = mode /\
     latch_mode c1 = latch /\
     (btr_pcur_is_after_last_on_page c1 = false -> run = Ok c1 m1) /\
     (btr_pcur_is_after_last_on_page c1 = true ->
      let moved := btr_pcur_move_to_next_user_rec c1 (mem m1) in
      run = Ok (snd (fst moved))
              (log_call m1 (snd moved) Call_btr_pcur_move_to_next_user_rec))).
Proof.
  intros run. subst run. unfold btr_pcur_open_on_user_rec_func, bind.
  rewrite btr_pcur_open_func_Ok. split.
  - intros Hm.
    assert (Hno : bool_decide (mode = PAGE_CUR_GE)
                  || bool_decide (mode = PAGE_CUR_G) = false)
      by (destruct Hm as [-> | ->]; reflexivity).
    rewrite Hno. unfold ut_error. cbv beta iota.
    split; [eauto | intros c' m' H; discriminate H].
  - intros Hm.
    assert (Hyes : bool_decide (mode = PAGE_CUR_GE)
                   || bool_decide (mode = PAGE_CUR_G) = true)
      by (destruct Hm as [-> | ->]; reflexivity).
    rewrite Hyes.
    eexists _, _. split; [reflexivity |].
    split; [reflexivity |]. split; [reflexivity |]. split; [reflexivity |].
    split.
    + intros Hlast. rewrite Hlast. reflexivity.
    + intros Hlast. rewrite Hlast. cbv zeta.
      unfold act, ret, log_call. cbn [mem calls].
      destruct (btr_pcur_move_to_next_user_rec _ _) as [moved w].
      reflexivity.
Qed.

(** **** Release, empty tree, moves *)

Lemma btr_pcur_release_leaf_eq (cursor : btr_pcur_t) (m : machine world) :
  btr_pcur_release_leaf cursor m =
  if bool_decide (pos_state cursor = BTR_PCUR_IS_POSITIONED)
  then Ok (released cursor) (after_release cursor m)
  else Abort m.
Proof.
  unfold btr_pcur_release_leaf.
  destruct (bool_decide (pos_state cursor = BTR_PCUR_IS_POSITIONED));
    reflexivity.
Qed.

Lemma move_aborts_unless_positioned (cursor : btr_pcur_t)
    (m : machine world) :
  pos_state cursor <> BTR_PCUR_IS_POSITIONED ->
  btr_pcur_store_position cursor m = Abort m /\
  btr_pcur_release_leaf cursor m = Abort m /\
  btr_pcur_move_to_next_page cursor m = Abort m /\
  btr_pcur_move_backward_from_page cursor m = Abort m.
Proof.
  intros Hp.
  assert (Hb : bool_decide (pos_state cursor = BTR_PCUR_IS_POSITIONED) = false)
    by (apply bool_decide_eq_false_2; exact Hp).
  unfold btr_pcur_store_position, btr_pcur_release_leaf,
    btr_pcur_move_to_next_page, btr_pcur_move_backward_from_page.
  rewrite Hb. repeat split; reflexivity.
Qed.

(** X14: [btr_pcur_release_leaf] dies in its assertion unless the cursor
    is positioned.  On a positioned cursor it releases the cursor's block
    under the cursor's latch mode, that one call and no other, and leaves
    the cursor [WAS_POSITIONED] with [BTR_NO_LATCHES], the stored position
    untouched.  Until it is restored, such a cursor can be neither stored,
    released nor moved: each of these dies in its first assertion, the world
    unchanged; and a restore dies too when no position was stored. *)
Theorem btr_pcur_release_leaf_spec (cursor : btr_pcur_t) (m : machine world) :
  let c' := released cursor in
  let m' := after_release cursor m in
  (pos_state cursor <> BTR_PCUR_IS_POSITIONED ->
   btr_pcur_release_leaf cursor m = Abort m) /\
  (pos_state cursor = BTR_PCUR_IS_POSITIONED ->
   btr_pcur_release_leaf cursor m = Ok c' m' /\
   new_calls m (btr_pcur_release_leaf cursor m) =
     [Call_btr_leaf_page_release (btr_pcur_get_block cursor)
        (latch_mode cursor)] /\
   pos_state c' = BTR_PCUR_WAS_POSITIONED /\
   latch_mode c' = BTR_NO_LATCHES /\
   btr_cur c' = btr_cur cursor /\
   old_stored c' = old_stored cursor /\
   rel_pos c' = rel_pos cursor /\
   old_rec c' = old_rec cursor /\
   old_n_fields c' = old_n_fields cursor /\
   block_when_stored c' = block_when_stored cursor /\
   modify_clock c' = modify_clock cursor /\
   btr_pcur_store_position c' m' = Abort m' /\
   btr_pcur_release_leaf c' m' = Abort m' /\
   btr_pcur_move_to_next_page c' m' = Abort m' /\
   btr_pcur_move_backward_from_page c' m' = Abort m' /\
   (old_stored cursor = BTR_PCUR_OLD_NOT_STORED ->
    forall latch, btr_pcur_restore_position_func latch c' m' = Abort m')).
Proof.
  intros c' m'. subst c' m'. rewrite btr_pcur_release_leaf_eq. split.
  - intros Hp. now rewrite (bool_decide_eq_false_2 _ Hp).
  - intros Hp. rewrite (bool_decide_eq_true_2 _ Hp).
    split; [reflexivity |].
    split; [unfold after_release, log_call; apply new_calls_Ok_log |].
    do 9 (split; [reflexivity |]).
    assert (Hw : pos_state (released cursor) <> BTR_PCUR_IS_POSITIONED)
      by discriminate.
    destruct (move_aborts_unless_positioned (released cursor)
                (after_release cursor m) Hw) as (H1 & H2 & H3 & H4).
    repeat (split; [assumption |]).
    intros Hns latch. apply btr_pcur_restore_position_not_stored. exact Hns.
Qed.

(** X15: a restore of a position stored in an empty tree (relative
    position before-first or after-last in tree) makes no optimistic
    reacquisition, whatever the latch mode: it opens the cursor at the left,
    respectively right, end of the index with one call, records the new
    block in [block_when_stored] and returns false.  It sets neither
    [pos_state] nor [latch_mode]: both are as before the call, as are the
    stored position and the modify-clock. *)
Theorem btr_pcur_restore_position_tree_edge
    (latch : btr_latch_mode) (cursor : btr_pcur_t) (m : machine world) :
  old_stored cursor = BTR_PCUR_OLD_STORED ->
  pos_state cursor = BTR_PCUR_WAS_POSITIONED \/
    pos_state cursor = BTR_PCUR_IS_POSITIONED ->
  rel_pos cursor = BTR_PCUR_BEFORE_FIRST_IN_TREE \/
    rel_pos cursor = BTR_PCUR_AFTER_LAST_IN_TREE ->
  let from_left :=
    bool_decide (rel_pos cursor = BTR_PCUR_BEFORE_FIRST_IN_TREE) in
  let side :=
    Call_btr_cur_open_at_index_side from_left (m_index (btr_cur cursor))
      latch in
  let opened :=
    btr_cur_open_at_index_side from_left (m_index (btr_cur cursor)) latch
      (btr_cur cursor) (mem m) in
  exists c',
    btr_pcur_restore_position_func latch cursor m =
      Ok (false, c') (log_call m (snd opened) side) /\
    new_calls m (btr_pcur_restore_position_func latch cursor m) = [side] /\
    btr_cur c' = fst opened /\
    block_when_stored c' = block (m_page_cur (fst opened)) /\
    pos_state c' = pos_state cursor /\
    latch_mode c' = latch_mode cursor /\
    old_stored c' = BTR_PCUR_OLD_STORED /\
    rel_pos c' = rel_pos cursor /\
    old_rec c' = old_rec cursor /\
    modify_clock c' = modify_clock cursor /\
    search_mode c' = search_mode cursor.
Proof.
  intros Hst Hps Hedge from_left side opened.
  exists (set_block_when_stored (set_btr_cur cursor (fst opened))
            (block (m_page_cur (fst opened)))).
  assert (Hrun :
    btr_pcur_restore_position_func latch cursor m =
      Ok (false,
          set_block_when_stored (set_btr_cur cursor (fst opened))
            (block (m_page_cur (fst opened))))
         (log_call m (snd opened) side)).
  { unfold btr_pcur_restore_position_func.
    rewrite (bool_decide_eq_true_2 _ Hst).
    assert (Hp :
      negb (bool_decide (pos_state cursor = BTR_PCUR_WAS_POSITIONED))
      && negb (bool_decide (pos_state cursor = BTR_PCUR_IS_POSITIONED))
      = false).
    { destruct Hps as [-> | ->]; reflexivity. }
    rewrite Hp. simpl. unfold bind at 1. simpl.
    assert (He :
      bool_decide (rel_pos cursor = BTR_PCUR_AFTER_LAST_IN_TREE)
      || bool_decide (rel_pos cursor = BTR_PCUR_BEFORE_FIRST_IN_TREE)
      = true).
    { destruct Hedge as [-> | ->]; reflexivity. }
    rewrite He.
    unfold bind, act, ret, btr_cur_get_index, btr_pcur_get_btr_cur.
    subst opened side from_left.
    destruct (btr_cur_open_at_index_side _ _ _ _ _) as [landing w].
    reflexivity. }
  split; [exact Hrun |].
  split; [rewrite Hrun; unfold log_call; apply new_calls_Ok_log |].
  repeat split; try reflexivity. exact Hst.
Qed.

Lemma btr_pcur_restore_position_Ok_fields
    (latch : btr_latch_mode) (cursor c' : btr_pcur_t) (m m' : machine world)
    (b : bool) :
  btr_pcur_restore_position_func latch cursor m = Ok (b, c') m' ->
  restore_entry_check cursor /\
  old_stored c' = BTR_PCUR_OLD_STORED /\
  search_mode c' = search_mode cursor /\
  (is_tree_edge (rel_pos cursor) = false ->
   pos_state c' = BTR_PCUR_IS_POSITIONED) /\
  (is_tree_edge (rel_pos cursor) = true ->
   b = false /\ pos_state c' = pos_state cursor /\
   latch_mode c' = latch_mode cursor) /\
  (b = true ->
   rel_pos cursor = BTR_PCUR_ON /\ rel_pos c' = BTR_PCUR_ON /\
   latch_mode c' = latch /\ old_rec c' = old_rec cursor /\
   old_n_fields c' = old_n_fields cursor).
Proof.
  intros Hrun.
  destruct (btr_pcur_restore_position_paths latch cursor m)
    as [Hwhy Ha | landing w Hen He Hr | Hen He Hcp Hl Hg Hr
       | bytes m0 Hen He Hcp Hb Hm0 Hr].
  - congruence.
  - rewrite Hr in Hrun. injection Hrun as <- <- _.
    split; [exact Hen |]. split; [apply Hen |]. split; [reflexivity |].
    split; [congruence |]. split; [auto | discriminate].
  - rewrite Hr in Hrun. injection Hrun as <- <- _.
    split; [exact Hen |].
    destruct (bool_decide (rel_pos cursor = BTR_PCUR_ON)) eqn:Hon.
    + apply bool_decide_eq_true_1 in Hon.
      split; [apply Hen |]. split; [reflexivity |]. split; [reflexivity |].
      split; [congruence |]. intros _. auto.
    + split; [apply Hen |]. split; [reflexivity |]. split; [reflexivity |].
      split; [congruence | discriminate].
  - split; [exact Hen |].
    rewrite Hr, btr_pcur_restore_position_open_anew_eq in Hrun.
    cbv zeta in Hrun.
    match type of Hrun with
    | (if ?c then _ else _) = _ => destruct c eqn:Hsame
    end.
    + injection Hrun as <- <- _.
      apply andb_true_iff in Hsame as [Hsame _].
      apply andb_true_iff in Hsame as [Hon _].
      apply bool_decide_eq_true_1 in Hon.
      split; [reflexivity |]. split; [reflexivity |]. split; [reflexivity |].
      split; [congruence |]. intros _. auto.
    + apply bind_Ok_inv in Hrun as (c2 & m2 & Hstore & Hret).
      unfold ret in Hret. injection Hret as <- <- _.
      apply btr_pcur_store_position_Ok in Hstore
        as (_ & _ & _ & Hsm & Hps & Hos).
      split; [exact Hos |]. split; [exact Hsm |].
      split; [intros _; exact Hps |].
      split; [congruence | discriminate].
Qed.

(** X16: whenever [btr_pcur_restore_position_func] returns, the cursor
    holds a stored position again and is in a state a further restore
    accepts; its search mode is the caller's.  Past the empty-tree case the
    cursor is positioned.  It returns true only for a position stored on a
    user record, and then the cursor is latched under the requested mode and
    keeps the stored prefix. *)
Theorem btr_pcur_restore_position_returns_stored
    (latch : btr_latch_mode) (cursor c' : btr_pcur_t) (m m' : machine world)
    (b : bool) :
  btr_pcur_restore_position_func latch cursor m = Ok (b, c') m' ->
  old_stored c' = BTR_PCUR_OLD_STORED /\
  (pos_state c' = BTR_PCUR_WAS_POSITIONED \/
   pos_state c' = BTR_PCUR_IS_POSITIONED) /\
  search_mode c' = search_mode cursor /\
  (is_tree_edge (rel_pos cursor) = false ->
   pos_state c' = BTR_PCUR_IS_POSITIONED) /\
  (is_tree_edge (rel_pos cursor) = true ->
   b = false /\ pos_state c' = pos_state cursor /\
   latch_mode c' = latch_mode cursor) /\
  (b = true ->
   rel_pos cursor = BTR_PCUR_ON /\ rel_pos c' = BTR_PCUR_ON /\
   latch_mode c' = latch /\ old_rec c' = old_rec cursor /\
   old_n_fields c' = old_n_fields cursor).
Proof.
  intros Hrun.
  destruct (btr_pcur_restore_position_Ok_fields _ _ _ _ _ _ Hrun)
    as ((_ & Hps) & Hos & Hsm & Hpos & Hedge & Htrue).
  split; [exact Hos |]. split; [| auto].
  destruct (is_tree_edge (rel_pos cursor)) eqn:He.
  - destruct (Hedge eq_refl) as (_ & -> & _). exact Hps.
  - right. auto.
Qed.

Lemma store_rel_pos_not_edge (r : Z) :
  is_tree_edge (store_rel_pos r) = false.
Proof.
  unfold store_rel_pos.
  destruct (page_rec_is_supremum_low _); [reflexivity |].
  destruct (page_rec_is_infimum_low _); reflexivity.
Qed.

Lemma store_rel_pos_on_user_rec (cursor : btr_pcur_t) :
  bool_decide (store_rel_pos (btr_pcur_get_rec cursor) = BTR_PCUR_ON)
  = btr_pcur_is_on_user_rec cursor.
Proof.
  unfold store_rel_pos, btr_pcur_is_on_user_rec,
    btr_pcur_is_before_first_on_page, btr_pcur_is_after_last_on_page.
  destruct (page_rec_is_supremum_low _);
    [rewrite orb_true_r; reflexivity |].
  destruct (page_rec_is_infimum_low _); reflexivity.
Qed.

(** X17: a positioned, latched cursor on a page with user records is
    stored, its leaf released, and restored under a leaf latch mode.  If the
    optimistic reacquisition of the block against the stored modify-clock
    then succeeds, the three calls return; the answer is true exactly when
    the cursor stood on a user record; the cursor is positioned on the page
    cursor it had, with its position stored; the world has seen one release
    and one reacquisition and no tree search.  After a store on the infimum
    or the supremum the cursor's [latch_mode] still reads [BTR_NO_LATCHES],
    although the latch is held. *)
Theorem store_release_restore_optimistic
    (latch : btr_latch_mode) (cursor : btr_pcur_t) (m : machine world) :
  let w := mem m in
  let r := btr_pcur_get_rec cursor in
  let blk := btr_pcur_get_block cursor in
  let clock := buf_block_get_modify_clock w blk in
  let copy :=
    dict_index_copy_rec_order_prefix w (m_index (btr_cur cursor))
      (store_anchor w r) (old_rec_buf cursor) (buf_size cursor) in
  let w1 := btr_leaf_page_release blk (latch_mode cursor) w in
  pos_state cursor = BTR_PCUR_IS_POSITIONED ->
  latch_mode cursor <> BTR_NO_LATCHES ->
  page_get_n_recs w (page_align r) <> 0 ->
  prefix_n_fields copy <> 0 ->
  is_leaf_latch latch = true ->
  fst (buf_page_optimistic_get latch blk clock w1) = true ->
  exists c' m',
    store_release_restore latch cursor m
      = Ok (btr_pcur_is_on_user_rec cursor, c') m' /\
    btr_cur c' = btr_cur cursor /\
    pos_state c' = BTR_PCUR_IS_POSITIONED /\
    old_stored c' = BTR_PCUR_OLD_STORED /\
    rel_pos c' = store_rel_pos r /\
    latch_mode c' =
      (if btr_pcur_is_on_user_rec cursor then latch else BTR_NO_LATCHES) /\
    mem m' = snd (buf_page_optimistic_get latch blk clock w1) /\
    calls m' = calls m ++
      [Call_btr_leaf_page_release blk (latch_mode cursor);
       Call_buf_page_optimistic_get latch blk clock true].
Proof.
  intros w r blk clock copy w1 Hpos Hlatch Hrecs Hnf Hleaf Hget.
  subst w1 copy clock blk r w.
  set (w := mem m) in *.
  unfold store_release_restore.
  assert (Hstore : btr_pcur_store_position cursor m
                   = Ok (stored_on_records w cursor) m).
  { rewrite btr_pcur_store_position_eq. unfold store_position_asserts.
    rewrite (bool_decide_eq_true_2 _ Hpos).
    assert (Hl : bool_decide (latch_mode cursor = BTR_NO_LATCHES) = false)
      by (apply bool_decide_eq_false_2; exact Hlatch).
    rewrite Hl.
    apply Z.eqb_neq in Hrecs. fold w. rewrite Hrecs. reflexivity. }
  unfold bind at 1. rewrite Hstore.
  set (c1 := stored_on_records w cursor).
  unfold bind at 1. rewrite btr_pcur_release_leaf_eq.
  assert (Hp1 : pos_state c1 = BTR_PCUR_IS_POSITIONED) by exact Hpos.
  rewrite (bool_decide_eq_true_2 _ Hp1).
  set (c2 := released c1). set (m2 := after_release c1 m).
  assert (Hm2 : mem m2 = btr_leaf_page_release (btr_pcur_get_block cursor)
                            (latch_mode cursor) w) by reflexivity.
  assert (Hrel : rel_pos c2 = store_rel_pos (btr_pcur_get_rec cursor))
    by reflexivity.
  assert (Hbws : block_when_stored c2 = btr_pcur_get_block cursor)
    by reflexivity.
  assert (Hclk : modify_clock c2
                 = buf_block_get_modify_clock w (btr_pcur_get_block cursor))
    by reflexivity.
  destruct (btr_pcur_restore_position_paths latch c2 m2)
    as [Hwhy Ha | landing w' Hen He Hr | Hen He Hcp Hl Hg Hr
       | bytes m0 Hen He Hcp Hb Hm0 Hr].
  - exfalso. destruct Hwhy as [Hwhy | [_ Hwhy]]; apply Hwhy.
    + split; [reflexivity | left; reflexivity].
    + split; [discriminate | exact Hnf].
  - exfalso. rewrite Hrel, store_rel_pos_not_edge in He. discriminate.
  - rewrite Hr. rewrite Hrel, store_rel_pos_on_user_rec.
    rewrite Hbws, Hclk, Hm2.
    destruct (btr_pcur_is_on_user_rec cursor); eexists _, _;
      (split; [reflexivity |]);
      (do 6 (split; [reflexivity |]));
      unfold log_call, m2, after_release, log_call; cbn [calls];
      rewrite <- app_assoc; reflexivity.
  - exfalso. destruct Hm0 as [[Hl _] | (_ & Hf & _)]; [congruence |].
    rewrite Hbws, Hclk, Hm2 in Hf. congruence.
Qed.

Lemma restore_non_leaf_calls
    (latch : btr_latch_mode) (cursor : btr_pcur_t) (m m' : machine world)
    (r : bool * btr_pcur_t) :
  is_leaf_latch latch = false ->
  btr_pcur_restore_position_func latch cursor m = Ok r m' ->
  calls m' = calls m ++ [restore_search latch cursor] /\
  is_tree_search (restore_search latch cursor) = true.
Proof.
  intros Hleaf Hrun. unfold restore_search.
  destruct (btr_pcur_restore_position_paths latch cursor m)
    as [Hwhy Ha | landing w Hen He Hr | Hen He Hcp Hl Hg Hr
       | bytes m0 Hen He Hcp Hb Hm0 Hr].
  - congruence.
  - rewrite Hr in Hrun. injection Hrun as _ <-.
    rewrite He. split; reflexivity.
  - congruence.
  - destruct Hm0 as [[_ ->] | (Hl & _)]; [| congruence].
    pose proof (btr_pcur_restore_position_open_anew_final latch cursor bytes m)
      as Hfin.
    cbv zeta in Hfin. rewrite <- Hr, Hrun in Hfin. simpl in Hfin.
    rewrite Hfin, He. split; reflexivity.
Qed.

Lemma backward_latch_not_leaf (latch : btr_latch_mode) :
  is_leaf_latch (backward_latch latch) = false.
Proof.
  unfold backward_latch. destruct (bool_decide _); reflexivity.
Qed.

(** X18: a [btr_pcur_move_backward_from_page] that returns was called on a
    positioned cursor latched under [BTR_SEARCH_LEAF] or [BTR_MODIFY_LEAF].
    It stores the position, commits the mini-transaction and starts it
    again, then restores under [BTR_SEARCH_PREV], respectively
    [BTR_MODIFY_PREV]: no optimistic reacquisition is tried, the tree is
    searched once, under that latch mode.  What follows depends on where
    the restore has landed.  On a page without left sibling nothing more
    happens.  On the infimum of a page with a left sibling, the page is
    released and the cursor put on the supremum of the left block.
    Elsewhere on such a page, the left block is released and the cursor
    stays.  Both releases are made under the latch mode the cursor had
    on entry.  The cursor comes back positioned, with the latch mode and
    the search mode it had and no stored position. *)
Theorem btr_pcur_move_backward_from_page_spec
    (cursor c' : btr_pcur_t) (m m' : machine world) :
  btr_pcur_move_backward_from_page cursor m = Ok c' m' ->
  pos_state cursor = BTR_PCUR_IS_POSITIONED /\
  (latch_mode cursor = BTR_SEARCH_LEAF \/
   latch_mode cursor = BTR_MODIFY_LEAF) /\
  latch_mode c' = latch_mode cursor /\
  search_mode c' = search_mode cursor /\
  pos_state c' = BTR_PCUR_IS_POSITIONED /\
  old_stored c' = BTR_PCUR_OLD_NOT_STORED /\
  exists latch2 c1 b c2 m2 releases,
    (latch_mode cursor = BTR_SEARCH_LEAF /\ latch2 = BTR_SEARCH_PREV \/
     latch_mode cursor = BTR_MODIFY_LEAF /\ latch2 = BTR_MODIFY_PREV) /\
    btr_pcur_store_position cursor m = Ok c1 m /\
    btr_pcur_restore_position_func latch2 c1 (after_commit_and_start m)
      = Ok (b, c2) m2 /\
    calls m2 =
      calls m ++
      [Call_mtr_commit; Call_mtr_start; restore_search latch2 c1] /\
    is_tree_search (restore_search latch2 c1) = true /\
    calls m' = calls m2 ++ releases /\
    let latch := latch_mode cursor in
    let prev_page_no := btr_page_get_prev (mem m2) (btr_pcur_get_page c2) in
    let prev_block := left_block (btr_cur c2) in
    (prev_page_no = FIL_NULL ->
     releases = [] /\ mem m' = mem m2 /\ btr_cur c' = btr_cur c2) /\
    (prev_page_no <> FIL_NULL ->
     btr_pcur_is_before_first_on_page c2 = true ->
     releases = [Call_btr_leaf_page_release (btr_pcur_get_block c2) latch] /\
     mem m' = btr_leaf_page_release (btr_pcur_get_block c2) latch (mem m2) /\
     btr_pcur_get_block c' = prev_block /\
     btr_pcur_get_rec c'
       = page_get_supremum_rec (buf_block_get_frame (mem m') prev_block)) /\
    (prev_page_no <> FIL_NULL ->
     btr_pcur_is_before_first_on_page c2 = false ->
     releases = [Call_btr_leaf_page_release prev_block latch] /\
     mem m' = btr_leaf_page_release prev_block latch (mem m2) /\
     btr_cur c' = btr_cur c2).
Proof.
  unfold btr_pcur_move_backward_from_page. intros H.
  apply bind_Ok_inv in H as ([] & m1 & Hpos & H).
  assert (Hp : pos_state cursor = BTR_PCUR_IS_POSITIONED /\ m1 = m).
  { unfold ut_a in Hpos.
    destruct (bool_decide (pos_state cursor = BTR_PCUR_IS_POSITIONED))
      eqn:Hb; [| discriminate].
    apply bool_decide_eq_true_1 in Hb. injection Hpos as <-. auto. }
  destruct Hp as [Hp ->].
  apply bind_Ok_inv in H as (latch2 & m2 & Hl2 & H).
  assert (Hl : (latch_mode cursor = BTR_SEARCH_LEAF /\
                latch2 = BTR_SEARCH_PREV \/
                latch_mode cursor = BTR_MODIFY_LEAF /\
                latch2 = BTR_MODIFY_PREV) /\
               latch2 = backward_latch (latch_mode cursor) /\ m2 = m).
  { unfold backward_latch.
    destruct (bool_decide (latch_mode cursor = BTR_SEARCH_LEAF)) eqn:Hs.
    - apply bool_decide_eq_true_1 in Hs. injection Hl2 as <- <-. auto.
    - destruct (bool_decide (latch_mode cursor = BTR_MODIFY_LEAF)) eqn:Hm;
        [| discriminate].
      apply bool_decide_eq_true_1 in Hm. injection Hl2 as <- <-. auto. }
  destruct Hl as (Hlatch & Hbl & ->).
  assert (Hleaf : is_leaf_latch latch2 = false)
    by (rewrite Hbl; apply backward_latch_not_leaf).
  clear Hbl Hl2.
  apply bind_Ok_inv in H as (c1 & m3 & Hstore & H).
  destruct (btr_pcur_store_position_Ok _ _ _ _ Hstore)
    as (-> & _ & Hlm1 & Hsm1 & Hps1 & _).
  apply bind_Ok_inv in H as ([] & m4 & Hcommit & H).
  unfold act in Hcommit. injection Hcommit as <-.
  apply bind_Ok_inv in H as ([] & m5 & Hstart & H).
  unfold act in Hstart. cbn [mem calls] in Hstart. injection Hstart as <-.
  apply bind_Ok_inv in H as ([b c2] & m6 & Hrestore & H).
  assert (Hm5 :
    {| mem := mtr_start (mtr_commit (mem m));
       calls := (calls m ++ [Call_mtr_commit]) ++ [Call_mtr_start] |}
    = after_commit_and_start m).
  { unfold after_commit_and_start. rewrite <- app_assoc. reflexivity. }
  rewrite Hm5 in Hrestore.
  destruct (restore_non_leaf_calls _ _ _ _ _ Hleaf Hrestore)
    as (Hcalls & Hsearch).
  destruct (btr_pcur_restore_position_Ok_fields _ _ _ _ _ _ Hrestore)
    as (_ & _ & Hsm2 & Hpos2 & Hedge2 & _).
  assert (Hps2 : pos_state c2 = BTR_PCUR_IS_POSITIONED).
  { destruct (is_tree_edge (rel_pos c1)) eqn:He; [| auto].
    destruct (Hedge2 eq_refl) as (_ & -> & _). congruence. }
  apply bind_Ok_inv in H as (prev_page_no & m7 & Hread & H).
  unfold read in Hread. injection Hread as <- <-.
  apply bind_Ok_inv in H as (c3 & m8 & Hbranch & H).
  unfold ret in H. injection H as <- <-.
  cbn [snd] in Hbranch.
  split; [exact Hp |].
  split; [destruct Hlatch as [[? _] | [? _]]; auto |].
  split; [reflexivity |].
  assert (Hsame : search_mode c3 = search_mode c2 /\
                  pos_state c3 = pos_state c2).
  { destruct (_ =? FIL_NULL) in Hbranch.
    - unfold ret in Hbranch. injection Hbranch as <- _. auto.
    - destruct (btr_pcur_is_before_first_on_page c2).
      + apply bind_Ok_inv in Hbranch as ([] & m9 & _ & Hbranch).
        apply bind_Ok_inv in Hbranch as (cur & m10 & _ & Hbranch).
        unfold ret in Hbranch. injection Hbranch as <- _. auto.
      + apply bind_Ok_inv in Hbranch as ([] & m9 & _ & Hbranch).
        unfold ret in Hbranch. injection Hbranch as <- _. auto. }
  destruct Hsame as [Hsm3 Hps3].
  split; [cbn; congruence |].
  split; [cbn; congruence |]. split; [reflexivity |].
  assert (Hcalls6 :
    calls m6 = calls m ++
      [Call_mtr_commit; Call_mtr_start; restore_search latch2 c1]).
  { rewrite Hcalls. unfold after_commit_and_start. cbn [calls].
    rewrite <- !app_assoc. reflexivity. }
  destruct (Z.eqb_spec
              (btr_page_get_prev (mem m6) (btr_pcur_get_page c2)) FIL_NULL)
    as [Hnull | Hprev].
  - unfold ret in Hbranch. injection Hbranch as <- <-.
    exists latch2, c1, b, c2, m6, [].
    split; [exact Hlatch |]. split; [exact Hstore |].
    split; [exact Hrestore |]. split; [exact Hcalls6 |].
    split; [exact Hsearch |]. split; [now rewrite app_nil_r |].
    cbv zeta. split; [auto | split; intros; contradiction].
  - destruct (btr_pcur_is_before_first_on_page c2) eqn:Hfirst.
    + apply bind_Ok_inv in Hbranch as ([] & m9 & Hrel & Hbranch).
      unfold act in Hrel. injection Hrel as <-.
      apply bind_Ok_inv in Hbranch as (cur & m10 & Hcur & Hbranch).
      unfold page_cur_set_after_last in Hcur.
      apply bind_Ok_inv in Hcur as (frame & m11 & Hfr & Hcur).
      unfold read in Hfr. injection Hfr as <- <-.
      unfold ret in Hcur. injection Hcur as <- <-.
      unfold ret in Hbranch. injection Hbranch as <- <-.
      eexists latch2, c1, b, c2, m6, _.
      split; [exact Hlatch |]. split; [exact Hstore |].
      split; [exact Hrestore |]. split; [exact Hcalls6 |].
      split; [exact Hsearch |]. split; [reflexivity |].
      cbv zeta. split; [intros; contradiction |].
      split; [| intros; congruence].
      intros _ _. repeat split; reflexivity.
    + apply bind_Ok_inv in Hbranch as ([] & m9 & Hrel & Hbranch).
      unfold act in Hrel. injection Hrel as <-.
      unfold ret in Hbranch. injection Hbranch as <- <-.
      eexists latch2, c1, b, c2, m6, _.
      split; [exact Hlatch |]. split; [exact Hstore |].
      split; [exact Hrestore |]. split; [exact Hcalls6 |].
      split; [exact Hsearch |]. split; [reflexivity |].
      cbv zeta. split; [intros; contradiction |].
      split; [intros; congruence |].
      intros _ _. repeat split; reflexivity.
Qed.

(** X19: [btr_pcur_move_to_next_page] dies in its first assertion, the
    world untouched, unless the cursor is positioned.  On a positioned
    cursor it fetches and latches, under the cursor's latch mode, the block
    of the page number the current page names as its successor, whatever
    that number is ([FIL_NULL] included: only a debug assertion looks at
    it).  In a build with [UNIV_BTR_DEBUG] it then dies, the current block
    still latched, unless the fetched page has the page-format flag of the
    current page and names the current block as its predecessor.
    Otherwise it releases the current block and returns: the cursor is on
    the infimum of the fetched block, positioned, its latch mode unchanged
    and no position stored. *)
Theorem btr_pcur_move_to_next_page_spec
    (cursor : btr_pcur_t) (m : machine world) :
  let w := mem m in
  let blk := btr_pcur_get_block cursor in
  let page := btr_pcur_get_page cursor in
  let next_page_no := btr_page_get_next w page in
  let space := buf_block_get_space w blk in
  let fetch := Call_btr_block_get space next_page_no (latch_mode cursor) in
  let got := btr_block_get space next_page_no (latch_mode cursor) w in
  let next_block := fst got in
  let next_page := buf_block_get_frame (snd got) next_block in
  let linked :=
    page_is_comp (snd got) next_page = page_is_comp (snd got) page /\
    btr_page_get_prev (snd got) next_page
      = buf_block_get_page_no (snd got) blk in
  let w' :=
    btr_leaf_page_release blk (latch_mode cursor)
      (buf_block_set_check_index_page_at_flush next_block (snd got)) in
  (pos_state cursor <> BTR_PCUR_IS_POSITIONED ->
   btr_pcur_move_to_next_page cursor m = Abort m) /\
  (pos_state cursor = BTR_PCUR_IS_POSITIONED ->
   UNIV_BTR_DEBUG = true -> ~ linked ->
   btr_pcur_move_to_next_page cursor m =
     Abort (mk_machine (snd got) (calls m ++ [fetch]))) /\
  (pos_state cursor = BTR_PCUR_IS_POSITIONED ->
   UNIV_BTR_DEBUG = false \/ linked ->
   exists c',
     btr_pcur_move_to_next_page cursor m =
       Ok c'
          (mk_machine w'
             (calls m ++
              [fetch; Call_btr_leaf_page_release blk (latch_mode cursor)])) /\
     btr_pcur_get_block c' = next_block /\
     btr_pcur_get_rec c'
       = page_get_infimum_rec (buf_block_get_frame w' next_block) /\
     m_index (btr_cur c') = m_index (btr_cur cursor) /\
     latch_mode c' = latch_mode cursor /\
     pos_state c' = BTR_PCUR_IS_POSITIONED /\
     old_stored c' = BTR_PCUR_OLD_NOT_STORED).
Proof.
  intros w blk page next_page_no space fetch got next_block next_page linked
    w'.
  pose proof (next_page_asserts_iff (snd got) cursor (fst got)) as Hiff.
  fold blk page next_block next_page linked in Hiff.
  pose proof (btr_pcur_move_to_next_page_eq cursor m) as Heq.
  cbv zeta in Heq.
  fold w blk page next_page_no space got next_block in Heq.
  split; [| split].
  - intros Hp. apply (move_aborts_unless_positioned cursor m Hp).
  - intros Hp Hdebug Hbroken. rewrite Heq.
    rewrite (bool_decide_eq_true_2 _ Hp).
    destruct (next_page_asserts (snd got) cursor next_block).
    + destruct (proj1 Hiff eq_refl) as [Hoff | Hlinked];
        [congruence | contradiction].
    + reflexivity.
  - intros Hp Hok. rewrite Heq.
    rewrite (bool_decide_eq_true_2 _ Hp).
    rewrite (proj2 Hiff Hok).
    eexists. split.
    + unfold log_call. cbn [mem calls]. rewrite <- app_assoc. reflexivity.
    + repeat split; try reflexivity. exact Hp.
Qed.

End PersistentCursorProofs.

(** *** Persistent cursor: runs in the concrete world *)



Example toy_store_on_2 :
  btr_pcur_store_position (env := toy_env)
    (toy_cursor_at 0 (SlotUser 1) BTR_SEARCH_LEAF) (toy_machine toy_one_leaf)
  = Ok toy_stored_on_2 (toy_machine toy_one_leaf).
Proof. vm_compute. reflexivity. Qed.

Example toy_store_on_supremum :
  btr_pcur_store_position (env := toy_env)
    (toy_cursor_at 0 SlotSupremum BTR_SEARCH_LEAF) (toy_machine toy_one_leaf)
  = Ok toy_stored_after_3 (toy_machine toy_one_leaf).
Proof. vm_compute. reflexivity. Qed.

(** Scenario S1: optimistic hit, no tree search. *)
Example toy_restore_optimistic_hit :
  btr_pcur_restore_position_func (env := toy_env) BTR_SEARCH_LEAF
    toy_stored_on_2 (toy_machine toy_one_leaf)
  = Ok (true, toy_stored_on_2)
       (mk_machine (mk_toy_world (tw_pages toy_one_leaf) [(1, BTR_SEARCH_LEAF)])
          [Call_buf_page_optimistic_get BTR_SEARCH_LEAF 1 5 true]).
Proof. vm_compute. reflexivity. Qed.

(** Scenario S3: the record has vanished; the restore lands on key 1,
    stores that position and returns false. *)
Example toy_restore_record_vanished :
  option_map
    (fun r => (fst r, btr_pcur_get_page_cur (snd r), old_rec (snd r),
               rel_pos (snd r), modify_clock (snd r)))
    (returned
       (btr_pcur_restore_position_func (env := toy_env) BTR_SEARCH_LEAF
          toy_stored_on_2 (toy_machine toy_one_leaf_without_2)))
  = Some (false, mk_page_cur (toy_rec_addr 0 (SlotUser 0)) (toy_block 0),
          Some [1], BTR_PCUR_ON, 6).
Proof. vm_compute. reflexivity. Qed.

(** Empty tree: store on the infimum, restore at the tree edge, false. *)
Example toy_store_restore_empty_tree :
  option_map (fun r => (fst r, rel_pos (snd r), old_rec (snd r)))
    (returned
       (store_then_restore (env := toy_env) BTR_SEARCH_LEAF
          (toy_cursor_at 0 SlotInfimum BTR_SEARCH_LEAF)
          (toy_machine toy_empty_tree)))
  = Some (false, BTR_PCUR_BEFORE_FIRST_IN_TREE, None).
Proof. vm_compute. reflexivity. Qed.

(** Scenario S6: from the infimum of leaf B the cursor moves to the record
    with key 3 of leaf A, holding one latch, on A. *)
Example toy_move_backward :
  match btr_pcur_move_backward_from_page (env := toy_env)
          (toy_cursor_at 1 SlotInfimum BTR_SEARCH_LEAF)
          (toy_machine toy_two_leaves) with
  | Ok c m =>
      btr_pcur_get_page_cur c
        = mk_page_cur (toy_rec_addr 0 (SlotUser 2)) (toy_block 0) /\
      old_stored c = BTR_PCUR_OLD_NOT_STORED /\
      latch_mode c = BTR_SEARCH_LEAF /\
      tw_memo (mem m) = [(toy_block 0, BTR_SEARCH_PREV)]
  | Abort _ => False
  end.
Proof. vm_compute. repeat split; reflexivity. Qed.

(** The round trip under a latch mode that is not a leaf mode: the cursor
    is opened anew and lands on the record it was on. *)
Example toy_store_restore_modify_tree :
  exists c' m',
    store_then_restore (env := toy_env) BTR_MODIFY_TREE
      (toy_cursor_at 0 (SlotUser 1) BTR_SEARCH_LEAF)
      (toy_machine toy_one_leaf) = Ok (true, c') m' /\
    btr_pcur_get_page_cur c'
      = mk_page_cur (toy_rec_addr 0 (SlotUser 1)) (toy_block 0) /\
    pos_state c' = BTR_PCUR_IS_POSITIONED.
Proof.
  apply (store_restore_on_user_rec (env := toy_env) BTR_MODIFY_TREE
           (toy_cursor_at 0 (SlotUser 1) BTR_SEARCH_LEAF)
           (toy_machine toy_one_leaf)).
  - reflexivity.
  - discriminate.
  - vm_compute. reflexivity.
  - vm_compute. discriminate.
  - vm_compute. discriminate.
  - intros H. vm_compute in H. discriminate H.
  - intros _. vm_compute. split; reflexivity.
Qed.

(** C4, as stated, fails: from the supremum of a leaf that holds the keys
    1, 2, 3 and is not modified, store-then-restore returns false (the
    position is stored as AFTER), on the cursor it started from. *)
Lemma store_restore_supremum_counterexample :
  pos_state (toy_cursor_at 0 SlotSupremum BTR_SEARCH_LEAF)
    = BTR_PCUR_IS_POSITIONED /\
  store_then_restore (env := toy_env) BTR_SEARCH_LEAF
    (toy_cursor_at 0 SlotSupremum BTR_SEARCH_LEAF) (toy_machine toy_one_leaf)
  = Ok (false, toy_stored_after_3)
       (mk_machine (mk_toy_world (tw_pages toy_one_leaf) [(1, BTR_SEARCH_LEAF)])
          [Call_buf_page_optimistic_get BTR_SEARCH_LEAF 1 5 true]).
Proof. vm_compute. split; reflexivity. Qed.

(** The round trip from the record with key 2, under a leaf latch. *)
Lemma store_restore_roundtrip_witness :
  exists c' m',
    store_then_restore (env := toy_env) BTR_SEARCH_LEAF
      (toy_cursor_at 0 (SlotUser 1) BTR_SEARCH_LEAF)
      (toy_machine toy_one_leaf) = Ok (true, c') m' /\
    btr_pcur_get_page_cur c'
      = btr_pcur_get_page_cur (toy_cursor_at 0 (SlotUser 1) BTR_SEARCH_LEAF) /\
    pos_state c' = BTR_PCUR_IS_POSITIONED.
Proof.
  apply (proj1 (store_restore_roundtrip (env := toy_env) BTR_SEARCH_LEAF
                  (toy_cursor_at 0 (SlotUser 1) BTR_SEARCH_LEAF)
                  (toy_machine toy_one_leaf))).
  - reflexivity.
  - discriminate.
  - vm_compute. reflexivity.
  - vm_compute. discriminate.
  - vm_compute. discriminate.
  - intros _. vm_compute. reflexivity.
  - intros H. vm_compute in H. discriminate H.
Defined.

(** Restore after the record with key 2 has been deleted: the optimistic
    reacquisition fails and the cursor is opened anew. *)
Lemma btr_pcur_restore_position_pessimistic_witness :
  reopens_cursor (env := toy_env) BTR_SEARCH_LEAF toy_stored_on_2
    (toy_machine toy_one_leaf_without_2) /\
  exists c2 m1,
    btr_pcur_restore_position_func (env := toy_env) BTR_SEARCH_LEAF
      toy_stored_on_2 (toy_machine toy_one_leaf_without_2)
    = Ok (false, c2) m1.
Proof.
  assert (H : reopens_cursor (env := toy_env) BTR_SEARCH_LEAF toy_stored_on_2
                (toy_machine toy_one_leaf_without_2)).
  { exists 1, PAGE_CUR_LE. vm_compute. right. left. reflexivity. }
  split; [exact H |].
  destruct (btr_pcur_restore_position_pessimistic (env := toy_env)
              BTR_SEARCH_LEAF toy_stored_on_2
              (toy_machine toy_one_leaf_without_2) H)
    as (bytes & m0 & Hb & _ & Hm0 & Hrun).
  destruct Hm0 as [[Hl _] | (_ & Hget & Hcalls)]; [discriminate Hl |].
  assert (Em0 : m0 =
    mk_machine (mk_toy_world (tw_pages toy_one_leaf_without_2) [])
      [Call_buf_page_optimistic_get BTR_SEARCH_LEAF 1 5 false]).
  { destruct m0 as [w0 l0]. cbn [mem calls] in Hget, Hcalls.
    injection Hget as <-. rewrite Hcalls. reflexivity. }
  injection Hb as <-. subst m0.
  cbv zeta in Hrun. destruct Hrun as (_ & _ & _ & Hfalse & _).
  destruct Hfalse as (c2 & _ & Hr).
  - vm_compute. intros (_ & _ & Hcmp). discriminate Hcmp.
  - vm_compute. split; [discriminate | left; discriminate].
  - eexists _, _. exact Hr.
Defined.

(** C1, as stated, fails: the position below was stored on the record with
    key 2, which has been deleted since.  The restore is called with
    [BTR_NO_LATCHES], so it takes the pessimistic branch; the LE search
    lands on the record with key 1, which does not compare equal, and the
    call does not return false: it dies in the second [ut_a] of
    [btr_pcur_store_position], after the search. *)
Lemma btr_pcur_restore_position_unlatched_counterexample :
  reopens_cursor (env := toy_env) BTR_NO_LATCHES toy_stored_on_2
    (toy_machine toy_one_leaf_without_2) /\
  is_leaf_latch BTR_NO_LATCHES = false /\
  rel_pos toy_stored_on_2 = BTR_PCUR_ON /\
  btr_pcur_restore_position_func (env := toy_env) BTR_NO_LATCHES
    toy_stored_on_2 (toy_machine toy_one_leaf_without_2)
  = Abort
      (mk_machine
         (mk_toy_world (tw_pages toy_one_leaf_without_2)
            [(1, BTR_NO_LATCHES)])
         [Call_btr_cur_search_to_nth_level 1 PAGE_CUR_LE BTR_NO_LATCHES]) /\
  returned
    (btr_pcur_restore_position_func (env := toy_env) BTR_NO_LATCHES
       toy_stored_on_2 (toy_machine toy_one_leaf_without_2)) = None.
Proof.
  split.
  { exists 1, PAGE_CUR_LE. vm_compute. left. reflexivity. }
  vm_compute. repeat split; reflexivity.
Qed.


(** Restore under [BTR_MODIFY_LEAF] of a position stored AFTER under
    [BTR_SEARCH_LEAF]: the field keeps [BTR_SEARCH_LEAF]. *)
Lemma btr_pcur_restore_position_optimistic_frame_witness :
  optimistic_get_succeeds (env := toy_env) BTR_MODIFY_LEAF toy_stored_after_3
    (toy_machine toy_one_leaf) /\
  exists b c' m',
    btr_pcur_restore_position_func (env := toy_env) BTR_MODIFY_LEAF
      toy_stored_after_3 (toy_machine toy_one_leaf) = Ok (b, c') m' /\
    latch_mode c' = BTR_SEARCH_LEAF.
Proof.
  assert (H : optimistic_get_succeeds (env := toy_env) BTR_MODIFY_LEAF
                toy_stored_after_3 (toy_machine toy_one_leaf)).
  { unfold optimistic_get_succeeds. vm_compute. left. reflexivity. }
  split; [exact H |].
  destruct (btr_pcur_restore_position_optimistic_frame (env := toy_env)
              BTR_MODIFY_LEAF toy_stored_after_3 (toy_machine toy_one_leaf) H)
    as (b & c' & m' & Hrun & _ & _ & Hframe & _).
  destruct (Hframe (or_intror eq_refl)) as (_ & _ & Hl & _).
  exists b, c', m'. split; [exact Hrun | exact Hl].
Defined.


(** Opening on the two-leaf tree with LE and with G. *)
Lemma btr_pcur_open_on_user_rec_spec_witness :
  (exists m',
     btr_pcur_open_on_user_rec_func (env := toy_env) 1 [3] PAGE_CUR_LE
       BTR_SEARCH_LEAF toy_fresh_cursor (toy_machine toy_two_leaves)
     = Abort m') /\
  (exists c1 m1,
     btr_pcur_open_func (env := toy_env) 1 [3] PAGE_CUR_G BTR_SEARCH_LEAF
       toy_fresh_cursor (toy_machine toy_two_leaves) = Ok c1 m1 /\
     pos_state c1 = BTR_PCUR_IS_POSITIONED).
Proof.
  split.
  - exact (proj1 (proj1 (btr_pcur_open_on_user_rec_spec (env := toy_env)
                           1 [3] PAGE_CUR_LE BTR_SEARCH_LEAF toy_fresh_cursor
                           (toy_machine toy_two_leaves))
                    (or_intror eq_refl))).
  - destruct (proj2 (btr_pcur_open_on_user_rec_spec (env := toy_env)
                       1 [3] PAGE_CUR_G BTR_SEARCH_LEAF toy_fresh_cursor
                       (toy_machine toy_two_leaves))
                (or_introl eq_refl))
      as (c1 & m1 & Hopen & Hpos & _).
    exists c1, m1. split; [exact Hopen | exact Hpos].
Defined.


(** The position stored on the infimum of the empty tree is restored under
    a leaf latch mode. *)
Lemma btr_pcur_restore_position_tree_edge_witness :
  exists c' m',
    btr_pcur_restore_position_func (env := toy_env) BTR_SEARCH_LEAF
      toy_stored_in_empty_tree (toy_machine toy_empty_tree)
    = Ok (false, c') m' /\
    pos_state c' = BTR_PCUR_WAS_POSITIONED /\
    latch_mode c' = BTR_NO_LATCHES.
Proof.
  destruct (btr_pcur_restore_position_tree_edge (env := toy_env)
              BTR_SEARCH_LEAF toy_stored_in_empty_tree
              (toy_machine toy_empty_tree) eq_refl (or_introl eq_refl)
              (or_introl eq_refl))
    as (c' & Hrun & _ & _ & _ & Hps & Hlm & _).
  exists c'. eexists. split; [exact Hrun |]. split; [exact Hps | exact Hlm].
Defined.

(** The restore of the position stored on key 2, the leaf unchanged. *)
Lemma btr_pcur_restore_position_returns_stored_witness :
  old_stored toy_stored_on_2 = BTR_PCUR_OLD_STORED /\
  latch_mode toy_stored_on_2 = BTR_SEARCH_LEAF.
Proof.
  assert (Hrun :
    btr_pcur_restore_position_func (env := toy_env) BTR_SEARCH_LEAF
      toy_stored_on_2 (toy_machine toy_one_leaf)
    = Ok (true, toy_stored_on_2)
         (mk_machine
            (mk_toy_world (tw_pages toy_one_leaf) [(1, BTR_SEARCH_LEAF)])
            [Call_buf_page_optimistic_get BTR_SEARCH_LEAF 1 5 true]))
    by (vm_compute; reflexivity).
  destruct (btr_pcur_restore_position_returns_stored _ _ _ _ _ _ Hrun)
    as (Hos & _ & _ & _ & _ & Htrue).
  split; [exact Hos |]. exact (proj1 (proj2 (proj2 (Htrue eq_refl)))).
Defined.

(** Store on the supremum of the one-leaf tree, release, restore under
    [BTR_MODIFY_LEAF]. *)
Lemma store_release_restore_optimistic_witness :
  exists c' m',
    store_release_restore (env := toy_env) BTR_MODIFY_LEAF
      (toy_cursor_at 0 SlotSupremum BTR_SEARCH_LEAF)
      (toy_machine toy_one_leaf) = Ok (false, c') m' /\
    pos_state c' = BTR_PCUR_IS_POSITIONED /\
    latch_mode c' = BTR_NO_LATCHES.
Proof.
  destruct (store_release_restore_optimistic (env := toy_env)
              BTR_MODIFY_LEAF
              (toy_cursor_at 0 SlotSupremum BTR_SEARCH_LEAF)
              (toy_machine toy_one_leaf))
    as (c' & m' & Hrun & _ & Hps & _ & _ & Hlm & _).
  - reflexivity.
  - discriminate.
  - vm_compute. discriminate.
  - vm_compute. discriminate.
  - reflexivity.
  - vm_compute. reflexivity.
  - exists c', m'. split; [exact Hrun |]. split; [exact Hps | exact Hlm].
Defined.

(** From the infimum of leaf B back to leaf A. *)
Lemma btr_pcur_move_backward_from_page_spec_witness :
  exists c' m',
    btr_pcur_move_backward_from_page (env := toy_env)
      (toy_cursor_at 1 SlotInfimum BTR_SEARCH_LEAF)
      (toy_machine toy_two_leaves) = Ok c' m' /\
    latch_mode c' = BTR_SEARCH_LEAF /\
    pos_state c' = BTR_PCUR_IS_POSITIONED.
Proof.
  assert (Hrun : exists c' m',
    btr_pcur_move_backward_from_page (env := toy_env)
      (toy_cursor_at 1 SlotInfimum BTR_SEARCH_LEAF)
      (toy_machine toy_two_leaves) = Ok c' m')
    by (vm_compute; eauto).
  destruct Hrun as (c' & m' & Hrun).
  exists c', m'. split; [exact Hrun |].
  destruct (btr_pcur_move_backward_from_page_spec (env := toy_env) _ _ _ _
              Hrun) as (_ & _ & Hlm & _ & Hps & _).
  split; [exact Hlm | exact Hps].
Defined.

(** A run of [btr_pcur_move_backward_from_page]: the world-changing calls,
    in order.  The cursor lands on the leftmost leaf, which has no left
    sibling: no latch is released. *)
Example toy_move_backward_calls :
  new_calls (toy_machine toy_two_leaves)
    (btr_pcur_move_backward_from_page (env := toy_env)
       (toy_cursor_at 1 SlotInfimum BTR_SEARCH_LEAF)
       (toy_machine toy_two_leaves))
  = [Call_mtr_commit; Call_mtr_start;
     Call_btr_cur_search_to_nth_level 1 PAGE_CUR_L BTR_SEARCH_PREV].
Proof. vm_compute. reflexivity. Qed.

(** The same from the infimum of leaf C of the three-leaf tree, under
    [BTR_MODIFY_LEAF]: the cursor lands on the last record of leaf B, and
    the latch the search has taken on leaf A is released. *)
Example toy_move_backward_releases :
  new_calls (toy_machine toy_three_leaves)
    (btr_pcur_move_backward_from_page (env := toy_env)
       (toy_cursor_at 2 SlotInfimum BTR_MODIFY_LEAF)
       (toy_machine toy_three_leaves))
  = [Call_mtr_commit; Call_mtr_start;
     Call_btr_cur_search_to_nth_level 1 PAGE_CUR_L BTR_MODIFY_PREV;
     Call_btr_leaf_page_release 1 BTR_MODIFY_LEAF].
Proof. vm_compute. reflexivity. Qed.

(** Runs of [btr_pcur_move_to_next_page] from the supremum of leaf A: to
    leaf B in the two-leaf tree; into the second [ut_a] of the
    [UNIV_BTR_DEBUG] block when leaf B does not name leaf A as its
    predecessor, the block of leaf B fetched and leaf A not released. *)
Example toy_move_to_next_page :
  new_calls (toy_machine toy_two_leaves)
    (btr_pcur_move_to_next_page (env := toy_env)
       (toy_cursor_at 0 SlotSupremum BTR_SEARCH_LEAF)
       (toy_machine toy_two_leaves))
  = [Call_btr_block_get 0 1 BTR_SEARCH_LEAF;
     Call_btr_leaf_page_release 1 BTR_SEARCH_LEAF] /\
  option_map btr_pcur_get_page_cur
    (returned
       (btr_pcur_move_to_next_page (env := toy_env)
          (toy_cursor_at 0 SlotSupremum BTR_SEARCH_LEAF)
          (toy_machine toy_two_leaves)))
  = Some (mk_page_cur (toy_rec_addr 1 SlotInfimum) (toy_block 1)).
Proof. vm_compute. split; reflexivity. Qed.

Example toy_move_to_next_page_unlinked :
  btr_pcur_move_to_next_page (env := toy_env)
    (toy_cursor_at 0 SlotSupremum BTR_SEARCH_LEAF)
    (toy_machine toy_two_leaves_unlinked)
  = Abort
      (mk_machine
         (mk_toy_world (tw_pages toy_two_leaves_unlinked)
            [(2, BTR_SEARCH_LEAF)])
         [Call_btr_block_get 0 1 BTR_SEARCH_LEAF]).
Proof. vm_compute. reflexivity. Qed.

(** *** Row undo *)

Section RowUndoProofs.

Context {uenv : RowUndoEnv}.

(** C6: [row_undo_search_clust_to_pcur] returns false exactly when the
    search does not find the record or the landing record's roll pointer is
    not the node's; it then leaves the row images of the node alone.  When
    it returns true the node carries the row built from the landing record,
    the pre-image built through the update vector if there is one (none
    otherwise), and the cursor whose position has been stored.  Either way
    the last thing the call did to the world is the commit of its
    mini-transaction. *)
Theorem row_undo_search_clust_to_pcur_spec
    (node : Undo_node) (m : machine undo_world) :
  let searched :=
    row_search_on_row_ref (m_pcur node) BTR_MODIFY_LEAF (table node)
      (ref node) (undo_mtr_start (mem m)) in
  let found := fst (fst searched) in
  let pcur1 := snd (fst searched) in
  let w1 := snd searched in
  let clust_index := table_get_first_index (table node) in
  let rec := pcur_get_rec pcur1 in
  let m1 :=
    mk_machine w1
      (calls m ++
       [Call_mtr_start; Call_row_search_on_row_ref BTR_MODIFY_LEAF]) in
  let missing :=
    found = false \/
    roll_ptr node <> row_get_rec_roll_ptr w1 rec clust_index in
  let built := row_build w1 clust_index rec in
  let pre_image :=
    match update node with
    | Some upd =>
        let replaced :=
          row_upd_replace clust_index upd (dtuple_copy (fst built)) in
        (Some (fst replaced), snd replaced)
    | None => (None, None)
    end in
  let run := row_undo_search_clust_to_pcur node m in
  (missing ->
   let committed := pcur_commit_specify_mtr pcur1 w1 in
   run = Ok (false,
             mk_Undo_node (fst committed) (table node) (ref node)
               (roll_ptr node) (update node) (row node) (ext node)
               (undo_row node) (undo_ext node))
            (mk_machine (snd committed)
               (calls m1 ++ [Call_commit_specify_mtr]))) /\
  (~ missing ->
   forall p2 m2,
     pcur_store_position pcur1 m1 = Ok p2 m2 ->
     let committed := pcur_commit_specify_mtr p2 (mem m2) in
     run = Ok (true,
               mk_Undo_node (fst committed) (table node) (ref node)
                 (roll_ptr node) (update node) (Some (fst built))
                 (snd built) (fst pre_image) (snd pre_image))
              (mk_machine (snd committed)
                 (calls m2 ++ [Call_commit_specify_mtr]))) /\
  (forall b node' m',
     run = Ok (b, node') m' ->
     (b = false <-> missing) /\
     (b = true ->
      row node' = Some (fst built) /\
      ext node' = snd built /\
      undo_row node' = fst pre_image /\
      undo_ext node' = snd pre_image /\
      exists p2 m2,
        pcur_store_position pcur1 m1 = Ok p2 m2 /\
        m_pcur node' = fst (pcur_commit_specify_mtr p2 (mem m2))) /\
     last (calls m') = Some Call_commit_specify_mtr).
Proof.
  intros searched found pcur1 w1 clust_index rec m1 missing built pre_image run.
  assert (Hmissing :
    negb found
    || negb (roll_ptr node =? row_get_rec_roll_ptr w1 rec clust_index)
    = true <-> missing).
  { subst missing. rewrite orb_true_iff, !negb_true_iff, Z.eqb_neq.
    reflexivity. }
  assert (Hrun :
    run =
    if negb found
       || negb (roll_ptr node =? row_get_rec_roll_ptr w1 rec clust_index)
    then
      Ok (false,
          mk_Undo_node (fst (pcur_commit_specify_mtr pcur1 w1)) (table node)
            (ref node) (roll_ptr node) (update node) (row node) (ext node)
            (undo_row node) (undo_ext node))
         (mk_machine (snd (pcur_commit_specify_mtr pcur1 w1))
            (calls m1 ++ [Call_commit_specify_mtr]))
    else
      match pcur_store_position pcur1 m1 with
      | Ok p2 m2 =>
          Ok (true,
              mk_Undo_node (fst (pcur_commit_specify_mtr p2 (mem m2)))
                (table node) (ref node) (roll_ptr node) (update node)
                (Some (fst built)) (snd built) (fst pre_image)
                (snd pre_image))
             (mk_machine (snd (pcur_commit_specify_mtr p2 (mem m2)))
                (calls m2 ++ [Call_commit_specify_mtr]))
      | Abort m2 => Abort m2
      end).
  { subst run m1. unfold row_undo_search_clust_to_pcur.
    unfold bind at 1, act at 1. cbn [mem calls].
    unfold bind at 1, act at 1. cbn [mem calls].
    fold searched. fold clust_index.
    assert (Hs : searched = (found, pcur1, w1))
      by (subst found pcur1 w1; destruct searched as [[? ?] ?]; reflexivity).
    rewrite Hs. cbn [fst snd]. rewrite <- app_assoc. cbn [app].
    unfold bind at 1, read at 1. cbn [mem m_pcur set_m_pcur roll_ptr].
    fold rec.
    destruct (negb found
              || negb (roll_ptr node
                       =? row_get_rec_roll_ptr w1 rec clust_index)).
    - unfold bind, ret, act. cbn [fst snd mem calls m_pcur set_m_pcur].
      destruct (pcur_commit_specify_mtr pcur1 w1) as [p w]. reflexivity.
    - subst pre_image.
      unfold bind, read, ret, act.
      cbn [mem calls fst snd update table set_row set_m_pcur].
      fold clust_index. fold built.
      destruct (update node) as [upd |] eqn:Hu;
        cbn [m_pcur set_undo_row set_row set_m_pcur];
        (destruct (pcur_store_position pcur1 _) as [p2 m2 | m2];
         [| reflexivity]);
        unfold set_m_pcur, set_undo_row, set_row;
        cbn [fst snd mem calls m_pcur table ref roll_ptr update row ext
             undo_row undo_ext];
        destruct (pcur_commit_specify_mtr p2 (mem m2));
        rewrite ?Hu; reflexivity. }
  destruct (negb found
            || negb (roll_ptr node =? row_get_rec_roll_ptr w1 rec clust_index)).
  - assert (Hm : missing) by (apply Hmissing; reflexivity).
    split; [| split].
    + intros _. exact Hrun.
    + intros Hnm. contradiction.
    + intros b node' m' Hok. rewrite Hrun in Hok.
      injection Hok as <- <- <-.
      split; [split; [intros _; exact Hm | reflexivity] |].
      split; [discriminate |].
      cbn [calls]. apply last_snoc.
  - assert (Hnm : ~ missing)
      by (intros Hm; apply Hmissing in Hm; discriminate).
    split; [| split].
    + intros Hm. contradiction.
    + intros _ p2 m2 Hst. rewrite Hrun, Hst. reflexivity.
    + intros b node' m' Hok. rewrite Hrun in Hok.
      destruct (pcur_store_position pcur1 m1) as [p2 m2 | m2] eqn:Hst;
        [| discriminate].
      injection Hok as <- <- <-.
      split; [split; [discriminate | intros Hm; contradiction] |].
      split.
      { intros _. cbn [row ext undo_row undo_ext m_pcur].
        repeat split; try reflexivity. eauto. }
      cbn [calls]. apply last_snoc.
Qed.

End RowUndoProofs.

(** An insert being undone whose record is in place: found, same roll
    pointer, no update vector. *)
Example toy_undo_search_found :
  row_undo_search_clust_to_pcur (uenv := toy_row_undo_env)
    (toy_undo_node 700 None) (mk_machine toy_clust [])
  = Ok (true,
        mk_Undo_node (uenv := toy_row_undo_env) (mk_toy_pcursor 2 false true)
          1 7 700 None (Some [7; 70]) None None None)
       (mk_machine (mk_toy_undo_world (tu_clust toy_clust) false 1)
          [Call_mtr_start; Call_row_search_on_row_ref BTR_MODIFY_LEAF;
           Call_commit_specify_mtr]).
Proof. vm_compute. reflexivity. Qed.

(** A modify being undone: the pre-image is the row with the update
    vector applied. *)
Example toy_undo_search_modify :
  option_map (fun r => (fst r, row (snd r), undo_row (snd r)))
    (returned
       (row_undo_search_clust_to_pcur (uenv := toy_row_undo_env)
          (toy_undo_node 700 (Some [(1%nat, 71)])) (mk_machine toy_clust [])))
  = Some (true, Some [7; 70], Some [7; 71]).
Proof. vm_compute. reflexivity. Qed.

(** The record carries another roll pointer: false, and the transaction is
    committed all the same. *)
Example toy_undo_search_superseded :
  row_undo_search_clust_to_pcur (uenv := toy_row_undo_env)
    (toy_undo_node 701 None) (mk_machine toy_clust [])
  = Ok (false,
        mk_Undo_node (uenv := toy_row_undo_env) (mk_toy_pcursor 2 false false)
          1 7 701 None None None None None)
       (mk_machine (mk_toy_undo_world (tu_clust toy_clust) false 1)
          [Call_mtr_start; Call_row_search_on_row_ref BTR_MODIFY_LEAF;
           Call_commit_specify_mtr]).
Proof. vm_compute. reflexivity. Qed.

(** The undo node whose roll pointer the record does not carry. *)
Lemma row_undo_search_clust_to_pcur_spec_witness :
  exists node' m',
    row_undo_search_clust_to_pcur (uenv := toy_row_undo_env)
      (toy_undo_node 701 None) (mk_machine toy_clust []) = Ok (false, node') m'.
Proof.
  eexists _, _.
  apply (proj1 (row_undo_search_clust_to_pcur_spec (uenv := toy_row_undo_env)
                  (toy_undo_node 701 None) (mk_machine toy_clust []))).
  right. vm_compute. discriminate.
Defined.

(** **** The undo step *)

Section RowUndoStepProofs.

Context {uenv : RowUndoEnv} {senv : RowUndoStepEnv}.

Lemma undo_act_eq {A : Type} (f : undo_world -> A * undo_world)
    (ev : undo_event) (m : machine undo_trace) :
  undo_act f ev m =
  Ok (fst (f (tr_world (mem m))))
     (undo_logged m (snd (f (tr_world (mem m)))) [ev]).
Proof.
  unfold undo_act, undo_logged. destruct (f (tr_world (mem m))). reflexivity.
Qed.

Lemma undo_logged_logged (m : machine undo_trace) (w1 w2 : undo_world)
    (e1 e2 : list undo_event) :
  undo_logged (undo_logged m w1 e1) w2 e2 = undo_logged m w2 (e1 ++ e2).
Proof. unfold undo_logged. cbn. now rewrite app_assoc. Qed.

Lemma new_events_logged {A : Type} (m : machine undo_trace) (a : A)
    (w : undo_world) (evs : list undo_event) :
  new_events m (Ok a (undo_logged m w evs)) = evs.
Proof. unfold new_events. cbn. apply drop_app_length. Qed.

Lemma new_events_logged_Abort {A : Type} (m : machine undo_trace)
    (w : undo_world) (evs : list undo_event) :
  new_events m (Abort (A := A) (undo_logged m w evs)) = evs.
Proof. unfold new_events. cbn. apply drop_app_length. Qed.

Lemma row_undo_apply_eq (node_ptr trx : Z) (node : Undo_node_run)
    (thr : que_thr_t) (m : machine undo_trace) :
  row_undo_apply node_ptr trx node thr m =
  let w := tr_world (mem m) in
  if trx_dict_operation_lock_mode w trx =? 0 then
    let w1 := lock_data_dictionary trx w in
    if trx_dict_operation_lock_mode w1 trx =? 0 then
      Abort (undo_logged m w1 [Ev_lock_data_dictionary trx])
    else
      let d := row_undo_dispatch node thr w1 in
      let c := row_undo_cleanup node_ptr (fst (fst d))
                 (unlock_data_dictionary trx (snd (fst d))) in
      Ok (fst c)
         (undo_logged m (snd c)
            [Ev_lock_data_dictionary trx; snd d;
             Ev_unlock_data_dictionary trx; Ev_pcur_close;
             Ev_mem_heap_empty (node_heap (snd (fst (fst c))))])
  else
    let d := row_undo_dispatch node thr w in
    let c := row_undo_cleanup node_ptr (fst (fst d)) (snd (fst d)) in
    Ok (fst c)
       (undo_logged m (snd c)
          [snd d; Ev_pcur_close;
           Ev_mem_heap_empty (node_heap (snd (fst (fst c))))]).
Proof.
  cbv zeta. unfold row_undo_apply.
  unfold bind at 1. unfold undo_read at 1, read at 1.
  destruct (trx_dict_operation_lock_mode (tr_world (mem m)) trx =? 0) eqn:Hm.
  - unfold bind at 1. unfold bind at 1. rewrite undo_act_eq.
    unfold bind at 1. unfold undo_read at 1, read at 1.
    cbn [mem tr_world undo_logged fst snd].
    destruct (trx_dict_operation_lock_mode
                (lock_data_dictionary trx (tr_world (mem m))) trx =? 0) eqn:Hm1.
    + reflexivity.
    + cbn [negb ut_a ret]. unfold row_undo_dispatch, row_undo_cleanup.
      destruct (bool_decide (state node = UNDO_NODE_INSERT)).
      * unfold bind at 1. unfold bind at 1. rewrite undo_act_eq.
        unfold ret at 1.
        unfold bind at 1. rewrite undo_act_eq.
        unfold bind at 1. rewrite undo_act_eq.
        unfold bind at 1. rewrite undo_act_eq. unfold ret.
        rewrite !undo_logged_logged. reflexivity.
      * unfold bind at 1. rewrite undo_act_eq.
        unfold bind at 1. rewrite undo_act_eq.
        unfold bind at 1. rewrite undo_act_eq.
        unfold bind at 1. rewrite undo_act_eq. unfold ret.
        rewrite !undo_logged_logged. reflexivity.
  - unfold bind at 1. unfold ret at 1.
    unfold row_undo_dispatch, row_undo_cleanup.
    destruct (bool_decide (state node = UNDO_NODE_INSERT)).
    + unfold bind at 1. unfold bind at 1. rewrite undo_act_eq.
      unfold ret at 1.
      unfold bind at 1. unfold ret at 1.
      unfold bind at 1. rewrite undo_act_eq.
      unfold bind at 1. rewrite undo_act_eq. unfold ret.
      rewrite !undo_logged_logged. reflexivity.
    + unfold bind at 1. rewrite undo_act_eq.
      unfold bind at 1. unfold ret at 1.
      unfold bind at 1. rewrite undo_act_eq.
      unfold bind at 1. rewrite undo_act_eq. unfold ret.
      rewrite !undo_logged_logged. reflexivity.
Qed.

Lemma row_undo_classify_eq (node : Undo_node_run) (rec rp : Z)
    (m : machine undo_trace) :
  row_undo_classify node rec rp m
  = Ok (classified node rec rp (tr_world (mem m))) m.
Proof.
  unfold row_undo_classify, classified, bind, undo_read, read.
  destruct (trx_undo_roll_ptr_is_insert rp); reflexivity.
Qed.

Lemma row_undo_fetch_eq (node : Undo_node_run) (m : machine undo_trace) :
  row_undo_fetch node m =
  let w := tr_world (mem m) in
  if bool_decide (state node = UNDO_NODE_FETCH_NEXT) then
    let limit := trx_roll_limit w (trx node) in
    let popped :=
      trx_roll_pop_top_rec_of_trx (trx node) limit (node_heap node) w in
    let m1 :=
      undo_logged m (snd popped)
        [Ev_trx_roll_pop_top_rec_of_trx (trx node) limit] in
    if fst (fst popped) =? 0
    then Ok (inl (set_undo_rec node (fst (fst popped)))) m1
    else Ok (inr (classified node (fst (fst popped)) (snd (fst popped))
                    (snd popped))) m1
  else if bool_decide (state node = UNDO_NODE_PREV_VERS) then
    let got :=
      trx_undo_get_undo_rec_low (new_roll_ptr node) (node_heap node) w in
    Ok (inr (classified node (fst got) (new_roll_ptr node) (snd got)))
       (undo_logged m (snd got)
          [Ev_trx_undo_get_undo_rec_low (new_roll_ptr node)])
  else Ok (inr node) m.
Proof.
  cbv zeta. unfold row_undo_fetch.
  destruct (bool_decide (state node = UNDO_NODE_FETCH_NEXT)).
  - unfold bind at 1. unfold undo_read at 1, read at 1.
    unfold bind at 1. rewrite undo_act_eq.
    destruct (_ =? 0); [reflexivity |].
    unfold bind. rewrite row_undo_classify_eq. reflexivity.
  - destruct (bool_decide (state node = UNDO_NODE_PREV_VERS));
      [| reflexivity].
    unfold bind at 1. rewrite undo_act_eq.
    unfold bind. rewrite row_undo_classify_eq. reflexivity.
Qed.

(** X20: when the node is to fetch the next undo record and the undo log
    of the transaction hands back none, [row_undo] returns [DB_SUCCESS] and
    gives control to the parent of the node.  The pop is all that has
    happened: the data dictionary is not locked, no undo operation is run,
    the cursor is not closed and the arena of the node is not emptied; the
    node is still to fetch. *)
Theorem row_undo_end_of_log
    (node_ptr : Z) (node : Undo_node_run) (thr : que_thr_t)
    (m : machine undo_trace) :
  let limit := trx_roll_limit (tr_world (mem m)) (trx node) in
  let popped :=
    trx_roll_pop_top_rec_of_trx (trx node) limit (node_heap node)
      (tr_world (mem m)) in
  state node = UNDO_NODE_FETCH_NEXT ->
  fst (fst popped) = 0 ->
  row_undo node_ptr node thr m =
    Ok (DB_SUCCESS, set_undo_rec node 0,
        set_run_node thr (common_parent node))
       (undo_logged m (snd popped)
          [Ev_trx_roll_pop_top_rec_of_trx (trx node) limit]) /\
  new_events m (row_undo node_ptr node thr m)
    = [Ev_trx_roll_pop_top_rec_of_trx (trx node) limit] /\
  state (set_undo_rec node 0) = UNDO_NODE_FETCH_NEXT.
Proof.
  intros limit popped Hst Hnone.
  assert (Hrun :
    row_undo node_ptr node thr m =
      Ok (DB_SUCCESS, set_undo_rec node 0,
          set_run_node thr (common_parent node))
         (undo_logged m (snd popped)
            [Ev_trx_roll_pop_top_rec_of_trx (trx node) limit])).
  { unfold row_undo. unfold bind. rewrite row_undo_fetch_eq. cbv zeta.
    rewrite (bool_decide_eq_true_2 _ Hst).
    fold limit. fold popped. rewrite Hnone. reflexivity. }
  split; [exact Hrun |]. split; [| exact Hst].
  rewrite Hrun. apply new_events_logged.
Qed.

(** X21: [row_undo] takes the data dictionary lock exactly when the
    transaction does not hold it once the undo record has been fetched,
    and then releases it when the undo operation is over, before the
    cursor is closed and the arena emptied.  A run that returns has either
    only popped the empty undo log and handed control to the parent, or
    has fetched at most once, run one undo operation (the undo of an
    insert exactly when the fetched node is in the insert state), and
    cleaned up, leaving the node as the node to run: if the lock mode of
    the transaction was not 0 after the fetch, the operation is bare; if it
    was 0, the operation stands between a lock and an unlock of the
    dictionary.  After the undo of an insert the node is to fetch again.
    The only way [row_undo] dies is the assertion after the lock, when the
    lock mode was 0 and still is 0 in the world the lock has left: then no
    undo operation has been run.  In every other case it returns. *)
Theorem row_undo_dictionary_lock
    (node_ptr : Z) (node : Undo_node_run) (thr : que_thr_t)
    (m : machine undo_trace) :
  let run := row_undo node_ptr node thr m in
  let t := trx node in
  (forall err node' thr' m',
     run = Ok (err, node', thr') m' ->
     (run_node thr' = common_parent node /\ err = DB_SUCCESS /\
      undo_rec node' = 0 /\ state node' = UNDO_NODE_FETCH_NEXT /\
      exists limit,
        new_events m run = [Ev_trx_roll_pop_top_rec_of_trx t limit]) \/
     (run_node thr' = node_ptr /\
      exists fetch op n m1,
        row_undo_fetch node m = Ok (inr n) m1 /\
        Forall (fun ev => is_fetch ev = true) fetch /\
        (length fetch <= 1)%nat /\
        is_undo_operation op = true /\
        (op = Ev_row_undo_ins <-> state n = UNDO_NODE_INSERT) /\
        (op = Ev_row_undo_ins -> state node' = UNDO_NODE_FETCH_NEXT) /\
        let w1 := tr_world (mem m1) in
        (trx_dict_operation_lock_mode w1 t <> 0 /\
         new_events m run =
           fetch ++ [op; Ev_pcur_close; Ev_mem_heap_empty (node_heap node')]
         \/
         trx_dict_operation_lock_mode w1 t = 0 /\
         trx_dict_operation_lock_mode (lock_data_dictionary t w1) t <> 0 /\
         new_events m run =
           fetch ++ [Ev_lock_data_dictionary t; op;
                     Ev_unlock_data_dictionary t; Ev_pcur_close;
                     Ev_mem_heap_empty (node_heap node')]))) /\
  (forall m',
     run = Abort m' ->
     trx_dict_operation_lock_mode (tr_world (mem m')) t = 0 /\
     exists fetch n m1,
       row_undo_fetch node m = Ok (inr n) m1 /\
       trx_dict_operation_lock_mode (tr_world (mem m1)) t = 0 /\
       tr_world (mem m') = lock_data_dictionary t (tr_world (mem m1)) /\
       Forall (fun ev => is_fetch ev = true) fetch /\
       new_events m run = fetch ++ [Ev_lock_data_dictionary t]) /\
  (forall n m1,
     row_undo_fetch node m = Ok (inr n) m1 ->
     let w1 := tr_world (mem m1) in
     (trx_dict_operation_lock_mode w1 t <> 0 \/
      trx_dict_operation_lock_mode (lock_data_dictionary t w1) t <> 0 ->
      exists r m', run = Ok r m') /\
     (trx_dict_operation_lock_mode w1 t = 0 ->
      trx_dict_operation_lock_mode (lock_data_dictionary t w1) t = 0 ->
      exists m', run = Abort m')).
Proof.
  intros run t.
  assert (Hfetch : exists fetch fetched m1,
    row_undo_fetch node m = Ok fetched m1 /\
    Forall (fun ev => is_fetch ev = true) fetch /\
    (length fetch <= 1)%nat /\
    (forall A (r : result undo_trace A) w evs,
       final_machine r = undo_logged m1 w evs ->
       new_events m r = fetch ++ evs) /\
    match fetched with
    | inl n =>
        undo_rec n = 0 /\ state n = UNDO_NODE_FETCH_NEXT /\
        common_parent n = common_parent node /\
        new_events m (Ok (A := unit) tt m1) = fetch /\
        exists limit, fetch = [Ev_trx_roll_pop_top_rec_of_trx t limit]
    | inr n => True
    end).
  { rewrite row_undo_fetch_eq. cbv zeta.
    assert (Hlog : forall w1 ev A (r : result undo_trace A) w evs,
      final_machine r = undo_logged (undo_logged m w1 [ev]) w evs ->
      new_events m r = [ev] ++ evs).
    { intros w1 ev A r w evs Hr. unfold new_events. rewrite Hr.
      cbn. rewrite <- app_assoc. apply drop_app_length. }
    destruct (bool_decide (state node = UNDO_NODE_FETCH_NEXT)) eqn:Hst.
    - apply bool_decide_eq_true_1 in Hst.
      destruct (Z.eqb_spec
                  (fst (fst (trx_roll_pop_top_rec_of_trx (trx node)
                               (trx_roll_limit (tr_world (mem m)) (trx node))
                               (node_heap node) (tr_world (mem m))))) 0)
        as [E | E].
      + exists [Ev_trx_roll_pop_top_rec_of_trx (trx node)
                   (trx_roll_limit (tr_world (mem m)) (trx node))].
        eexists _, _. split; [reflexivity |].
        split; [repeat constructor |]. split; [simpl; lia |].
        split; [apply Hlog |].
        split; [exact E |]. split; [exact Hst |]. split; [reflexivity |].
        split; [apply new_events_logged | eauto].
      + exists [Ev_trx_roll_pop_top_rec_of_trx (trx node)
                   (trx_roll_limit (tr_world (mem m)) (trx node))].
        eexists _, _. split; [reflexivity |].
        split; [repeat constructor |]. split; [simpl; lia |].
        split; [apply Hlog | exact I].
    - destruct (bool_decide (state node = UNDO_NODE_PREV_VERS)).
      + exists [Ev_trx_undo_get_undo_rec_low (new_roll_ptr node)].
        eexists _, _. split; [reflexivity |].
        split; [repeat constructor |]. split; [simpl; lia |].
        split; [apply Hlog | exact I].
      + exists [], (inr node), m. split; [reflexivity |].
        split; [constructor |]. split; [simpl; lia |].
        split; [| exact I].
        intros A r w evs Hr. unfold new_events. rewrite Hr. cbn.
        apply drop_app_length. }
  destruct Hfetch as (fetch & fetched & m1 & Hf & Hall & Hlen & Hnew & Hcase).
  assert (Hrun : run =
    match fetched with
    | inl n => Ok (DB_SUCCESS, n, set_run_node thr (common_parent n)) m1
    | inr n => row_undo_apply node_ptr t n thr m1
    end).
  { subst run t. unfold row_undo, bind. rewrite Hf. destruct fetched;
      reflexivity. }
  destruct fetched as [n | n].
  - destruct Hcase as (Hrec & Hst & Hpar & Hev & limit & Hfe).
    split; [| split].
    + intros err node' thr' m' H. rewrite Hrun in H.
      injection H as <- <- <- <-. left.
      split; [cbn; congruence |]. split; [reflexivity |].
      split; [exact Hrec |]. split; [exact Hst |].
      exists limit. rewrite Hrun, <- Hfe. exact Hev.
    + intros m' H. rewrite Hrun in H. discriminate.
    + intros n' m1' H. rewrite Hf in H. discriminate.
  - assert (Hop : forall w,
      is_undo_operation (snd (row_undo_dispatch n thr w)) = true /\
      (snd (row_undo_dispatch n thr w) = Ev_row_undo_ins
       <-> state n = UNDO_NODE_INSERT) /\
      (snd (row_undo_dispatch n thr w) = Ev_row_undo_ins ->
       state (snd (fst (fst (fst (row_undo_dispatch n thr w)))))
       = UNDO_NODE_FETCH_NEXT)).
    { intros w. unfold row_undo_dispatch.
      destruct (bool_decide (state n = UNDO_NODE_INSERT)) eqn:Hins.
      - apply bool_decide_eq_true_1 in Hins. cbn [fst snd].
        repeat split; auto.
      - apply bool_decide_eq_false_1 in Hins. cbn [fst snd].
        repeat split; try discriminate. intros; contradiction. }
    rewrite row_undo_apply_eq in Hrun. cbv zeta in Hrun.
    destruct (Z.eqb_spec
                (trx_dict_operation_lock_mode (tr_world (mem m1)) t) 0)
      as [Hheld | Hheld].
    + destruct (Z.eqb_spec
                  (trx_dict_operation_lock_mode
                     (lock_data_dictionary t (tr_world (mem m1))) t) 0)
        as [E | E].
      * split; [intros ? ? ? ? H; rewrite Hrun in H; discriminate |].
        split.
        -- intros m' H. rewrite Hrun in H. injection H as <-.
           split; [exact E |]. exists fetch, n, m1.
           split; [exact Hf |]. split; [exact Hheld |].
           split; [reflexivity |]. split; [exact Hall |].
           rewrite Hrun. eapply Hnew. reflexivity.
        -- intros n' m1' H. rewrite Hf in H. injection H as <- <-.
           cbv zeta. split; [intros [? | ?]; contradiction |].
           intros _ _. rewrite Hrun. eauto.
      * split; [| split; [intros m' H; rewrite Hrun in H; discriminate |]].
        -- intros err node' thr' m' H. rewrite Hrun in H.
           injection H as Herr Hnode Hthr Hm. right.
           split; [rewrite <- Hthr; reflexivity |].
           destruct (Hop (lock_data_dictionary t (tr_world (mem m1))))
             as (Hop1 & Hop2 & Hop3).
           exists fetch. eexists. exists n, m1.
           split; [exact Hf |].
           split; [exact Hall |]. split; [exact Hlen |].
           split; [exact Hop1 |]. split; [exact Hop2 |].
           split; [rewrite <- Hnode; exact Hop3 |].
           cbv zeta. right. split; [exact Hheld |]. split; [exact E |].
           rewrite Hrun, <- Hnode. eapply Hnew. reflexivity.
        -- intros n' m1' H. rewrite Hf in H. injection H as <- <-.
           cbv zeta. split; [| intros; contradiction].
           intros _. rewrite Hrun. eauto.
    + split; [| split; [intros m' H; rewrite Hrun in H; discriminate |]].
      * intros err node' thr' m' H. rewrite Hrun in H.
        injection H as Herr Hnode Hthr Hm. right.
        split; [rewrite <- Hthr; reflexivity |].
        destruct (Hop (tr_world (mem m1))) as (Hop1 & Hop2 & Hop3).
        exists fetch. eexists. exists n, m1.
        split; [exact Hf |].
        split; [exact Hall |]. split; [exact Hlen |].
        split; [exact Hop1 |]. split; [exact Hop2 |].
        split; [rewrite <- Hnode; exact Hop3 |].
        cbv zeta. left. split; [exact Hheld |].
        rewrite Hrun, <- Hnode. eapply Hnew. reflexivity.
      * intros n' m1' H. rewrite Hf in H. injection H as <- <-.
        cbv zeta. split; [| intros; contradiction].
        intros _. rewrite Hrun. eauto.
Qed.

(** X22: [row_undo_step] returns only when [row_undo] has returned
    [DB_SUCCESS]; it then hands back the query thread as [row_undo] left it,
    with [DB_SUCCESS] written to the error state of the thread's
    transaction.  Any other error code is written to the error state too,
    and after that the call dies: it has no error return. *)
Theorem row_undo_step_spec
    (node : Undo_node_run) (thr : que_thr_t) (m : machine undo_trace) :
  let m0 :=
    mk_machine
      (mk_undo_trace (srv_activity_count_incr (tr_world (mem m)))
         (tr_events (mem m)))
      (calls m) in
  let recorded err m1 :=
    mk_machine
      (mk_undo_trace
         (trx_set_error_state (thr_trx thr) err (tr_world (mem m1)))
         (tr_events (mem m1)))
      (calls m1) in
  (forall m1,
     row_undo (run_node thr) node thr m0 = Abort m1 ->
     row_undo_step node thr m = Abort m1) /\
  (forall err node' thr' m1,
     row_undo (run_node thr) node thr m0 = Ok (err, node', thr') m1 ->
     (err = DB_SUCCESS ->
      row_undo_step node thr m = Ok (node', thr') (recorded err m1)) /\
     (err <> DB_SUCCESS ->
      row_undo_step node thr m = Abort (recorded err m1))) /\
  (forall node' thr' m',
     row_undo_step node thr m = Ok (node', thr') m' ->
     exists m1,
       row_undo (run_node thr) node thr m0
         = Ok (DB_SUCCESS, node', thr') m1 /\
       m' = recorded DB_SUCCESS m1).
Proof.
  intros m0 recorded.
  assert (Hstep : row_undo_step node thr m =
    match row_undo (run_node thr) node thr m0 with
    | Ok (err, node', thr') m1 =>
        if bool_decide (err = DB_SUCCESS)
        then Ok (node', thr') (recorded err m1)
        else Abort (recorded err m1)
    | Abort m1 => Abort m1
    end).
  { unfold row_undo_step. unfold bind at 1. unfold modify at 1.
    fold m0. unfold bind at 1.
    destruct (row_undo (run_node thr) node thr m0)
      as [[[err node'] thr'] m1 | m1]; [| reflexivity].
    unfold bind, modify. cbn [fst snd]. fold (recorded err m1).
    destruct (bool_decide (err = DB_SUCCESS)); reflexivity. }
  rewrite Hstep. split; [| split].
  - intros m1 ->. reflexivity.
  - intros err node' thr' m1 ->. split.
    + intros ->. now rewrite bool_decide_eq_true_2.
    + intros Hne. now rewrite bool_decide_eq_false_2.
  - intros node' thr' m'.
    destruct (row_undo (run_node thr) node thr m0)
      as [[[err n'] t'] m1 | m1]; [| discriminate].
    destruct (bool_decide (err = DB_SUCCESS)) eqn:He; [| discriminate].
    apply bool_decide_eq_true_1 in He. subst err.
    intros [= <- <- <-]. eauto.
Qed.

End RowUndoStepProofs.

(** The undo log of the transaction is empty. *)
Lemma row_undo_end_of_log_witness :
  new_events (toy_step_machine [] 0)
    (row_undo (senv := toy_step_env) 500
       (toy_step_node UNDO_NODE_FETCH_NEXT) (mk_que_thr 1 500)
       (toy_step_machine [] 0))
  = [Ev_trx_roll_pop_top_rec_of_trx 1 0].
Proof.
  exact (proj1 (proj2
    (row_undo_end_of_log (senv := toy_step_env) 500
       (toy_step_node UNDO_NODE_FETCH_NEXT) (mk_que_thr 1 500)
       (toy_step_machine [] 0) eq_refl eq_refl))).
Defined.

(** The undo of an insert by a transaction that holds no dictionary lock,
    and the undo of a modify by one that holds it. *)
Example toy_row_undo_events :
  new_events (toy_step_machine [(900, 4)] 0)
    (row_undo (senv := toy_step_env) 500
       (toy_step_node UNDO_NODE_FETCH_NEXT) (mk_que_thr 1 500)
       (toy_step_machine [(900, 4)] 0))
  = [Ev_trx_roll_pop_top_rec_of_trx 1 0; Ev_lock_data_dictionary 1;
     Ev_row_undo_ins; Ev_unlock_data_dictionary 1; Ev_pcur_close;
     Ev_mem_heap_empty 600] /\
  new_events (toy_step_machine [(900, 5)] 1)
    (row_undo (senv := toy_step_env) 500
       (toy_step_node UNDO_NODE_FETCH_NEXT) (mk_que_thr 1 500)
       (toy_step_machine [(900, 5)] 1))
  = [Ev_trx_roll_pop_top_rec_of_trx 1 0; Ev_row_undo_mod; Ev_pcur_close;
     Ev_mem_heap_empty 600].
Proof. vm_compute. split; reflexivity. Qed.

(** A step that undoes an insert: the activity counter is incremented, the
    error state of the transaction is [DB_SUCCESS] and the node is to run
    again, fetching. *)
Example toy_row_undo_step :
  match row_undo_step (senv := toy_step_env)
          (toy_step_node UNDO_NODE_FETCH_NEXT) (mk_que_thr 1 500)
          (toy_step_machine [(900, 4)] 0) with
  | Ok (node, thr) m =>
      run_node thr = 500 /\
      state node = UNDO_NODE_FETCH_NEXT /\
      undo_rec node = 900 /\
      ts_error_state (tr_world (mem m)) = Some true /\
      ts_activity (tr_world (mem m)) = 1 /\
      ts_dict_lock_mode (tr_world (mem m)) = 0
  | Abort _ => False
  end.
Proof. vm_compute. repeat split; reflexivity. Qed.
